(** * compression: the response-compression middleware of src/index.js

    A shallow embedding of the middleware returned by [compression(options)]:
    the session variables it closes over ([ended], [length], [listeners],
    [stream]), the response object it patches ([res.flush], [res.write],
    [res.end], [res.on]) and the header listener [onResponseHeaders] that takes
    the compression decision.  Calls are state-passing functions returning the
    new session together with what the call returns or raises. *)

From Stdlib Require Import ZArith Bool List Ascii String Lia.
From stdpp Require Import base option list strings gmap pretty.
Import ListNotations.
Local Open Scope string_scope.
Local Open Scope Z_scope.

(** ** JavaScript values that reach the middleware *)

(** Functions are opaque handles.  [noop], [onStreamData], [onStreamEnd] and
    [onResponseDrain] are the four functions the source defines itself. *)
Inductive fn :=
| noop
| onStreamData
| onStreamEnd
| onResponseDrain
| user_fn (id : nat).

Inductive value :=
| VUndefined
| VNull
| VBool (b : bool)
| VNumber (n : Z)
| VString (s : string)
| VBuffer (b : list Byte.byte)        (* a Buffer, which is a Uint8Array *)
| VUint8Array (b : list Byte.byte)    (* a Uint8Array that is not a Buffer *)
| VFunction (f : fn)
| VObject (id : nat).

(** JavaScript truthiness, as used by [!chunk], [!callback], [chunk ? _ : _]. *)
Definition truthy (v : value) : bool :=
  match v with
  | VUndefined | VNull => false
  | VBool b => b
  | VNumber n => negb (n =? 0)
  | VString s => negb (String.eqb s "")
  | VBuffer _ | VUint8Array _ | VFunction _ | VObject _ => true
  end.

Definition is_null (v : value) : bool :=
  match v with VNull => true | _ => false end.
Definition is_string (v : value) : bool :=
  match v with VString _ => true | _ => false end.
Definition is_function (v : value) : bool :=
  match v with VFunction _ => true | _ => false end.
Definition isUint8Array (v : value) : bool :=
  match v with VBuffer _ | VUint8Array _ => true | _ => false end.
Definition isBuffer (v : value) : bool :=
  match v with VBuffer _ => true | _ => false end.

(** A chunk the transport accepts: a string or a Uint8Array. *)
Definition valid_chunk (v : value) : bool := is_string v || isUint8Array v.

(** Header values: a string or a number.  Header names are the field names
    under the spelling src/ uses; array values are left out. *)
Inductive hval :=
| HStr (s : string)
| HNum (n : Z).

Definition hval_truthy (v : hval) : bool :=
  match v with
  | HStr s => negb (String.eqb s "")
  | HNum n => negb (n =? 0)
  end.

(** [v === name] for a string [name]. *)
Definition hval_is (v : hval) (name : string) : bool :=
  match v with
  | HStr s => String.eqb s name
  | HNum _ => false
  end.

(** [String(v)] on a header value. *)
Definition hval_String (v : hval) : string :=
  match v with
  | HStr s => s
  | HNum n => pretty n
  end.

(** ** The request *)

(** The request as the middleware reads it: its method, and its
    Accept-Encoding header as the list of (coding, qvalue in thousandths) it
    lists, [None] when the header is absent. *)
Record request := {
  method : string;
  accept_encoding : option (list (string * Z))
}.

(** ** The response object and the compression stream *)

Record response := {
  headers : gmap string hval;
  _header : bool;                    (* truthy once the header has been sent *)
  finished : bool;
  destroyed : bool;
  events : list (string * fn);       (* listeners registered by the native on *)
  output : list (value * value)      (* (chunk, encoding) handed to the transport *)
}.

Definition getHeader (name : string) (r : response) : option hval :=
  headers r !! name.

Definition setHeader (name : string) (v : hval) (r : response) : response :=
  {| headers := <[name := v]> (headers r); _header := _header r;
     finished := finished r; destroyed := destroyed r;
     events := events r; output := output r |}.

Definition removeHeader (name : string) (r : response) : response :=
  {| headers := delete name (headers r); _header := _header r;
     finished := finished r; destroyed := destroyed r;
     events := events r; output := output r |}.

Definition set__header (b : bool) (r : response) : response :=
  {| headers := headers r; _header := b;
     finished := finished r; destroyed := destroyed r;
     events := events r; output := output r |}.

Definition set_finished (b : bool) (r : response) : response :=
  {| headers := headers r; _header := _header r;
     finished := b; destroyed := destroyed r;
     events := events r; output := output r |}.

Definition set_destroyed (b : bool) (r : response) : response :=
  {| headers := headers r; _header := _header r;
     finished := finished r; destroyed := b;
     events := events r; output := output r |}.

Definition add_event (type : string) (listener : fn) (r : response) : response :=
  {| headers := headers r; _header := _header r;
     finished := finished r; destroyed := destroyed r;
     events := events r ++ [(type, listener)]; output := output r |}.

Definition send (chunk encoding : value) (r : response) : response :=
  {| headers := headers r; _header := _header r;
     finished := finished r; destroyed := destroyed r;
     events := events r; output := output r ++ [(chunk, encoding)] |}.

(** The options object given to [compression]; the whole object is what the
    gzip and deflate constructors receive. *)
Record options := {
  opt_filter : option (request -> response -> bool);
  opt_threshold : value;
  opt_zlib : gmap string Z           (* level, memLevel, strategy, ... *)
}.

Definition no_options : options :=
  {| opt_filter := None; opt_threshold := VUndefined; opt_zlib := ∅ |}.

Inductive codec := Brotli | Gzip | Deflate.

(** Modelled from the spec: the CompressionStream, a zlib transform, as
    what it was created with and what has been done to it since.  What it
    emits is not part of the model. *)
Record zstream := {
  z_codec : codec;
  z_options : option options;           (* the constructor's argument, if any *)
  z_events : list (string * fn);
  z_input : list (list Byte.byte * value);  (* (buffer, encoding) written *)
  z_flushes : nat;
  z_ended : bool
}.

Definition zlib_create (c : codec) (o : option options) : zstream :=
  {| z_codec := c; z_options := o; z_events := []; z_input := [];
     z_flushes := 0; z_ended := false |}.

Definition createBrotliCompress : zstream := zlib_create Brotli None.
Definition createGzip (o : options) : zstream := zlib_create Gzip (Some o).
Definition createDeflate (o : options) : zstream := zlib_create Deflate (Some o).

Definition stream_on (z : zstream) (type : string) (listener : fn) : zstream :=
  {| z_codec := z_codec z; z_options := z_options z;
     z_events := z_events z ++ [(type, listener)]; z_input := z_input z;
     z_flushes := z_flushes z; z_ended := z_ended z |}.

Definition stream_flush (z : zstream) : zstream :=
  {| z_codec := z_codec z; z_options := z_options z;
     z_events := z_events z; z_input := z_input z;
     z_flushes := S (z_flushes z); z_ended := z_ended z |}.

Definition stream_write (z : zstream) (buf : list Byte.byte) (encoding : value)
  : zstream :=
  {| z_codec := z_codec z; z_options := z_options z;
     z_events := z_events z; z_input := z_input z ++ [(buf, encoding)];
     z_flushes := z_flushes z; z_ended := z_ended z |}.

Definition stream_end (z : zstream) (last : option (list Byte.byte * value))
  : zstream :=
  {| z_codec := z_codec z; z_options := z_options z;
     z_events := z_events z;
     z_input := z_input z ++ match last with Some c => [c] | None => [] end;
     z_flushes := z_flushes z; z_ended := true |}.

(** ** Errors

    The errors a call can surface, under Node's names.  The first five come
    from the transport, [ERR_HTTP_HEADERS_SENT] from [writeHead], and
    [ERR_INVALID_ARG_TYPE] and [ERR_UNKNOWN_ENCODING] are also what
    [Buffer.byteLength] and [Buffer.from] throw. *)
Inductive error :=
| ERR_STREAM_NULL_VALUES
| ERR_INVALID_ARG_TYPE
| ERR_STREAM_DESTROYED
| ERR_STREAM_WRITE_AFTER_END
| ERR_STREAM_ALREADY_FINISHED
| ERR_HTTP_HEADERS_SENT
| ERR_UNKNOWN_ENCODING.

(** What a function that can throw gives: its value, or the error thrown. *)
Inductive result (A : Type) :=
| Ok (a : A)
| Throw (e : error).

Arguments Ok {A} a.
Arguments Throw {A} e.

(** ** Collaborators

    The modules [src/index.js] requires and only calls.  The middleware is
    defined, and its properties proved, for any implementation of them. *)
Class Collaborators := {
  (** [compressible(type)], the content-type table *)
  compressible : hval -> bool;
  (** [accepts(req).encoding(list)]: the preferred coding of [list], or
      [None] where the call returns [false] *)
  accepts_encoding : request -> list string -> option string;
  (** [append(header, field)] of the [vary] module: the new Vary value *)
  vary_append : string -> string -> string;
  (** [Number(s)] on a string; [None] is NaN *)
  string_Number : string -> option Z;
  (** [bytes.parse(val)]; [None] is null *)
  bytes_parse : value -> option Z;
  (** [Buffer.byteLength(chunk, encoding)], which throws on a chunk that is
      neither a string nor binary *)
  byteLength : value -> value -> result Z;
  (** [Buffer.from(chunk, encoding)], which throws on a chunk it cannot
      convert and on an encoding it does not know *)
  Buffer_from : value -> value -> result (list Byte.byte)
}.

(** ** Module variables *)

(** [\s] of the regular expression.  A string is the sequence of its code
    units, each below 256, which is all Node lets into a header value.  On
    that range the class is the tab, the line feed, the vertical tab, the
    form feed, the carriage return, the space and the no-break space
    U+00A0; its other members (U+1680, U+2000 to U+200A, U+2028, U+2029,
    U+202F, U+205F, U+3000, U+FEFF) lie above it. *)
Definition is_space (c : ascii) : bool :=
  let n := nat_of_ascii c in
  ((9 <=? n)%nat && (n <=? 13)%nat) || (n =? 32)%nat || (n =? 160)%nat.

Fixpoint skip_spaces (l : list ascii) : list ascii :=
  match l with
  | c :: l' => if is_space c then skip_spaces l' else l
  | [] => []
  end.

Fixpoint strip_prefix (p l : list ascii) : option (list ascii) :=
  match p, l with
  | [], _ => Some l
  | a :: p', b :: l' => if Ascii.eqb a b then strip_prefix p' l' else None
  | _ :: _, [] => None
  end.

(** [\s*?no-transform\s*?(?:,|$)] matched from the head of [l]. *)
Definition no_transform_here (l : list ascii) : bool :=
  match strip_prefix (list_ascii_of_string "no-transform") (skip_spaces l) with
  | Some rest =>
      match skip_spaces rest with
      | [] => true
      | c :: _ => Ascii.eqb c ","
      end
  | None => false
  end.

(** The alternation [(?:^|,)]: [anchor] tells whether the head of [l] is the
    start of the input or follows a comma. *)
Fixpoint no_transform_scan (anchor : bool) (l : list ascii) : bool :=
  (anchor && no_transform_here l) ||
  match l with
  | c :: l' => no_transform_scan (Ascii.eqb c ",") l'
  | [] => false
  end.

(** [cacheControlNoTransformRegExp.test(s)] for
    [/(?:^|,)\s*?no-transform\s*?(?:,|$)/]. *)
Definition cacheControlNoTransformRegExp (s : string) : bool :=
  no_transform_scan true (list_ascii_of_string s).

(** ** The session of one response *)

(** The variables the middleware closes over for one response, with the
    response object itself.  [length_] is the source's [length] ([None] while
    undefined); [listeners] is [None] once it has been set to null. *)
Record session := {
  res : response;
  ended : bool;
  length_ : option Z;
  listeners : option (list (string * fn));
  stream : option zstream
}.

Definition set_res (r : response) (s : session) : session :=
  {| res := r; ended := ended s; length_ := length_ s;
     listeners := listeners s; stream := stream s |}.

Definition set_ended (b : bool) (s : session) : session :=
  {| res := res s; ended := b; length_ := length_ s;
     listeners := listeners s; stream := stream s |}.

Definition set_length (n : option Z) (s : session) : session :=
  {| res := res s; ended := ended s; length_ := n;
     listeners := listeners s; stream := stream s |}.

Definition set_listeners (l : option (list (string * fn))) (s : session) : session :=
  {| res := res s; ended := ended s; length_ := length_ s;
     listeners := l; stream := stream s |}.

Definition set_stream (z : option zstream) (s : session) : session :=
  {| res := res s; ended := ended s; length_ := length_ s;
     listeners := listeners s; stream := z |}.

(** What a call returns, or the error it surfaces. *)
Inductive outcome :=
| Return (v : value)
| Raise (e : error).

(** The response object and the compression stream as returned values. *)
Definition this_res : value := VObject 0.
Definition this_stream : value := VObject 1.

(** [new ServerResponse({})]. *)
Definition ServerResponse : response :=
  {| headers := ∅; _header := false; finished := false; destroyed := false;
     events := []; output := [] |}.

(** The middleware's configuration, resolved once by [compression]. *)
Record middleware := {
  opts : options;
  filter : request -> response -> bool;
  threshold : Z
}.

Section Middleware.
Context `{Collaborators}.

(** [Number(v)] on what [getHeader] returns; [None] is NaN. *)
Definition Number (v : option hval) : option Z :=
  match v with
  | None => None
  | Some (HNum n) => Some n
  | Some (HStr s) => string_Number s
  end.

(** [x < t] on numbers, false when [x] is NaN or undefined. *)
Definition js_lt (x : option Z) (t : Z) : bool :=
  match x with
  | Some n => n <? t
  | None => false
  end.

(** Add bufferred listeners to stream. *)
Definition addListeners {T : Type} (stream : T) (on : T -> string -> fn -> T)
    (listeners : list (string * fn)) : T :=
  fold_left (fun t l => on t (fst l) (snd l)) listeners stream.

(** Get the length of a given chunk. *)
Definition chunkLength (chunk encoding : value) : result Z :=
  if negb (truthy chunk) then Ok 0
  else match chunk with
       | VBuffer b => Ok (Z.of_nat (List.length b))
       | _ => byteLength chunk encoding
       end.

(** Default filter function. *)
Definition shouldCompress (req : request) (res : response) : bool :=
  match getHeader "Content-Type" res with
  | None => false
  | Some type => compressible type
  end.

(** Determine if the entity should be transformed. *)
Definition shouldTransform (req : request) (res : response) : bool :=
  match getHeader "Cache-Control" res with
  | None => true
  | Some cacheControl =>
      negb (hval_truthy cacheControl) ||
      negb (cacheControlNoTransformRegExp (hval_String cacheControl))
  end.

(** Coerce arguments to Buffer. *)
Definition toBuffer (chunk encoding : value) : result (list Byte.byte) :=
  match chunk with
  | VBuffer b => Ok b
  | _ => Buffer_from chunk encoding
  end.

(** Modelled from the spec: [vary(res, field)], the Vary header mutation
    helper.  It reads the current Vary value, [vary_value], and sets the
    header to what its [append] returns for the field, unless that is
    empty. *)
Definition vary_value (res : response) : string :=
  match getHeader "Vary" res with
  | Some v => if hval_truthy v then hval_String v else ""
  | None => ""
  end.

Definition vary (res : response) (field : string) : response :=
  let val := vary_value res in
  let val := vary_append val field in
  if String.eqb val "" then res else setHeader "Vary" (HStr val) res.

(** [compression(options)]: the options resolved once per middleware. *)
Definition compression (options_ : option options) : middleware :=
  let opts := default no_options options_ in
  {| opts := opts;
     filter := default shouldCompress (opt_filter opts);
     threshold := default 1024 (bytes_parse (opt_threshold opts)) |}.

(** The session [compression(req, res, next)] starts on response [r]. *)
Definition attach (r : response) : session :=
  {| res := r; ended := false; length_ := None; listeners := Some [];
     stream := None |}.

Variable mw : middleware.
Variable req : request.

(** Modelled from the spec: [_on.call(res, type, listener)], the original
    event registration, which registers the listener on the raw transport. *)
Definition _on (r : response) (type : string) (listener : fn) : response :=
  add_event type listener r.

(** [nocompress(msg)].  Whenever the header listener runs, [listeners] is
    still an array ([run_buffering] below).  The null case, in which the
    loop of [addListeners] would fail on [listeners.length], is outside the
    model and leaves the session as it is. *)
Definition nocompress (s : session) : session :=
  match listeners s with
  | Some ls => set_listeners None (set_res (addListeners (res s) _on ls) s)
  | None => s
  end.

(** [method === name] and the truthiness of what [accept.encoding] returns. *)
Definition method_is (method : option string) (name : string) : bool :=
  match method with
  | Some m => String.eqb m name
  | None => false
  end.

Definition method_truthy (method : option string) : bool :=
  match method with
  | Some m => negb (String.eqb m "")
  | None => false
  end.

(** The compression method: the negotiation over the four codings, and the
    second one that replaces deflate when gzip is acceptable. *)
Definition negotiate : option string :=
  let accept := accepts_encoding req in
  let method := accept ["br"; "gzip"; "deflate"; "identity"] in
  (* we really don't prefer deflate *)
  if method_is method "deflate" && method_truthy (accept ["gzip"])
  then accept ["gzip"; "identity"]
  else method.

(** The listener given to [onHeaders]. *)
Definition onResponseHeaders (s : session) : session :=
  (* determine if request is filtered *)
  if negb (filter mw req (res s)) then nocompress s
  (* determine if the entity should be transformed *)
  else if negb (shouldTransform req (res s)) then nocompress s
  else
    (* vary *)
    let s := set_res (vary (res s) "Accept-Encoding") s in
    (* content-length below threshold *)
    if js_lt (Number (getHeader "Content-Length" (res s))) (threshold mw)
       || js_lt (length_ s) (threshold mw)
    then nocompress s
    else
      let encoding := match getHeader "Content-Encoding" (res s) with
                      | Some v => if hval_truthy v then v else HStr "identity"
                      | None => HStr "identity"
                      end in
      (* already encoded *)
      if negb (hval_is encoding "identity") then nocompress s
      (* head *)
      else if String.eqb (method req) "HEAD" then nocompress s
      else
        (* compression method *)
        let method := negotiate in
        (* negotiation failed *)
        if negb (method_truthy method) || method_is method "identity"
        then nocompress s
        else
          let method := default "" method in
          (* compression stream *)
          let z := if String.eqb method "br" then createBrotliCompress
                   else if String.eqb method "gzip" then createGzip (opts mw)
                   else createDeflate (opts mw) in
          (* add buffered listeners to stream *)
          let z := addListeners z stream_on (default [] (listeners s)) in
          (* header fields *)
          let r := setHeader "Content-Encoding" (HStr method) (res s) in
          let r := removeHeader "Content-Length" r in
          (* compression *)
          let z := stream_on z "data" onStreamData in
          let z := stream_on z "end" onStreamEnd in
          let r := _on r "drain" onResponseDrain in
          set_stream (Some z) (set_res r s).

(** Modelled from the spec: [this._implicitHeader()].  The header is
    written through [writeHead], which [onHeaders] has wrapped to run the
    listener first, once. *)
Definition _implicitHeader (s : session) : session :=
  let s := onResponseHeaders s in
  set_res (set__header true (res s)) s.

(** *** The raw transport *)

(** Modelled from the spec: the original [write] and [end] of the response
    (Node's [http.ServerResponse], which src/ only calls).  They surface the
    transport's native errors: a null-value or type error on an invalid
    chunk, and on use after end the error of the state the response is in,
    already finished or destroyed, under the names the comments of src/ give
    them.  Otherwise the header is sent if it has not been, and the chunk is
    handed to the transport as it is.  Flow control is left out: a
    successful write returns true.  [write_error] and [end_error] are the
    checks the two calls start with. *)
Definition write_error (r : response) (chunk : value) : option error :=
  if is_null chunk then Some ERR_STREAM_NULL_VALUES
  else if negb (valid_chunk chunk) then Some ERR_INVALID_ARG_TYPE
  else if finished r then Some ERR_STREAM_WRITE_AFTER_END
  else if destroyed r then Some ERR_STREAM_DESTROYED
  else None.

Definition end_error (r : response) (chunk : value) : option error :=
  if finished r then
    Some (if truthy chunk then ERR_STREAM_WRITE_AFTER_END
          else ERR_STREAM_ALREADY_FINISHED)
  else if destroyed r then Some ERR_STREAM_DESTROYED
  else if truthy chunk && negb (valid_chunk chunk) then Some ERR_INVALID_ARG_TYPE
  else None.

(** Modelled from the spec: the native write and end on a response object
    of their own, such as the throwaway [fakeRes], which has no header
    listener. *)
Definition native_write (r : response) (chunk encoding callback : value)
  : response * outcome :=
  match write_error r chunk with
  | Some e => (r, Raise e)
  | None => (send chunk encoding (set__header true r), Return (VBool true))
  end.

Definition native_end (r : response) (chunk encoding callback : value)
  : response * outcome :=
  match end_error r chunk with
  | Some e => (r, Raise e)
  | None =>
      let r := set__header true r in
      let r := if truthy chunk then send chunk encoding r else r in
      (set_finished true r, Return this_res)
  end.

(** Modelled from the spec: [_write.call(res, chunk, encoding, callback)]
    and [_end.call(res, chunk, encoding, callback)], the native calls on the
    response of the session.  When they send the header, the header
    listener runs. *)
Definition _write (s : session) (chunk encoding callback : value)
  : session * outcome :=
  let s := match write_error (res s) chunk with
           | None => if _header (res s) then s else _implicitHeader s
           | Some _ => s
           end in
  let (r, o) := native_write (res s) chunk encoding callback in
  (set_res r s, o).

Definition _end (s : session) (chunk encoding callback : value)
  : session * outcome :=
  let s := match end_error (res s) chunk with
           | None => if _header (res s) then s else _implicitHeader s
           | Some _ => s
           end in
  let (r, o) := native_end (res s) chunk encoding callback in
  (set_res r s, o).

(** *** The proxy *)

(** The optional arguments of [write] put in place: a function given as the
    encoding is the callback, and a callback that is no function is [noop]. *)
Definition write_args (encoding callback : value) : value * value :=
  let '(encoding, callback) :=
    if negb (truthy callback) && is_function encoding
    then (VUndefined, encoding) else (encoding, callback) in
  let callback :=
    if is_function callback then callback else VFunction noop in
  (encoding, callback).

(** The same for [end], whose chunk is optional as well. *)
Definition end_args (chunk encoding callback : value) : value * value * value :=
  let '(chunk, encoding, callback) :=
    if negb (truthy callback) then
      if is_function chunk then (VUndefined, VUndefined, chunk)
      else if is_function encoding then (chunk, VUndefined, encoding)
      else (chunk, encoding, callback)
    else (chunk, encoding, callback) in
  let callback :=
    if is_function callback then callback else VFunction noop in
  (chunk, encoding, callback).

(** [end] estimating the length, when no Content-Length is set.  The
    length is assigned only if [chunkLength] returns. *)
Definition estimate (s : session) (chunk encoding : value) : result session :=
  let no_length :=
    match getHeader "Content-Length" (res s) with
    | Some v => negb (hval_truthy v)
    | None => true
    end in
  if no_length then
    match chunkLength chunk encoding with
    | Ok n => Ok (set_length (Some n) s)
    | Throw e => Throw e
    end
  else Ok s.

(** [res.flush] *)
Definition flush (s : session) : session * outcome :=
  match stream s with
  | Some z => (set_stream (Some (stream_flush z)) s, Return VUndefined)
  | None => (s, Return VUndefined)
  end.

(** [res.write] *)
Definition write (s : session) (chunk encoding callback : value)
  : session * outcome :=
  if is_null chunk then
    (* throw ERR_STREAM_NULL_VALUES *)
    _write s chunk encoding callback
  else if is_string chunk || isUint8Array chunk then
    let '(encoding, callback) := write_args encoding callback in
    if destroyed (res s) || finished (res s) || ended s then
      (* HACK: node doesn't expose internal errors,
         we need to fake response to throw underlying errors type *)
      let fakeRes := ServerResponse in
      let fakeRes :=
        if negb (destroyed (res s))
        then set_destroyed true (set_finished true fakeRes)
        else set_destroyed true fakeRes in
      (* throw ERR_STREAM_DESTROYED or ERR_STREAM_WRITE_AFTER_END *)
      (s, snd (native_write fakeRes chunk encoding callback))
    else
      let s := if _header (res s) then s else _implicitHeader s in
      match stream s with
      | Some z =>
          (* the arguments are evaluated first: when toBuffer throws, the
             stream is not called *)
          match toBuffer chunk encoding with
          | Ok buf =>
              (set_stream (Some (stream_write z buf encoding)) s,
               Return (VBool true))
          | Throw e => (s, Raise e)
          end
      | None => _write s chunk encoding callback
      end
  else
    (* throw ERR_INVALID_ARG_TYPE *)
    _write s chunk encoding callback.

(** [res.end] *)
Definition end_ (s : session) (chunk encoding callback : value)
  : session * outcome :=
  let '(chunk, encoding, callback) := end_args chunk encoding callback in
  if destroyed (res s) || finished (res s) || ended s then
    let s := set_res (set_finished (ended s) (res s)) s in
    (* throw ERR_STREAM_WRITE_AFTER_END or ERR_STREAM_ALREADY_FINISHED *)
    _end s chunk encoding callback
  else
    let headed :=
      if _header (res s) then Ok s
      else
        (* estimate the length *)
        match estimate s chunk encoding with
        | Ok s => Ok (_implicitHeader s)
        | Throw e => Throw e
        end in
    match headed with
    | Throw e =>
        (* chunkLength threw: nothing has been assigned or sent *)
        (s, Raise e)
    | Ok s =>
        match stream s with
        | None => _end s chunk encoding callback
        | Some z =>
            (* mark ended *)
            let s := set_ended true s in
            (* write Buffer for Node.js 0.8 *)
            if truthy chunk then
              match toBuffer chunk encoding with
              | Ok buf =>
                  (set_stream (Some (stream_end z (Some (buf, encoding)))) s,
                   Return this_stream)
              | Throw e =>
                  (* toBuffer threw after ended was set: the stream is not
                     ended *)
                  (s, Raise e)
              end
            else (set_stream (Some (stream_end z None)) s, Return this_stream)
        end
    end.

(** [res.on] *)
Definition on (s : session) (type : string) (listener : fn)
  : session * outcome :=
  match listeners s with
  | None => (set_res (_on (res s) type listener) s, Return this_res)
  | Some ls =>
      if negb (String.eqb type "drain")
      then (set_res (_on (res s) type listener) s, Return this_res)
      else
        match stream s with
        | Some z => (set_stream (Some (stream_on z type listener)) s,
                     Return this_stream)
        | None =>
            (* buffer listeners for future stream *)
            (set_listeners (Some (ls ++ [(type, listener)])%list) s, Return this_res)
        end
  end.

(** *** Calls on the patched response

    The three patched methods and [flush], and [writeHead], by which the
    application can send the header itself. *)

Inductive call :=
| Write (chunk encoding callback : value)
| End (chunk encoding callback : value)
| On (type : string) (listener : fn)
| Flush
| WriteHead.

Definition step (s : session) (c : call) : session * outcome :=
  match c with
  | Write chunk encoding callback => write s chunk encoding callback
  | End chunk encoding callback => end_ s chunk encoding callback
  | On type listener => on s type listener
  | Flush => flush s
  | WriteHead =>
      if _header (res s) then (s, Raise ERR_HTTP_HEADERS_SENT)
      else (_implicitHeader s, Return this_res)
  end.

(** The session after a sequence of calls, whatever each returned. *)
Definition run (s : session) (cs : list call) : session :=
  fold_left (fun s c => fst (step s c)) cs s.

End Middleware.

Arguments vary : simpl never.
Arguments nocompress : simpl never.
Arguments negotiate : simpl never.
Arguments onResponseHeaders : simpl never.
Arguments _implicitHeader : simpl never.
Arguments _write : simpl never.
Arguments _end : simpl never.

(** ** A reference implementation of the collaborators *)

(** Modelled from the spec: the collaborators the middleware requires (the
    npm modules [compressible], [accepts] with its negotiator, [vary],
    [bytes] and [safe-buffer], none of them under src/), in the small form
    the examples need.  The negotiator ranks the offered codings by quality,
    then by how specifically the header names them, then by their position
    in the header and in the offer; a header that does not mention identity
    accepts it at its lowest quality. *)
Module Node.

Definition compressible (type : hval) : bool :=
  match type with
  | HStr s => String.prefix "text/" s || String.eqb s "application/json"
  | HNum _ => false
  end.

(** One accepted coding matched against an offered one: [sp_i] is the index
    in the offer, [sp_o] the position in the header, [sp_q] the quality and
    [sp_s] is 1 for a match by name, 0 for a match by the wildcard. *)
Record spec := { sp_i : Z; sp_o : Z; sp_q : Z; sp_s : Z }.

Fixpoint first_nonzero (l : list Z) : Z :=
  match l with
  | [] => 0
  | x :: l' => if x =? 0 then first_nonzero l' else x
  end.

Fixpoint index_from {A : Type} (i : Z) (l : list A) : list (A * Z) :=
  match l with
  | [] => []
  | x :: l' => (x, i) :: index_from (i + 1) l'
  end.

Definition parseAcceptEncoding (req : request) : list (string * Z * Z) :=
  let l := default [] (accept_encoding req) in
  let hasIdentity :=
    existsb (fun e => String.eqb (fst e) "identity" || String.eqb (fst e) "*") l in
  let minQuality :=
    fold_right Z.min 1000 (map (fun e => if snd e =? 0 then 1000 else snd e) l) in
  let accepts := index_from 0 l in
  if hasIdentity then accepts
  else (accepts ++ [("identity", minQuality, Z.of_nat (List.length l))])%list.

Definition specify (encoding : string) (a : string * Z * Z) (index : Z)
  : option spec :=
  let '(name, q, i) := a in
  if String.eqb name encoding
  then Some {| sp_i := index; sp_o := i; sp_q := q; sp_s := 1 |}
  else if String.eqb name "*"
  then Some {| sp_i := index; sp_o := i; sp_q := q; sp_s := 0 |}
  else None.

Definition getEncodingPriority (accepted : list (string * Z * Z))
    (e : string * Z) : spec :=
  fold_left
    (fun priority a =>
       match specify (fst e) a (snd e) with
       | Some sp =>
           if first_nonzero [sp_s priority - sp_s sp; sp_q priority - sp_q sp;
                             sp_o priority - sp_o sp] <? 0
           then sp else priority
       | None => priority
       end)
    accepted {| sp_i := snd e; sp_o := -1; sp_q := 0; sp_s := 0 |}.

Definition compareSpecs (a b : spec) : Z :=
  first_nonzero [sp_q b - sp_q a; sp_s b - sp_s a; sp_o a - sp_o b;
                 sp_i a - sp_i b].

Definition accepts_encoding (req : request) (provided : list string)
  : option string :=
  let accepted := parseAcceptEncoding req in
  let priorities := map (getEncodingPriority accepted) (index_from 0 provided) in
  let best :=
    fold_left
      (fun acc p =>
         if sp_q p <=? 0 then acc
         else match acc with
              | Some b => if compareSpecs p b <? 0 then Some p else acc
              | None => Some p
              end)
      priorities None in
  match best with
  | Some p => provided !! Z.to_nat (sp_i p)
  | None => None
  end.

(** [append] of [vary] for a single field: nothing to add to a wildcard or to
    a header that lists the field already. *)
Fixpoint split_commas (cur : list ascii) (l : list ascii) : list (list ascii) :=
  match l with
  | [] => [rev cur]
  | c :: l' =>
      if Ascii.eqb c "," then rev cur :: split_commas [] l'
      else split_commas (if is_space c then cur else c :: cur) l'
  end.

Definition vary_append (header field : string) : string :=
  if String.eqb header "" then field
  else if String.eqb header "*" then "*"
  else if existsb (fun f => String.eqb (string_of_list_ascii f) field)
            (split_commas [] (list_ascii_of_string header))
  then header
  else header +:+ ", " +:+ field.

Definition is_digit (c : ascii) : bool :=
  let n := nat_of_ascii c in ((48 <=? n)%nat && (n <=? 57)%nat).

Fixpoint digits (acc : Z) (l : list ascii) : option Z :=
  match l with
  | [] => Some acc
  | c :: l' =>
      if is_digit c
      then digits (10 * acc + Z.of_nat (nat_of_ascii c) - 48) l'
      else None
  end.

(** [Number] on the decimal strings a Content-Length carries; the empty
    string is 0 and anything else is NaN. *)
Definition string_Number (s : string) : option Z :=
  digits 0 (list_ascii_of_string s).

(** [bytes.parse] on a number, or on a string of digits. *)
Definition bytes_parse (val : value) : option Z :=
  match val with
  | VNumber n => Some n
  | VString s => if String.eqb s "" then None else string_Number s
  | _ => None
  end.

(** [Buffer.byteLength] and [Buffer.from] on strings of one-byte
    characters and on binary chunks; both throw on any other chunk.  An
    encoding that is no string, or the empty one, stands for utf8.  Of the
    encodings Node knows, the reference has those that keep such a string
    byte for byte; the others (hex, base64, utf16le) are left out, and any
    other name is unknown, on which [Buffer.from] throws. *)
Definition byteLength (chunk encoding : value) : result Z :=
  match chunk with
  | VString s => Ok (Z.of_nat (String.length s))
  | VBuffer b | VUint8Array b => Ok (Z.of_nat (List.length b))
  | _ => Throw ERR_INVALID_ARG_TYPE
  end.

Definition known_encoding (encoding : value) : bool :=
  match encoding with
  | VString e =>
      existsb (String.eqb e) [""; "utf8"; "utf-8"; "latin1"; "binary"; "ascii"]
  | _ => true
  end.

Definition Buffer_from (chunk encoding : value) : result (list Byte.byte) :=
  match chunk with
  | VString s =>
      if known_encoding encoding then Ok (list_byte_of_string s)
      else Throw ERR_UNKNOWN_ENCODING
  | VBuffer b | VUint8Array b => Ok b
  | _ => Throw ERR_INVALID_ARG_TYPE
  end.

Definition collaborators : Collaborators :=
  Build_Collaborators compressible accepts_encoding vary_append string_Number
    bytes_parse byteLength Buffer_from.

End Node.

(** ** Small requests and responses, for the examples

    A default middleware and one with options, over the reference
    collaborators. *)

Definition default_mw : middleware := @compression Node.collaborators None.

Definition tuned_mw : middleware :=
  @compression Node.collaborators
    (Some {| opt_filter := None; opt_threshold := VNumber 0;
             opt_zlib := {["level" := 9]} |}).

Definition GET (coding : list (string * Z)) : request :=
  {| method := "GET"; accept_encoding := Some coding |}.

Definition HEAD (coding : list (string * Z)) : request :=
  {| method := "HEAD"; accept_encoding := Some coding |}.

Definition html : response :=
  setHeader "Content-Type" (HStr "text/html") ServerResponse.

Definition png : response :=
  setHeader "Content-Type" (HStr "image/png") ServerResponse.

Definition sized (n : Z) (r : response) : response :=
  setHeader "Content-Length" (HNum n) r.

(** ** Session states named by the properties *)

(** A session on which no body call has been made yet: the header is unsent,
    nothing is ended, and listeners are still buffered. *)
Definition pristine (s : session) : Prop :=
  _header (res s) = false /\ finished (res s) = false /\
  destroyed (res s) = false /\ ended s = false /\ stream s = None /\
  length_ s = None /\ exists ls, listeners s = Some ls.

(** Pass-through mode: the decision has been taken, no stream was installed
    and the response is still open. *)
Definition pass_through (s : session) : Prop :=
  _header (res s) = true /\ stream s = None /\ finished (res s) = false /\
  destroyed (res s) = false /\ ended s = false.

(** The size the threshold step finds on a session: the explicit length
    header first, otherwise the length the session has estimated. *)
Definition spec_resolved_size `{Collaborators} (s : session) : option Z :=
  match getHeader "Content-Length" (res s) with
  | Some v => Number (Some v)
  | None => length_ s
  end.

(** The body calls of a response: the writes in order, then the end. *)
Definition writes_of (writes : list (value * value * value)) : list call :=
  map (fun w => Write (fst (fst w)) (snd (fst w)) (snd w)) writes.

Definition body (writes : list (value * value * value))
    (last : value * value * value) : list call :=
  (writes_of writes ++ [End (fst (fst last)) (snd (fst last)) (snd last)])%list.

(** Following the spec's words: the encoding a write or an end is given,
    which is its second argument unless that is a function, standing for the
    callback of a call that gives no encoding. *)
Definition encoding_given (encoding callback : value) : value :=
  if is_function encoding && negb (truthy callback) then VUndefined
  else encoding.

(** Following the spec's words: the input of a body, which the transport
    receives unmodified in pass-through mode: every written chunk with the
    encoding it was given, in order, and the chunk of the end when there is
    one. *)
Definition body_sent (writes : list (value * value * value))
    (last : value * value * value) : list (value * value) :=
  (map (fun w => (fst (fst w), encoding_given (snd (fst w)) (snd w))) writes
   ++ (if truthy (fst (fst last))
       then [(fst (fst last), encoding_given (snd (fst last)) (snd last))]
       else []))%list.

(** Following the spec's words: the byte length of the payload of a terminal
    write, zero if it has no chunk.  A Buffer has its own length; the length
    of a string or of another binary chunk is what [Buffer.byteLength]
    returns. *)
Definition spec_payload_length `{Collaborators} (chunk encoding : value)
  : option Z :=
  match chunk with
  | VUndefined => Some 0
  | VBuffer b => Some (Z.of_nat (List.length b))
  | VString _ | VUint8Array _ =>
      if truthy chunk
      then match byteLength chunk encoding with
           | Ok n => Some n
           | Throw _ => None
           end
      else Some 0
  | _ => None
  end.

(** Following the spec's words: the resolved size of a body sent on session
    [s], an explicit length header first; otherwise, for a body that is a
    single terminal write, the length of its payload.  A body written in
    several calls and without a length header has no resolved size. *)
Definition spec_body_size `{Collaborators} (s : session)
    (writes : list (value * value * value)) (last : value * value * value)
  : option Z :=
  match getHeader "Content-Length" (res s) with
  | Some v => Number (Some v)
  | None =>
      match writes with
      | [] => spec_payload_length (fst (fst last))
                (encoding_given (snd (fst last)) (snd last))
      | _ :: _ => None
      end
  end.

(** The session on which the header listener runs when a pristine session
    receives this body: as it is for a first write, with the length
    estimated when the body is a single end. *)
Definition decision_state `{Collaborators} (s : session)
    (writes : list (value * value * value)) (last : value * value * value)
  : result session :=
  match writes with
  | [] =>
      let '(chunk, encoding, _) :=
        end_args (fst (fst last)) (snd (fst last)) (snd last) in
      estimate s chunk encoding
  | _ :: _ => Ok s
  end.

(** No coding has been applied yet: Content-Encoding is unset, empty or
    identity. *)
Definition identity_encoded (r : response) : bool :=
  match getHeader "Content-Encoding" r with
  | Some v => if hval_truthy v then hval_is v "identity" else true
  | None => true
  end.

(** The session the header listener leaves on its accept path, for the
    negotiated method and the listeners buffered so far. *)
Definition compressing `{Collaborators} (mw : middleware) (s : session)
    (method : string) (ls : list (string * fn)) : session :=
  {| res :=
       {| headers :=
            delete "Content-Length"
              (<["Content-Encoding" := HStr method]>
                 (headers (vary (res s) "Accept-Encoding")));
          _header := _header (res s);
          finished := finished (res s);
          destroyed := destroyed (res s);
          events := (events (res s) ++ [("drain", onResponseDrain)])%list;
          output := output (res s) |};
     ended := ended s;
     length_ := length_ s;
     listeners := Some ls;
     stream :=
       Some {| z_codec := if String.eqb method "br" then Brotli
                          else if String.eqb method "gzip" then Gzip
                          else Deflate;
               z_options := if String.eqb method "br" then None
                            else Some (opts mw);
               z_events :=
                 (ls ++ [("data", onStreamData); ("end", onStreamEnd)])%list;
               z_input := [];
               z_flushes := 0;
               z_ended := false |} |}.

(** Following the spec's words: the steps of the eligibility chain other
    than the size step, up to the negotiation (filter, no-transform, not
    already encoded, not a HEAD request). *)
Definition eligible `{Collaborators} (mw : middleware) (req : request)
    (s : session) : bool :=
  filter mw req (res s) && shouldTransform req (res s) &&
  identity_encoded (res s) && negb (String.eqb (method req) "HEAD").

(** The size step of the chain lets the response through. *)
Definition above_threshold `{Collaborators} (mw : middleware) (s : session)
  : bool :=
  negb (js_lt (Number (getHeader "Content-Length" (res s))) (threshold mw)
        || js_lt (length_ s) (threshold mw)).

(** The negotiation succeeded: a method, and not identity. *)
Definition negotiated `{Collaborators} (req : request) : bool :=
  method_truthy (negotiate req) && negb (method_is (negotiate req) "identity").

(** While the header is unsent the session buffers: there is no stream and
    [listeners] is an array.  This is the state the header listener finds. *)
Definition buffering (s : session) : Prop :=
  _header (res s) = false ->
  stream s = None /\ exists ls, listeners s = Some ls.

(** Routing is decided: the header is sent, and either buffering is closed
    and there is no stream, or a stream is installed and the buffer is kept
    ([on] looks at the stream only while [listeners] is not null). *)
Definition decided (s : session) : Prop :=
  _header (res s) = true /\
  ((listeners s = None /\ stream s = None) \/
   exists z ls, stream s = Some z /\ listeners s = Some ls).

Arguments compressing : simpl never.

(** The chunk of an end: none, or one the transport accepts. *)
Definition valid_last (chunk : value) : Prop :=
  chunk = VUndefined \/ valid_chunk chunk = true.

(** ** The stream pipeline *)

(** Compressing mode: the decision has installed stream [z] and the
    response is still open. *)
Definition compressing_mode (s : session) (z : zstream) : Prop :=
  _header (res s) = true /\ stream s = Some z /\ finished (res s) = false /\
  destroyed (res s) = false /\ ended s = false.

(** What the stream is to be given for a chunk: a Buffer as it is, and for
    any other chunk the buffer [Buffer.from] makes of it with the encoding
    of the call. *)
Definition coerces `{Collaborators} (chunk encoding : value)
    (buf : list Byte.byte) : Prop :=
  match chunk with
  | VBuffer b => buf = b
  | _ => Buffer_from chunk encoding = Ok buf
  end.

(** The same for a call: [b] is the buffer of the call's chunk, paired with
    the encoding the call was given. *)
Definition call_coerces `{Collaborators} (w : value * value * value)
    (b : list Byte.byte * value) : Prop :=
  snd b = encoding_given (snd (fst w)) (snd w) /\
  coerces (fst (fst w)) (snd b) (fst b).

(** The body of [onStreamData]: the chunk the stream emits goes to the raw
    transport through the original write.  The boolean tells whether
    [stream.pause()] is called, which is when that write returned false. *)
Definition onStreamData_body `{Collaborators} (mw : middleware) (req : request)
    (s : session) (chunk : value) : session * outcome * bool :=
  let (s', o) := _write mw req s chunk VUndefined VUndefined in
  (s', o, match o with Return (VBool false) => true | _ => false end).

(** The body of [onStreamEnd]: the original end, without arguments. *)
Definition onStreamEnd_body `{Collaborators} (mw : middleware) (req : request)
    (s : session) : session * outcome :=
  _end mw req s VUndefined VUndefined VUndefined.

(** What the stream emits, and the session after the two listeners have
    handled a sequence of emissions. *)
Inductive emission :=
| StreamData (chunk : value)
| StreamEnd.

Definition deliver `{Collaborators} (mw : middleware) (req : request)
    (s : session) (e : emission) : session :=
  match e with
  | StreamData chunk => fst (fst (onStreamData_body mw req s chunk))
  | StreamEnd => fst (onStreamEnd_body mw req s)
  end.

(** A session with a stream installed, whose transport is open; it may be
    ended or not. *)
Definition piping (s : session) : Prop :=
  _header (res s) = true /\ finished (res s) = false /\
  destroyed (res s) = false /\ exists z, stream s = Some z.

(** A schedule: the calls of the application and the emissions of the
    stream, in the order they happen. *)
Inductive event :=
| Call (c : call)
| Emit (e : emission).

Definition occur `{Collaborators} (mw : middleware) (req : request)
    (s : session) (ev : event) : session :=
  match ev with
  | Call c => fst (step mw req s c)
  | Emit e => deliver mw req s e
  end.

Definition play `{Collaborators} (mw : middleware) (req : request)
    (s : session) (evs : list event) : session :=
  fold_left (occur mw req) evs s.

(** The chunks the stream emits in a schedule, in order. *)
Definition emitted (evs : list event) : list value :=
  flat_map (fun ev => match ev with
                      | Emit (StreamData chunk) => [chunk]
                      | _ => []
                      end) evs.

(** An event that ends nothing: any call but an end, and the emission of a
    chunk, which is binary. *)
Definition ends_nothing (ev : event) : Prop :=
  match ev with
  | Call (End _ _ _) => False
  | Call _ => True
  | Emit (StreamData chunk) => valid_chunk chunk = true
  | Emit StreamEnd => False
  end.

(** ** Event registrations *)

Definition registrations (regs : list (string * fn)) : list call :=
  map (fun r => On (fst r) (snd r)) regs.

Definition is_drain (r : string * fn) : bool := String.eqb (fst r) "drain".

(** ** The no-transform pattern, declaratively *)

(** The white space of a regular expression among the code units below 256,
    by its code points: U+0009 to U+000D, U+0020 and U+00A0. *)
Definition whitespace (c : ascii) : Prop :=
  In (nat_of_ascii c) [9; 10; 11; 12; 13; 32; 160]%nat.

(** Following the words of the pattern [(?:^|,)\s*?no-transform\s*?(?:,|$)]:
    somewhere in the input, at its start or right after a comma, stand
    whitespace, the literal, whitespace, and then a comma or the end. *)
Definition no_transform_listed (l : list ascii) : Prop :=
  exists pre a b post,
    l = (pre ++ a ++ list_ascii_of_string "no-transform" ++ b ++ post)%list /\
    (pre = [] \/ exists pre', pre = (pre' ++ [","%char])%list) /\
    Forall whitespace a /\
    Forall whitespace b /\
    (post = [] \/ exists post', post = ","%char :: post').

(** Every write and end on the session raises. *)
Definition closed `{Collaborators} (mw : middleware) (req : request)
    (s : session) : Prop :=
  forall chunk encoding callback,
    (exists e, snd (write mw req s chunk encoding callback) = Raise e) /\
    (exists e, snd (end_ mw req s chunk encoding callback) = Raise e).

(** The ended flag is only ever set on a session whose header is sent and
    which has a stream. *)
Definition ended_with_stream (s : session) : Prop :=
  ended s = true ->
  _header (res s) = true /\ exists z, stream s = Some z.

(** * Properties *)

Section Properties.
Context `{Collaborators}.
Variable mw : middleware.
Variable req : request.

Lemma addListeners_on (r : response) (ls : list (string * fn)) :
  addListeners r _on ls =
  {| headers := headers r; _header := _header r; finished := finished r;
     destroyed := destroyed r; events := (events r ++ ls)%list;
     output := output r |}.
Proof.
  revert r. induction ls as [|[ty l] ls IH]; intros r; unfold addListeners in *; simpl.
  - rewrite app_nil_r. destruct r; reflexivity.
  - rewrite IH. simpl. rewrite <- app_assoc. reflexivity.
Qed.

Lemma addListeners_stream_on (z : zstream) (ls : list (string * fn)) :
  addListeners z stream_on ls =
  {| z_codec := z_codec z; z_options := z_options z;
     z_events := (z_events z ++ ls)%list; z_input := z_input z;
     z_flushes := z_flushes z; z_ended := z_ended z |}.
Proof.
  revert z. induction ls as [|[ty l] ls IH]; intros z; unfold addListeners in *; simpl.
  - rewrite app_nil_r. destruct z; reflexivity.
  - rewrite IH. simpl. rewrite <- app_assoc. reflexivity.
Qed.

(** What the decline path leaves alone. *)
Lemma nocompress_frame (s : session) :
  headers (res (nocompress s)) = headers (res s) /\
  _header (res (nocompress s)) = _header (res s) /\
  finished (res (nocompress s)) = finished (res s) /\
  destroyed (res (nocompress s)) = destroyed (res s) /\
  output (res (nocompress s)) = output (res s) /\
  ended (nocompress s) = ended s /\
  length_ (nocompress s) = length_ s /\
  stream (nocompress s) = stream s.
Proof.
  unfold nocompress. destruct (listeners s) as [ls|]; simpl;
    [rewrite addListeners_on; simpl|]; repeat split; reflexivity.
Qed.

Lemma nocompress_listeners (s : session) (ls : list (string * fn)) :
  listeners s = Some ls ->
  listeners (nocompress s) = None /\
  events (res (nocompress s)) = (events (res s) ++ ls)%list.
Proof.
  intros Hl. unfold nocompress. rewrite Hl. simpl.
  rewrite addListeners_on. simpl. split; reflexivity.
Qed.

(** The Vary helper writes the Vary header and nothing else. *)
Lemma vary_other (r : response) (field name : string) :
  name <> "Vary" -> getHeader name (vary r field) = getHeader name r.
Proof.
  intros Hne. unfold vary.
  destruct (String.eqb _ ""); [reflexivity|].
  unfold getHeader, setHeader; simpl. rewrite lookup_insert_ne; congruence.
Qed.

Lemma vary_frame (r : response) (field : string) :
  _header (vary r field) = _header r /\ finished (vary r field) = finished r /\
  destroyed (vary r field) = destroyed r /\ events (vary r field) = events r /\
  output (vary r field) = output r.
Proof.
  unfold vary. destruct (String.eqb _ ""); simpl; repeat split; reflexivity.
Qed.

(** The header listener never touches the state of the transport, the
    output or the session flags: it decides on headers, listeners and stream. *)
Lemma onResponseHeaders_frame (s : session) :
  let s' := onResponseHeaders mw req s in
  _header (res s') = _header (res s) /\ finished (res s') = finished (res s) /\
  destroyed (res s') = destroyed (res s) /\ output (res s') = output (res s) /\
  ended s' = ended s /\ length_ s' = length_ s.
Proof.
  unfold onResponseHeaders.
  pose proof (nocompress_frame s) as Hs.
  pose proof (nocompress_frame (set_res (vary (res s) "Accept-Encoding") s)) as Hv.
  pose proof (vary_frame (res s) "Accept-Encoding") as Hr.
  simpl in Hv.
  repeat case_match; simpl; intuition congruence.
Qed.

Lemma _implicitHeader_frame (s : session) :
  let s' := _implicitHeader mw req s in
  _header (res s') = true /\ finished (res s') = finished (res s) /\
  destroyed (res s') = destroyed (res s) /\ output (res s') = output (res s) /\
  ended s' = ended s /\
  headers (res s') = headers (res (onResponseHeaders mw req s)) /\
  stream s' = stream (onResponseHeaders mw req s) /\
  listeners s' = listeners (onResponseHeaders mw req s).
Proof.
  pose proof (onResponseHeaders_frame s) as Hf.
  unfold _implicitHeader. simpl in *. intuition.
Qed.

(** *** Pass-through mode *)

Lemma set_res_res (s : session) : set_res (res s) s = s.
Proof. destruct s; reflexivity. Qed.

Lemma set__header_sent (r : response) :
  _header r = true -> set__header true r = r.
Proof. destruct r; simpl; intros ->; reflexivity. Qed.

Lemma valid_chunk_not_null (c : value) :
  valid_chunk c = true -> is_null c = false /\ is_function c = false.
Proof. destruct c; cbv; intros; split; congruence. Qed.

Lemma valid_last_not_function (c : value) :
  valid_last c -> is_function c = false.
Proof. intros [->|Hc]; [reflexivity|]. apply valid_chunk_not_null, Hc. Qed.

Lemma end_args_chunk (c e cb : value) :
  is_function c = false -> fst (fst (end_args c e cb)) = c.
Proof.
  intros Hc. unfold end_args. rewrite Hc.
  destruct (negb (truthy cb)), (is_function e); reflexivity.
Qed.

(** In pass-through mode a write of a string or binary chunk is the native
    write: the chunk goes to the transport as it was given. *)
Lemma write_pass_through (s : session) (c e cb : value) :
  pass_through s -> valid_chunk c = true ->
  write mw req s c e cb =
  (set_res (send c (fst (write_args e cb)) (res s)) s, Return (VBool true)).
Proof.
  intros (Hh & Hs & Hf & Hd & He) Hc.
  destruct (valid_chunk_not_null c Hc) as [Hn _].
  unfold write. rewrite Hn. unfold valid_chunk in Hc. rewrite Hc. simpl.
  destruct (write_args e cb) as [e' cb'] eqn:Hargs. simpl.
  rewrite Hd, Hf, He, Hh, Hs. simpl.
  assert (Herr : write_error (res s) c = None).
  { unfold write_error, valid_chunk. rewrite Hn, Hc, Hf, Hd. reflexivity. }
  unfold _write, native_write. rewrite Herr, Hh, Herr.
  rewrite set__header_sent by assumption. reflexivity.
Qed.

(** And an end is the native end, with the chunk if there is one. *)
Lemma end_pass_through (s : session) (c e cb : value) :
  pass_through s -> valid_last c ->
  end_ mw req s c e cb =
  (set_res (set_finished true
              (if truthy c
               then send c (snd (fst (end_args c e cb))) (res s)
               else res s)) s,
   Return this_res).
Proof.
  intros (Hh & Hs & Hf & Hd & He) Hc.
  pose proof (end_args_chunk c e cb (valid_last_not_function c Hc)) as Hargs.
  unfold end_. destruct (end_args c e cb) as [[c' e'] cb']. simpl in Hargs.
  subst c'. simpl. rewrite Hd, Hf, He, Hh, Hs. simpl.
  assert (Herr : end_error (res s) c = None).
  { unfold end_error. rewrite Hf, Hd.
    destruct Hc as [->|Hc]; [reflexivity|]. rewrite Hc.
    rewrite andb_false_r. reflexivity. }
  unfold _end, native_end. rewrite Herr, Hh, Herr.
  rewrite set__header_sent by assumption. reflexivity.
Qed.

Lemma pass_through_send (s : session) (c e : value) :
  pass_through s -> pass_through (set_res (send c e (res s)) s).
Proof. intros (Hh & Hs & Hf & Hd & He). repeat split; assumption. Qed.

Lemma run_app (s : session) (cs1 cs2 : list call) :
  run mw req s (cs1 ++ cs2) = run mw req (run mw req s cs1) cs2.
Proof. unfold run. apply fold_left_app. Qed.

(** The encoding the proxy delegates is the one the call was given. *)
Lemma write_args_encoding (e cb : value) :
  fst (write_args e cb) = encoding_given e cb.
Proof.
  unfold write_args, encoding_given.
  destruct (is_function e), (truthy cb); reflexivity.
Qed.

Lemma end_args_encoding (c e cb : value) :
  is_function c = false ->
  snd (fst (end_args c e cb)) = encoding_given e cb.
Proof.
  intros Hc. unfold end_args, encoding_given. rewrite Hc.
  destruct (is_function e), (truthy cb); reflexivity.
Qed.

(** A sequence of writes in pass-through mode reaches the transport chunk by
    chunk, in order, each with its encoding, and changes nothing else. *)
Lemma run_writes_pass_through (writes : list (value * value * value)) :
  forall s : session,
    pass_through s ->
    Forall (fun w => valid_chunk (fst (fst w)) = true) writes ->
    let s' := run mw req s (writes_of writes) in
    pass_through s' /\ headers (res s') = headers (res s) /\
    listeners s' = listeners s /\
    output (res s') =
    (output (res s)
     ++ map (fun w => (fst (fst w), encoding_given (snd (fst w)) (snd w)))
          writes)%list.
Proof.
  induction writes as [|[[c e] cb] ws IH]; intros s Hp Hall; simpl.
  - rewrite app_nil_r. repeat split; try reflexivity; apply Hp.
  - inversion Hall as [|w ws' Hc Hws]; subst. simpl in Hc.
    unfold run in *. simpl.
    rewrite (write_pass_through s c e cb Hp Hc). simpl.
    destruct (IH _ (pass_through_send s c (fst (write_args e cb)) Hp) Hws)
      as (Hp' & Hh' & Hl' & Ho').
    repeat split; try apply Hp'.
    + rewrite Hh'. reflexivity.
    + rewrite Hl'. reflexivity.
    + rewrite Ho'. simpl. rewrite write_args_encoding, <- app_assoc. reflexivity.
Qed.

(** *** The first body call *)

Lemma estimate_frame (s d : session) (c e : value) :
  estimate s c e = Ok d ->
  res d = res s /\ ended d = ended s /\ stream d = stream s /\
  listeners d = listeners s.
Proof.
  unfold estimate. intros Hd.
  destruct (match getHeader _ _ with Some v => _ | None => _ end);
    [destruct (chunkLength c e); [|discriminate]|];
    injection Hd as <-; repeat split; reflexivity.
Qed.

(** On a pristine session the first write sends the header, which runs the
    listener, and then proceeds as on the session the listener left. *)
Lemma write_pristine (s : session) (c e cb : value) :
  pristine s -> valid_chunk c = true ->
  write mw req s c e cb = write mw req (_implicitHeader mw req s) c e cb.
Proof.
  intros (Hh & Hf & Hd & He & _) Hc.
  destruct (valid_chunk_not_null c Hc) as [Hn _].
  destruct (_implicitHeader_frame s) as (Hh' & Hf' & Hd' & _ & He' & _).
  unfold write. rewrite Hn. unfold valid_chunk in Hc. rewrite Hc.
  cbn [negb]. destruct (write_args e cb) as [e' cb'].
  rewrite Hf', Hd', He', Hh', Hd, Hf, He, Hh. reflexivity.
Qed.

(** The same for an end, after the length has been estimated. *)
Lemma end_pristine (s d : session) (c e cb : value) :
  pristine s ->
  decision_state s [] (c, e, cb) = Ok d ->
  end_ mw req s c e cb = end_ mw req (_implicitHeader mw req d) c e cb.
Proof.
  intros (Hh & Hf & Hd & He & _).
  unfold end_, decision_state. cbn [fst snd].
  destruct (end_args c e cb) as [[c' e'] cb']. intros Hest.
  destruct (estimate_frame s d c' e' Hest) as (Hr & He1 & _).
  destruct (_implicitHeader_frame d) as (Hh' & Hf' & Hd' & _ & He' & _).
  rewrite Hr in Hf', Hd'. rewrite He1 in He'.
  rewrite Hest, Hf', Hd', He', Hh', Hd, Hf, He, Hh. reflexivity.
Qed.

(** When the estimate throws, the end throws with it and the session is as
    it was: no header is sent and nothing is decided. *)
Lemma end_pristine_throws (s : session) (c e cb : value) (err : error) :
  pristine s ->
  decision_state s [] (c, e, cb) = Throw err ->
  end_ mw req s c e cb = (s, Raise err).
Proof.
  intros (Hh & Hf & Hd & He & _).
  unfold end_, decision_state. cbn [fst snd].
  destruct (end_args c e cb) as [[c' e'] cb']. intros Hest.
  rewrite Hest, Hd, Hf, He, Hh. reflexivity.
Qed.

Lemma body_first_call (s d : session) (writes : list (value * value * value))
    (last : value * value * value) :
  pristine s ->
  Forall (fun w => valid_chunk (fst (fst w)) = true) writes ->
  decision_state s writes last = Ok d ->
  run mw req s (body writes last) =
  run mw req (_implicitHeader mw req d) (body writes last).
Proof.
  intros Hp Hall Hd. destruct writes as [|[[c e] cb] ws].
  - destruct last as [[c e] cb]. unfold body, run. simpl.
    rewrite (end_pristine s d c e cb Hp Hd). reflexivity.
  - inversion Hall as [|w ws' Hc Hws]; subst. simpl in Hc.
    injection Hd as <-. unfold body, run. simpl.
    rewrite (write_pristine s c e cb Hp Hc). reflexivity.
Qed.

Lemma decision_state_frame (s d : session)
    (writes : list (value * value * value)) (last : value * value * value) :
  decision_state s writes last = Ok d ->
  res d = res s /\ ended d = ended s /\ stream d = stream s /\
  listeners d = listeners s.
Proof.
  unfold decision_state. destruct writes.
  - destruct (end_args _ _ _) as [[c e] cb]. apply estimate_frame.
  - intros Hd. injection Hd as <-. repeat split; reflexivity.
Qed.

(** The length of a chunk the transport accepts, or of no chunk, can always
    be taken when [Buffer.byteLength] accepts strings and binary chunks. *)
Lemma chunkLength_valid (c e : value) :
  (forall c e, valid_chunk c = true -> exists m, byteLength c e = Ok m) ->
  valid_last c -> exists m, chunkLength c e = Ok m.
Proof.
  intros Hlaw Hc. unfold chunkLength.
  destruct (truthy c) eqn:Ht; cbn [negb]; [|eauto].
  destruct Hc as [-> | Hc]; [discriminate Ht|].
  destruct c; try (apply Hlaw, Hc); eauto.
Qed.

Lemma decision_state_Ok (s : session) (writes : list (value * value * value))
    (last : value * value * value) :
  (forall c e, valid_chunk c = true -> exists m, byteLength c e = Ok m) ->
  valid_last (fst (fst last)) ->
  exists d, decision_state s writes last = Ok d.
Proof.
  intros Hlaw Hlast. unfold decision_state. destruct writes; [|eauto].
  pose proof (end_args_chunk (fst (fst last)) (snd (fst last)) (snd last)
                (valid_last_not_function _ Hlast)) as Hargs.
  destruct (end_args _ _ _) as [[c e] cb]. cbn [fst] in Hargs. subst c.
  unfold estimate.
  destruct (match getHeader _ _ with Some v => _ | None => _ end); [|eauto].
  destruct (chunkLength_valid (fst (fst last)) e Hlaw Hlast) as (m & ->). eauto.
Qed.

(** A body sent on a pristine session whose header listener declines reaches
    the transport chunk for chunk, each chunk with its encoding, and the
    headers stay as the listener left them. *)
Lemma body_pass_through (s d : session) (writes : list (value * value * value))
    (last : value * value * value) :
  pristine s ->
  Forall (fun w => valid_chunk (fst (fst w)) = true) writes ->
  valid_last (fst (fst last)) ->
  decision_state s writes last = Ok d ->
  stream (onResponseHeaders mw req d) = None ->
  let s' := run mw req s (body writes last) in
  headers (res s') = headers (res (onResponseHeaders mw req d)) /\
  stream s' = None /\
  output (res s') = (output (res s) ++ body_sent writes last)%list.
Proof.
  intros Hp Hall Hlast Hdec Hdecl.
  rewrite (body_first_call s d writes last Hp Hall Hdec).
  destruct (decision_state_frame s d writes last Hdec) as (Hres & Hend & _).
  destruct Hp as (Hh & Hf & Hd & He & _).
  destruct (_implicitHeader_frame d) as (Hh' & Hf' & Hd' & Ho' & He' & Hhd' & Hs' & _).
  assert (Hpt : pass_through (_implicitHeader mw req d)).
  { repeat split; congruence. }
  unfold body. rewrite run_app.
  destruct (run_writes_pass_through writes _ Hpt Hall) as (Hpt1 & Hh1 & _ & Ho1).
  destruct last as [[c e] cb]. cbn [fst snd] in *.
  set (s1 := run mw req (_implicitHeader mw req d) (writes_of writes)) in *.
  change (run mw req s1 [End c e cb]) with (fst (end_ mw req s1 c e cb)).
  rewrite (end_pass_through _ c e cb Hpt1 Hlast).
  rewrite (end_args_encoding c e cb (valid_last_not_function c Hlast)).
  destruct Hpt1 as (_ & Hs1 & _).
  unfold body_sent. cbn [fst snd res set_res stream].
  split; [|split].
  - rewrite <- Hhd', <- Hh1. destruct (truthy c); reflexivity.
  - assumption.
  - rewrite Ho', Hres in Ho1.
    destruct (truthy c); cbn [output set_finished send].
    + rewrite Ho1, <- app_assoc. reflexivity.
    + rewrite Ho1, app_nil_r. reflexivity.
Qed.

(** *** The paths of the header listener *)

Lemma encoding_identity (r : response) :
  hval_is match getHeader "Content-Encoding" r with
          | Some v => if hval_truthy v then v else HStr "identity"
          | None => HStr "identity"
          end "identity" = identity_encoded r.
Proof.
  unfold identity_encoded. destruct (getHeader _ r) as [v|]; [|reflexivity].
  destruct (hval_truthy v); reflexivity.
Qed.

Lemma identity_encoded_vary (r : response) (field : string) :
  identity_encoded (vary r field) = identity_encoded r.
Proof.
  unfold identity_encoded. rewrite vary_other by discriminate. reflexivity.
Qed.

(** The listener once the filter and the no-transform check have passed and
    the Vary header is written: the remaining steps, in terms of the
    response as it was. *)
Lemma onResponseHeaders_after_vary (s : session) (ls : list (string * fn)) :
  listeners s = Some ls ->
  filter mw req (res s) = true ->
  shouldTransform req (res s) = true ->
  onResponseHeaders mw req s =
  let s' := set_res (vary (res s) "Accept-Encoding") s in
  if js_lt (Number (getHeader "Content-Length" (res s))) (threshold mw)
     || js_lt (length_ s) (threshold mw)
  then nocompress s'
  else if negb (identity_encoded (res s)) then nocompress s'
  else if String.eqb (method req) "HEAD" then nocompress s'
  else if negb (method_truthy (negotiate req))
          || method_is (negotiate req) "identity"
  then nocompress s'
  else compressing mw s (default "" (negotiate req)) ls.
Proof.
  intros Hl Hfi Htr. unfold onResponseHeaders. rewrite Hfi, Htr.
  cbn [negb res set_res length_ listeners]. rewrite Hl.
  rewrite encoding_identity, identity_encoded_vary.
  rewrite (vary_other (res s) "Accept-Encoding" "Content-Length") by discriminate.
  destruct (js_lt _ _ || js_lt _ _); [reflexivity|].
  destruct (negb (identity_encoded _)); [reflexivity|].
  destruct (String.eqb (method req) "HEAD"); [reflexivity|].
  destruct (negb _ || _); [reflexivity|].
  cbv zeta. unfold compressing.
  destruct (vary_frame (res s) "Accept-Encoding") as (Hh & Hf & Hd & He & Ho).
  rewrite addListeners_stream_on.
  unfold set_stream, set_res, stream_on, _on, add_event, removeHeader, setHeader.
  destruct (String.eqb _ "br"); [|destruct (String.eqb _ "gzip")]; simpl;
    rewrite Hh, Hf, Hd, He, Ho, Hl, <- app_assoc; reflexivity.
Qed.

(** The accept path: every step of the chain passes and the negotiation
    yields a method other than identity. *)
Lemma onResponseHeaders_accept (s : session) (m : string)
    (ls : list (string * fn)) :
  listeners s = Some ls ->
  filter mw req (res s) = true ->
  shouldTransform req (res s) = true ->
  js_lt (Number (getHeader "Content-Length" (res s))) (threshold mw) = false ->
  js_lt (length_ s) (threshold mw) = false ->
  identity_encoded (res s) = true ->
  String.eqb (method req) "HEAD" = false ->
  negotiate req = Some m ->
  String.eqb m "" = false ->
  String.eqb m "identity" = false ->
  onResponseHeaders mw req s = compressing mw s m ls.
Proof.
  intros Hl Hfi Htr Hcl Hlen Hid Hhead Hneg Hne Hni.
  rewrite (onResponseHeaders_after_vary s ls) by assumption.
  cbv zeta. rewrite Hcl, Hlen, Hid, Hhead, Hneg. simpl.
  rewrite Hne, Hni. reflexivity.
Qed.

(** The listener ends in one of three ways: it declines at once, it declines
    after the Vary header has been written, or it installs a stream. *)
Lemma onResponseHeaders_cases (s : session) (ls : list (string * fn)) :
  listeners s = Some ls ->
  onResponseHeaders mw req s = nocompress s \/
  onResponseHeaders mw req s =
    nocompress (set_res (vary (res s) "Accept-Encoding") s) \/
  exists m, String.eqb m "" = false /\ String.eqb m "identity" = false /\
            negotiate req = Some m /\
            onResponseHeaders mw req s = compressing mw s m ls.
Proof.
  intros Hl.
  destruct (filter mw req (res s)) eqn:Hfi;
    [|left; unfold onResponseHeaders; rewrite Hfi; reflexivity].
  destruct (shouldTransform req (res s)) eqn:Htr;
    [|left; unfold onResponseHeaders; rewrite Hfi, Htr; reflexivity].
  right. rewrite (onResponseHeaders_after_vary s ls) by assumption. cbv zeta.
  destruct (js_lt _ _ || js_lt _ _); [left; reflexivity|].
  destruct (negb (identity_encoded _)); [left; reflexivity|].
  destruct (String.eqb (method req) "HEAD"); [left; reflexivity|].
  destruct (negb _ || _) eqn:Hneg; [left; reflexivity|].
  right. apply orb_false_iff in Hneg as [Ht Hi].
  destruct (negotiate req) as [m|] eqn:Hm; [|discriminate].
  simpl in Ht, Hi. apply negb_false_iff, negb_true_iff in Ht.
  exists m. repeat split; assumption.
Qed.

(** *** Declining *)

Lemma below_threshold_declines (s : session) (n : Z) :
  spec_resolved_size s = Some n -> n < threshold mw ->
  onResponseHeaders mw req s = nocompress s \/
  onResponseHeaders mw req s =
    nocompress (set_res (vary (res s) "Accept-Encoding") s).
Proof.
  intros Hsize Hlt. unfold onResponseHeaders.
  destruct (filter mw req (res s)); [|left; reflexivity].
  destruct (shouldTransform req (res s)); [|left; reflexivity].
  right. cbn [negb res set_res length_].
  rewrite (vary_other (res s) "Accept-Encoding" "Content-Length") by discriminate.
  assert (Hbelow : js_lt (Number (getHeader "Content-Length" (res s))) (threshold mw)
                   || js_lt (length_ s) (threshold mw) = true).
  { unfold spec_resolved_size in Hsize.
    destruct (getHeader "Content-Length" (res s)) as [v|].
    - rewrite Hsize. simpl. apply Z.ltb_lt in Hlt. rewrite Hlt. reflexivity.
    - rewrite Hsize. simpl. apply Z.ltb_lt in Hlt. rewrite Hlt. reflexivity. }
  rewrite Hbelow. reflexivity.
Qed.

Lemma no_transform_declines (s : session) (cc : string) :
  getHeader "Cache-Control" (res s) = Some (HStr cc) ->
  cacheControlNoTransformRegExp cc = true ->
  onResponseHeaders mw req s = nocompress s.
Proof.
  intros Hcc Hre. unfold onResponseHeaders.
  destruct (filter mw req (res s)); [|reflexivity].
  assert (Htr : shouldTransform req (res s) = false).
  { unfold shouldTransform. rewrite Hcc. simpl. rewrite Hre.
    destruct cc; [discriminate Hre|reflexivity]. }
  rewrite Htr. reflexivity.
Qed.

(** The size the threshold step resolves is the size of the body. *)
Lemma spec_body_size_resolved (s d : session) (n : Z)
    (writes : list (value * value * value)) (last : value * value * value) :
  valid_last (fst (fst last)) ->
  decision_state s writes last = Ok d ->
  spec_body_size s writes last = Some n ->
  spec_resolved_size d = Some n.
Proof.
  intros Hlast Hdec Hsize.
  destruct (decision_state_frame s d writes last Hdec) as (Hres & _).
  unfold spec_resolved_size. rewrite Hres. unfold spec_body_size in Hsize.
  destruct (getHeader "Content-Length" (res s)) as [v|] eqn:Hcl; [exact Hsize|].
  destruct writes; [|discriminate Hsize].
  unfold decision_state in Hdec.
  pose proof (end_args_chunk (fst (fst last)) (snd (fst last)) (snd last)
                (valid_last_not_function _ Hlast)) as Hc.
  pose proof (end_args_encoding (fst (fst last)) (snd (fst last)) (snd last)
                (valid_last_not_function _ Hlast)) as He.
  destruct (end_args _ _ _) as [[c e] cb]. cbn [fst snd] in Hc, He. subst c e.
  unfold estimate in Hdec. rewrite Hcl in Hdec.
  unfold spec_payload_length in Hsize. unfold chunkLength in Hdec.
  destruct Hlast as [Hu | Hv].
  - rewrite Hu in *. cbn in Hdec. injection Hdec as <-. exact Hsize.
  - destruct (fst (fst last)) as [| | | |str|b|b| |]; try discriminate Hv.
    + destruct (truthy (VString str)); cbn [negb] in Hdec.
      * destruct (byteLength _ _); [|discriminate].
        injection Hdec as <-. exact Hsize.
      * injection Hdec as <-. exact Hsize.
    + cbn in Hdec. injection Hdec as <-. exact Hsize.
    + cbn [truthy negb] in *. destruct (byteLength _ _); [|discriminate].
      injection Hdec as <-. exact Hsize.
Qed.

(** C2: a response whose resolved body size (the explicit Content-Length
    header, or otherwise the byte length of the payload of the terminal
    write that makes up the body) is below the threshold is declined:
    Content-Encoding stays as it was, no stream is installed, and the
    transport receives the input of the body and nothing else, every chunk
    as it was written and with the encoding it was written with, in order.
    [Buffer.byteLength] is taken to accept every string and binary chunk. *)
Theorem below_threshold_pass_through (s : session) (n : Z)
    (writes : list (value * value * value)) (last : value * value * value) :
  pristine s ->
  (forall c e, valid_chunk c = true -> exists m, byteLength c e = Ok m) ->
  Forall (fun w => valid_chunk (fst (fst w)) = true) writes ->
  valid_last (fst (fst last)) ->
  spec_body_size s writes last = Some n ->
  n < threshold mw ->
  let s' := run mw req s (body writes last) in
  getHeader "Content-Encoding" (res s') = getHeader "Content-Encoding" (res s) /\
  stream s' = None /\
  output (res s') = (output (res s) ++ body_sent writes last)%list.
Proof.
  intros Hp Hlaw Hall Hlast Hsize Hlt s'.
  destruct (decision_state_Ok s writes last Hlaw Hlast) as (d & Hdec).
  destruct (decision_state_frame s d writes last Hdec) as (Hres & _ & Hstr & _).
  pose proof (spec_body_size_resolved s d n writes last Hlast Hdec Hsize) as Hsd.
  assert (Hnone : stream s = None) by apply Hp.
  assert (Hdecl : stream (onResponseHeaders mw req d) = None /\
                  getHeader "Content-Encoding" (res (onResponseHeaders mw req d)) =
                  getHeader "Content-Encoding" (res s)).
  { destruct (below_threshold_declines d n Hsd Hlt) as [-> | ->].
    - destruct (nocompress_frame d) as (Hh & _ & _ & _ & _ & _ & _ & Hs).
      unfold getHeader. rewrite Hh, Hs, Hstr, Hres. split; [assumption|reflexivity].
    - destruct (nocompress_frame (set_res (vary (res d) "Accept-Encoding") d))
        as (Hh & _ & _ & _ & _ & _ & _ & Hs).
      simpl in Hh, Hs. split; [congruence|].
      unfold getHeader at 1. rewrite Hh.
      fold (getHeader "Content-Encoding" (vary (res d) "Accept-Encoding")).
      rewrite vary_other by discriminate. rewrite Hres. reflexivity. }
  destruct Hdecl as [Hs Hce].
  destruct (body_pass_through s d writes last Hp Hall Hlast Hdec Hs)
    as (Hh' & Hs' & Ho').
  fold s' in Hh', Hs', Ho'.
  split; [|split; assumption].
  unfold getHeader at 1. rewrite Hh'. exact Hce.
Qed.

(** C3: a response whose Cache-Control carries no-transform is declined
    before any header is touched: every header is as it was, so no Vary is
    added, no stream is installed, and the transport receives the input of
    the body and nothing else, every chunk as it was written and with the
    encoding it was written with, in order.  [Buffer.byteLength] is taken to
    accept every string and binary chunk. *)
Theorem no_transform_pass_through (s : session) (cc : string)
    (writes : list (value * value * value)) (last : value * value * value) :
  pristine s ->
  (forall c e, valid_chunk c = true -> exists m, byteLength c e = Ok m) ->
  Forall (fun w => valid_chunk (fst (fst w)) = true) writes ->
  valid_last (fst (fst last)) ->
  getHeader "Cache-Control" (res s) = Some (HStr cc) ->
  cacheControlNoTransformRegExp cc = true ->
  let s' := run mw req s (body writes last) in
  headers (res s') = headers (res s) /\
  getHeader "Vary" (res s') = getHeader "Vary" (res s) /\
  stream s' = None /\
  output (res s') = (output (res s) ++ body_sent writes last)%list.
Proof.
  intros Hp Hlaw Hall Hlast Hcc Hre s'.
  destruct (decision_state_Ok s writes last Hlaw Hlast) as (d & Hdec).
  destruct (decision_state_frame s d writes last Hdec) as (Hres & _ & Hstr & _).
  assert (Hnone : stream s = None) by apply Hp.
  assert (Hno : onResponseHeaders mw req d = nocompress d).
  { apply (no_transform_declines d cc); [rewrite Hres|]; assumption. }
  destruct (nocompress_frame d) as (Hh & _ & _ & _ & _ & _ & _ & Hs).
  assert (Hs0 : stream (onResponseHeaders mw req d) = None) by congruence.
  destruct (body_pass_through s d writes last Hp Hall Hlast Hdec Hs0)
    as (Hh' & Hs' & Ho').
  fold s' in Hh', Hs', Ho'.
  assert (Hhd : headers (res s') = headers (res s)) by congruence.
  split; [assumption|]. split; [|split; assumption].
  unfold getHeader. rewrite Hhd. reflexivity.
Qed.

(** C4: once the filter and the no-transform check have passed, the Vary
    header is the one the Vary helper writes for Accept-Encoding, whatever
    the later steps of the chain decide (threshold, already encoded, HEAD or
    a failed negotiation included). *)
Theorem vary_written_whatever_follows (s : session) :
  filter mw req (res s) = true ->
  shouldTransform req (res s) = true ->
  getHeader "Vary" (res (onResponseHeaders mw req s)) =
    getHeader "Vary" (vary (res s) "Accept-Encoding") /\
  (forall v : string,
     vary_append (vary_value (res s)) "Accept-Encoding" = v -> v <> "" ->
     getHeader "Vary" (res (onResponseHeaders mw req s)) = Some (HStr v)).
Proof.
  intros Hfi Htr.
  assert (Hv : getHeader "Vary" (res (onResponseHeaders mw req s)) =
               getHeader "Vary" (vary (res s) "Accept-Encoding")).
  { unfold onResponseHeaders. rewrite Hfi, Htr. cbn [negb].
    pose proof (nocompress_frame (set_res (vary (res s) "Accept-Encoding") s))
      as (Hh & _).
    cbn [res set_res] in Hh.
    repeat case_match; unfold getHeader; rewrite ?Hh; try reflexivity.
    all: unfold set_stream, set_res, _on, add_event, removeHeader, setHeader;
      simpl; rewrite lookup_delete_ne by discriminate;
      rewrite lookup_insert_ne by discriminate; reflexivity. }
  split; [exact Hv|].
  intros v Hv1 Hv2. rewrite Hv. unfold vary.
  rewrite Hv1. apply String.eqb_neq in Hv2. rewrite Hv2.
  unfold getHeader, setHeader. simpl. apply lookup_insert_eq.
Qed.

(** *** Accepting *)

Lemma onResponseHeaders_eligible (s : session) (ls : list (string * fn)) :
  listeners s = Some ls ->
  eligible mw req s = true ->
  above_threshold mw s = true ->
  onResponseHeaders mw req s =
  if negotiated req
  then compressing mw s (default "" (negotiate req)) ls
  else nocompress (set_res (vary (res s) "Accept-Encoding") s).
Proof.
  intros Hl He Ha. unfold eligible in He. unfold above_threshold in Ha.
  apply andb_prop in He as [He Hhead]. apply andb_prop in He as [He Hid].
  apply andb_prop in He as [Hfi Htr].
  rewrite (onResponseHeaders_after_vary s ls) by assumption. cbv zeta.
  apply negb_true_iff in Ha, Hhead. rewrite Ha, Hid, Hhead. cbn [negb].
  unfold negotiated.
  destruct (method_truthy (negotiate req)), (method_is (negotiate req) "identity");
    reflexivity.
Qed.

Lemma onResponseHeaders_not_eligible (s : session) :
  eligible mw req s = false ->
  stream (onResponseHeaders mw req s) = stream s.
Proof.
  intros He. unfold eligible in He.
  destruct (nocompress_frame s) as (_ & _ & _ & _ & _ & _ & _ & Hs).
  destruct (nocompress_frame (set_res (vary (res s) "Accept-Encoding") s))
    as (_ & _ & _ & _ & _ & _ & _ & Hv). simpl in Hv.
  unfold onResponseHeaders.
  destruct (filter mw req (res s)); [|exact Hs].
  destruct (shouldTransform req (res s)); [|exact Hs].
  cbn [negb res set_res length_].
  destruct (js_lt _ _ || js_lt _ _); [exact Hv|].
  rewrite encoding_identity, identity_encoded_vary.
  destruct (identity_encoded (res s)); [|exact Hv].
  destruct (String.eqb (method req) "HEAD"); [exact Hv|discriminate He].
Qed.

Lemma compressing_codec (s : session) (m : string) (ls : list (string * fn)) :
  exists z, stream (compressing mw s m ls) = Some z /\
    z_codec z = (if String.eqb m "br" then Brotli
                 else if String.eqb m "gzip" then Gzip else Deflate) /\
    z_options z = (if String.eqb m "br" then None else Some (opts mw)) /\
    z_events z = (ls ++ [("data", onStreamData); ("end", onStreamEnd)])%list /\
    z_input z = [] /\ z_ended z = false.
Proof. eexists. split; [reflexivity|]. repeat split. Qed.

Lemma compressing_headers (s : session) (m : string) (ls : list (string * fn)) :
  getHeader "Content-Encoding" (res (compressing mw s m ls)) = Some (HStr m) /\
  getHeader "Content-Length" (res (compressing mw s m ls)) = None.
Proof.
  unfold compressing, getHeader. simpl. split.
  - rewrite lookup_delete_ne by discriminate. apply lookup_insert_eq.
  - apply lookup_delete_eq.
Qed.

Lemma negotiated_method :
  negotiated req = true ->
  exists m, negotiate req = Some m /\ String.eqb m "" = false /\
            String.eqb m "identity" = false.
Proof.
  unfold negotiated. intros Hn. apply andb_prop in Hn as [Ht Hi].
  destruct (negotiate req) as [m|]; [|discriminate Ht].
  simpl in Ht, Hi. apply negb_true_iff in Ht, Hi. exists m. auto.
Qed.

(** C1, as amended: a response whose body size cannot be resolved (no
    Content-Length header, no estimated length) is not declined by the size
    step.  It is compressed when the other steps of the chain pass and the
    negotiation succeeds, and goes uncompressed only when one of them
    declines. *)
Theorem unresolved_size_passes_threshold (s : session) (ls : list (string * fn)) :
  getHeader "Content-Length" (res s) = None ->
  length_ s = None ->
  listeners s = Some ls ->
  above_threshold mw s = true /\
  (eligible mw req s = true -> negotiated req = true ->
   exists m z, negotiate req = Some m /\
               onResponseHeaders mw req s = compressing mw s m ls /\
               stream (onResponseHeaders mw req s) = Some z /\
               getHeader "Content-Encoding" (res (onResponseHeaders mw req s))
                 = Some (HStr m)) /\
  (eligible mw req s && negotiated req = false ->
   stream (onResponseHeaders mw req s) = stream s).
Proof.
  intros Hcl Hlen Hl.
  assert (Ha : above_threshold mw s = true).
  { unfold above_threshold. rewrite Hcl, Hlen. reflexivity. }
  split; [exact Ha|]. split.
  - intros He Hn. destruct (negotiated_method Hn) as (m & Hm & _).
    rewrite (onResponseHeaders_eligible s ls Hl He Ha), Hn, Hm.
    change (default "" (Some m)) with m.
    destruct (compressing_codec s m ls) as (z & Hz & _).
    exists m, z. split; [reflexivity|]. split; [reflexivity|].
    split; [exact Hz|]. apply compressing_headers.
  - intros Hno. destruct (eligible mw req s) eqn:He.
    + simpl in Hno.
      rewrite (onResponseHeaders_eligible s ls Hl He Ha), Hno.
      apply (nocompress_frame (set_res (vary (res s) "Accept-Encoding") s)).
    + apply onResponseHeaders_not_eligible, He.
Qed.

(** C5, as amended: when the request accepts both gzip and deflate the
    negotiated method is never deflate.  It is gzip when the negotiation
    over [br, gzip, deflate, identity] returns gzip, or returns deflate and
    the one over [gzip, identity] returns gzip; an eligible response above
    the threshold then gets a gzip stream.  When the first negotiation
    returns br the method is br. *)
Theorem deflate_gives_way_to_gzip (s : session) (ls : list (string * fn)) :
  (forall (offered : list string) (m : string),
     accepts_encoding req offered = Some m -> In m offered) ->
  method_truthy (accepts_encoding req ["gzip"]) = true ->
  method_truthy (accepts_encoding req ["deflate"]) = true ->
  negotiate req <> Some "deflate" /\
  (accepts_encoding req ["br"; "gzip"; "deflate"; "identity"] = Some "br" ->
   negotiate req = Some "br") /\
  ((accepts_encoding req ["br"; "gzip"; "deflate"; "identity"] = Some "gzip" \/
    (accepts_encoding req ["br"; "gzip"; "deflate"; "identity"] = Some "deflate" /\
     accepts_encoding req ["gzip"; "identity"] = Some "gzip")) ->
   negotiate req = Some "gzip" /\
   (listeners s = Some ls -> eligible mw req s = true ->
    above_threshold mw s = true ->
    exists z, stream (onResponseHeaders mw req s) = Some z /\
              z_codec z = Gzip /\
              getHeader "Content-Encoding" (res (onResponseHeaders mw req s))
                = Some (HStr "gzip"))).
Proof.
  intros Hsound Hgzip Hdeflate. unfold negotiate.
  destruct (accepts_encoding req ["br"; "gzip"; "deflate"; "identity"])
    as [first|] eqn:Hfirst; simpl.
  2:{ split; [discriminate|]. split; [discriminate|].
      intros [Hg | [Hd _]]; discriminate. }
  rewrite Hgzip, andb_true_r.
  destruct (String.eqb first "deflate") eqn:Hfd.
  - apply String.eqb_eq in Hfd. subst first. split; [|split].
    + intros Hbad. apply Hsound in Hbad. simpl in Hbad.
      destruct Hbad as [Hb | [Hb | []]]; discriminate Hb.
    + discriminate.
    + intros [Hg | [_ Hg]]; [discriminate Hg|].
      assert (Hneg : negotiate req = Some "gzip").
      { unfold negotiate. rewrite Hfirst, Hgzip. exact Hg. }
      split; [exact Hg|]. intros Hl He Ha.
      rewrite (onResponseHeaders_eligible s ls Hl He Ha).
      unfold negotiated. rewrite Hneg.
      destruct (compressing_codec s "gzip" ls) as (z & Hz & Hc & _).
      exists z. split; [exact Hz|]. split; [exact Hc|].
      apply compressing_headers.
  - apply String.eqb_neq in Hfd. split; [congruence|]. split; [auto|].
    intros [Hg | [Hd _]]; [|congruence].
    assert (Hneg : negotiate req = Some "gzip").
    { unfold negotiate. rewrite Hfirst. injection Hg as ->. reflexivity. }
    split; [exact Hg|]. intros Hl He Ha.
    rewrite (onResponseHeaders_eligible s ls Hl He Ha).
    unfold negotiated. rewrite Hneg.
    destruct (compressing_codec s "gzip" ls) as (z & Hz & Hc & _).
    exists z. split; [exact Hz|]. split; [exact Hc|].
    apply compressing_headers.
Qed.

(** C6, as amended: on the accept path the listener creates the stream of
    the negotiated method, with the configured options for gzip and deflate
    and with no options for brotli, sets Content-Encoding to the name of
    the method and removes Content-Length. *)
Theorem accept_installs_stream (s : session) (ls : list (string * fn))
    (m : string) :
  listeners s = Some ls ->
  eligible mw req s = true ->
  above_threshold mw s = true ->
  negotiate req = Some m ->
  In m ["br"; "gzip"; "deflate"] ->
  exists z,
    stream (onResponseHeaders mw req s) = Some z /\
    ((m = "br" /\ z_codec z = Brotli /\ z_options z = None) \/
     (m = "gzip" /\ z_codec z = Gzip /\ z_options z = Some (opts mw)) \/
     (m = "deflate" /\ z_codec z = Deflate /\ z_options z = Some (opts mw))) /\
    getHeader "Content-Encoding" (res (onResponseHeaders mw req s))
      = Some (HStr m) /\
    getHeader "Content-Length" (res (onResponseHeaders mw req s)) = None.
Proof.
  intros Hl He Ha Hm Hin.
  assert (Hn : negotiated req = true).
  { unfold negotiated. rewrite Hm. simpl in *.
    destruct Hin as [<- | [<- | [<- | []]]]; reflexivity. }
  rewrite (onResponseHeaders_eligible s ls Hl He Ha), Hn, Hm.
  change (default "" (Some m)) with m.
  destruct (compressing_codec s m ls) as (z & Hz & Hc & Ho & _).
  destruct (compressing_headers s m ls) as [Hce Hcl].
  exists z. split; [exact Hz|]. split; [|split; assumption].
  simpl in Hin. destruct Hin as [<- | [<- | [<- | []]]]; auto.
Qed.

(** *** The native calls *)

Lemma native_write_frame (r : response) (c e cb : value) :
  _header r = true -> _header (fst (native_write r c e cb)) = true.
Proof.
  intros Hh. unfold native_write. destruct (write_error r c); simpl; auto.
Qed.

Lemma native_end_frame (r : response) (c e cb : value) :
  _header r = true -> _header (fst (native_end r c e cb)) = true.
Proof.
  intros Hh. unfold native_end. destruct (end_error r c); simpl; auto.
  destruct (truthy c); reflexivity.
Qed.

Lemma _write_sent (s : session) (c e cb : value) :
  _header (res s) = true ->
  _write mw req s c e cb =
  (set_res (fst (native_write (res s) c e cb)) s,
   snd (native_write (res s) c e cb)).
Proof.
  intros Hh. unfold _write. rewrite Hh.
  destruct (write_error (res s) c); destruct (native_write _ _ _ _); reflexivity.
Qed.

Lemma _end_sent (s : session) (c e cb : value) :
  _header (res s) = true ->
  _end mw req s c e cb =
  (set_res (fst (native_end (res s) c e cb)) s,
   snd (native_end (res s) c e cb)).
Proof.
  intros Hh. unfold _end. rewrite Hh.
  destruct (end_error (res s) c); destruct (native_end _ _ _ _); reflexivity.
Qed.

Lemma _write_raises (s : session) (c e cb : value) (err : error) :
  write_error (res s) c = Some err ->
  _write mw req s c e cb = (s, Raise err).
Proof.
  intros Herr. unfold _write. rewrite Herr.
  unfold native_write. rewrite Herr. rewrite set_res_res. reflexivity.
Qed.

(** *** Before the decision *)

Lemma buffering_sent (s : session) : _header (res s) = true -> buffering s.
Proof. intros Hh Hf. congruence. Qed.

Lemma _write_buffering (s : session) (c e cb : value) :
  buffering s -> buffering (fst (_write mw req s c e cb)).
Proof.
  intros Hb. destruct (write_error (res s) c) as [err|] eqn:Herr.
  - rewrite (_write_raises s c e cb err Herr). exact Hb.
  - destruct (_header (res s)) eqn:Hh.
    + rewrite _write_sent by assumption. apply buffering_sent.
      apply native_write_frame, Hh.
    + unfold _write. rewrite Herr, Hh.
      pose proof (_implicitHeader_frame s) as (Hh' & _).
      pose proof (native_write_frame _ c e cb Hh') as Hn.
      destruct (native_write (res (_implicitHeader mw req s)) c e cb) as [r o].
      apply buffering_sent. exact Hn.
Qed.

Lemma _end_raises (s : session) (c e cb : value) (err : error) :
  end_error (res s) c = Some err ->
  _end mw req s c e cb = (s, Raise err).
Proof.
  intros Herr. unfold _end. rewrite Herr.
  unfold native_end. rewrite Herr. rewrite set_res_res. reflexivity.
Qed.

Lemma _end_buffering (s : session) (c e cb : value) :
  buffering s -> buffering (fst (_end mw req s c e cb)).
Proof.
  intros Hb. destruct (end_error (res s) c) as [err|] eqn:Herr.
  - rewrite (_end_raises s c e cb err Herr). exact Hb.
  - destruct (_header (res s)) eqn:Hh.
    + rewrite _end_sent by assumption. apply buffering_sent.
      apply native_end_frame, Hh.
    + unfold _end. rewrite Herr, Hh.
      pose proof (_implicitHeader_frame s) as (Hh' & _).
      pose proof (native_end_frame _ c e cb Hh') as Hn.
      destruct (native_end (res (_implicitHeader mw req s)) c e cb) as [r o].
      apply buffering_sent. exact Hn.
Qed.

(** Every call keeps the session buffering until the header is sent: the
    header listener, which runs when it is sent, always finds [listeners]
    an array and no stream. *)
Lemma step_buffering (s : session) (c : call) :
  buffering s -> buffering (fst (step mw req s c)).
Proof.
  intros Hb. destruct c as [c e cb|c e cb|ty l| |]; simpl.
  - unfold write. destruct (write_args e cb) as [e' cb'].
    destruct (is_null c); [apply _write_buffering, Hb|].
    destruct (is_string c || isUint8Array c); [|apply _write_buffering, Hb].
    destruct (_ || _ || _); [exact Hb|].
    destruct (_header (res s)) eqn:Hh.
    + destruct (stream s); [|apply _write_buffering, Hb].
      destruct (toBuffer c e'); apply buffering_sent; exact Hh.
    + pose proof (_implicitHeader_frame s) as (Hh' & _).
      destruct (stream (_implicitHeader mw req s));
        [|apply _write_buffering, buffering_sent, Hh'].
      destruct (toBuffer c e'); apply buffering_sent; exact Hh'.
  - unfold end_. destruct (end_args c e cb) as [[c' e'] cb'].
    destruct (_ || _ || _); [apply _end_buffering; exact Hb|].
    destruct (_header (res s)) eqn:Hh; cbn beta iota zeta.
    + destruct (stream s); [|apply _end_buffering, Hb].
      destruct (truthy c'); [destruct (toBuffer c' e')|];
        apply buffering_sent; exact Hh.
    + destruct (estimate s c' e') as [d|err]; [|exact Hb].
      pose proof (_implicitHeader_frame d) as (Hh' & _).
      destruct (stream (_implicitHeader mw req d));
        [|apply _end_buffering, buffering_sent, Hh'].
      destruct (truthy c'); [destruct (toBuffer c' e')|];
        apply buffering_sent; exact Hh'.
  - unfold on. intros Hh.
    assert (Hh0 : _header (res s) = false).
    { repeat case_match; exact Hh. }
    destruct (Hb Hh0) as [Hs [ls Hl]]. rewrite Hl, Hs.
    destruct (negb _); simpl; eauto.
  - unfold flush. intros Hh.
    assert (Hh0 : _header (res s) = false).
    { destruct (stream s); exact Hh. }
    destruct (Hb Hh0) as [Hs Hl]. rewrite Hs. split; assumption.
  - destruct (_header (res s)) eqn:Hh; [exact Hb|].
    apply buffering_sent, _implicitHeader_frame.
Qed.

Lemma run_buffering (cs : list call) (r : response) :
  buffering (run mw req (attach r) cs).
Proof.
  assert (Hgen : forall s, buffering s -> buffering (run mw req s cs)).
  { induction cs as [|c cs IH]; intros s Hb; [exact Hb|].
    unfold run in *. simpl. apply IH, step_buffering, Hb. }
  apply Hgen. intros _. split; [reflexivity|]. exists []. reflexivity.
Qed.

(** *** After the decision *)

(** Once routing is decided it stays decided: no call reopens the buffer or
    takes the stream away. *)
Lemma step_decided (s : session) (c : call) :
  decided s -> decided (fst (step mw req s c)).
Proof.
  intros [Hh Hd]. destruct c as [c e cb|c e cb|ty l| |]; simpl.
  - unfold write.
    pose proof (native_write_frame (res s) c e cb Hh) as Hn.
    destruct (write_args e cb) as [e' cb'].
    pose proof (native_write_frame (res s) c e' cb' Hh) as Hn'.
    rewrite Hh.
    repeat case_match; rewrite ?(_write_sent s) by assumption; simpl;
      split; try assumption;
      destruct Hd as [[Hl Hs]|(z' & ls' & Hs & Hl)]; try congruence; eauto.
  - unfold end_. destruct (end_args c e cb) as [[c' e'] cb'].
    pose proof (native_end_frame (res s) c' e' cb' Hh) as Hn.
    pose proof (native_end_frame (set_finished (ended s) (res s)) c' e' cb' Hh) as Hn'.
    rewrite Hh. rewrite (_end_sent s) by assumption.
    rewrite (_end_sent (set_res (set_finished (ended s) (res s)) s)) by assumption.
    repeat case_match; simpl; split; try assumption;
      destruct Hd as [[Hl Hs]|(z' & ls' & Hs & Hl)]; try congruence; eauto.
  - unfold on.
    repeat case_match; simpl; split; try assumption;
      destruct Hd as [[Hl Hs]|(z' & ls' & Hs & Hl)]; try congruence; eauto.
  - unfold flush.
    repeat case_match; simpl; split; try assumption;
      destruct Hd as [[Hl Hs]|(z' & ls' & Hs & Hl)]; try congruence; eauto.
  - rewrite Hh. split; assumption.
Qed.

Lemma run_decided (cs : list call) :
  forall s : session, decided s -> decided (run mw req s cs).
Proof.
  induction cs as [|c cs IH]; intros s Hd; [exact Hd|].
  unfold run in *. simpl. apply IH, step_decided, Hd.
Qed.

(** On a decided session a drain listener never enters the buffer: it goes
    to the stream when there is one, to the raw transport otherwise. *)
Lemma on_decided (s : session) (l : fn) :
  decided s ->
  listeners (fst (on s "drain" l)) = listeners s /\
  ((stream s = None /\
    on s "drain" l = (set_res (_on (res s) "drain" l) s, Return this_res)) \/
   (exists z, stream s = Some z /\
      on s "drain" l =
      (set_stream (Some (stream_on z "drain" l)) s, Return this_stream))).
Proof.
  intros [_ [[Hl Hs]|(z & ls & Hs & Hl)]]; unfold on; rewrite Hl.
  - simpl. split; [assumption|]. left. split; [assumption|reflexivity].
  - rewrite Hs. simpl. split; [assumption|]. right. exists z. split; reflexivity.
Qed.

(** C9, as amended: when the header listener has run, buffering is over
    on both paths, but only the decline path sets the buffer to null.  On
    the decline path the buffered listeners are registered on the raw
    transport and [listeners] is null; on the accept path they are
    registered on the stream and the buffer is kept as it was.  From then
    on, after any further calls, a drain listener never enters the buffer:
    it is registered on the raw transport when there is no stream and on
    the stream when there is one. *)
Theorem decision_ends_buffering (s : session) (ls : list (string * fn)) :
  listeners s = Some ls ->
  stream s = None ->
  let s' := _implicitHeader mw req s in
  ((listeners s' = None /\ stream s' = None /\
    events (res s') = (events (res s) ++ ls)%list) \/
   (exists z, stream s' = Some z /\ listeners s' = Some ls /\
      z_events z = (ls ++ [("data", onStreamData); ("end", onStreamEnd)])%list /\
      events (res s') = (events (res s) ++ [("drain", onResponseDrain)])%list)) /\
  (forall (cs : list call) (l : fn),
     let s2 := run mw req s' cs in
     listeners (fst (on s2 "drain" l)) = listeners s2 /\
     ((stream s2 = None /\
       on s2 "drain" l = (set_res (_on (res s2) "drain" l) s2, Return this_res)) \/
      (exists z, stream s2 = Some z /\
         on s2 "drain" l =
         (set_stream (Some (stream_on z "drain" l)) s2, Return this_stream)))).
Proof.
  intros Hl Hs s'.
  assert (Hpaths :
    (listeners s' = None /\ stream s' = None /\
     events (res s') = (events (res s) ++ ls)%list) \/
    (exists z, stream s' = Some z /\ listeners s' = Some ls /\
       z_events z = (ls ++ [("data", onStreamData); ("end", onStreamEnd)])%list /\
       events (res s') = (events (res s) ++ [("drain", onResponseDrain)])%list)).
  { unfold s', _implicitHeader.
    destruct (onResponseHeaders_cases s ls Hl) as [-> | [-> | (m & _ & _ & _ & ->)]].
    - left. destruct (nocompress_listeners s ls Hl) as [Hn He].
      destruct (nocompress_frame s) as (_ & _ & _ & _ & _ & _ & _ & Hst).
      simpl. repeat split; congruence.
    - left.
      destruct (nocompress_listeners (set_res (vary (res s) "Accept-Encoding") s)
                  ls Hl) as [Hn He].
      destruct (nocompress_frame (set_res (vary (res s) "Accept-Encoding") s))
        as (_ & _ & _ & _ & _ & _ & _ & Hst).
      destruct (vary_frame (res s) "Accept-Encoding") as (_ & _ & _ & Hev & _).
      simpl in *. repeat split; congruence.
    - right. destruct (compressing_codec s m ls) as (z & Hz & _ & _ & Hze & _).
      exists z. unfold compressing in *. simpl in *. repeat split; assumption. }
  split; [exact Hpaths|].
  intros cs l s2.
  assert (Hd : decided s').
  { split; [apply _implicitHeader_frame|].
    destruct Hpaths as [(Hn & Hst & _) | (z & Hz & Hk & _)]; [left|right]; eauto. }
  apply on_decided, run_decided, Hd.
Qed.

(** *** Calls the proxy hands to the transport *)

(** C8: a write whose chunk is null, or neither a string nor a Uint8Array,
    is the original write with the arguments as given, in whatever state
    the session is: the session is left untouched (no header is sent, no
    stream is written) and the transport's own null-value or type error is
    what the call raises. *)
Theorem invalid_chunk_is_forwarded (s : session) (chunk encoding callback : value) :
  is_null chunk = true \/ valid_chunk chunk = false ->
  write mw req s chunk encoding callback =
    _write mw req s chunk encoding callback /\
  fst (write mw req s chunk encoding callback) = s /\
  snd (write mw req s chunk encoding callback) =
    Raise (if is_null chunk then ERR_STREAM_NULL_VALUES
           else ERR_INVALID_ARG_TYPE).
Proof.
  intros Hbad.
  assert (Hw : write mw req s chunk encoding callback =
               _write mw req s chunk encoding callback).
  { unfold write. destruct Hbad as [Hn | Hv]; [rewrite Hn; reflexivity|].
    unfold valid_chunk in Hv. rewrite Hv.
    destruct (is_null chunk); reflexivity. }
  assert (Herr : write_error (res s) chunk =
                 Some (if is_null chunk then ERR_STREAM_NULL_VALUES
                       else ERR_INVALID_ARG_TYPE)).
  { unfold write_error. destruct Hbad as [Hn | Hv]; [rewrite Hn; reflexivity|].
    rewrite Hv. destruct (is_null chunk); reflexivity. }
  rewrite Hw, (_write_raises s chunk encoding callback _ Herr).
  repeat split; reflexivity.
Qed.

(** C10: [flush] is there on every response and never raises.  With a
    stream installed it flushes that stream, once per call; before the
    decision and in pass-through mode it does nothing. *)
Theorem flush_flushes_the_stream (s : session) :
  (forall z, stream s = Some z ->
     flush s = (set_stream (Some (stream_flush z)) s, Return VUndefined) /\
     z_flushes (stream_flush z) = S (z_flushes z) /\
     z_input (stream_flush z) = z_input z) /\
  (pristine s \/ pass_through s -> flush s = (s, Return VUndefined)) /\
  snd (flush s) = Return VUndefined.
Proof.
  unfold flush. split; [|split].
  - intros z Hz. rewrite Hz. repeat split; reflexivity.
  - intros [Hp | Hp].
    + destruct Hp as (_ & _ & _ & _ & Hs & _). rewrite Hs. reflexivity.
    + destruct Hp as (_ & Hs & _). rewrite Hs. reflexivity.
  - destruct (stream s); reflexivity.
Qed.

(** *** Ending twice *)

(** After an end on a compressing session, a second end sets the finished
    flag from [ended] and is the native end of a finished response. *)
Lemma end_again_compressing (s : session) (c e cb : value) :
  _header (res s) = true -> ended s = true ->
  end_ mw req s c e cb =
    (let '(c', e', cb') := end_args c e cb in
     _end mw req (set_res (set_finished true (res s)) s) c' e' cb') /\
  exists err, snd (end_ mw req s c e cb) = Raise err /\
    (err = ERR_STREAM_WRITE_AFTER_END \/ err = ERR_STREAM_ALREADY_FINISHED).
Proof.
  intros Hh He. unfold end_. destruct (end_args c e cb) as [[c' e'] cb'].
  rewrite He, !orb_true_r. split; [reflexivity|].
  rewrite _end_sent by assumption. unfold native_end, end_error. simpl.
  destruct (truthy c'); eexists; split; try reflexivity; auto.
Qed.

(** In pass-through mode the first end finishes the response and leaves
    [ended] false; the second end then clears the finished flag, so the
    native end it delegates to sees an open response and raises nothing,
    where the native end called twice raises. *)
Lemma end_again_pass_through (s : session) (c1 e1 cb1 c2 e2 cb2 : value) :
  pass_through s -> valid_last c1 -> valid_last c2 ->
  let s1 := fst (end_ mw req s c1 e1 cb1) in
  finished (res s1) = true /\ ended s1 = false /\
  snd (end_ mw req s1 c2 e2 cb2) = Return this_res /\
  snd (_end mw req s1 c2 e2 cb2) =
    Raise (if truthy c2 then ERR_STREAM_WRITE_AFTER_END
           else ERR_STREAM_ALREADY_FINISHED).
Proof.
  intros Hp Hc1 Hc2 s1. unfold s1.
  rewrite (end_pass_through s c1 e1 cb1 Hp Hc1). simpl.
  destruct Hp as (Hh & Hs & Hf & Hd & He).
  set (r1 := if truthy c1 then _ else _).
  assert (Hr1 : _header r1 = true /\ destroyed r1 = false).
  { unfold r1. destruct (truthy c1); simpl; auto. }
  destruct Hr1 as [Hh1 Hd1].
  split; [reflexivity|]. split; [assumption|]. split.
  - pose proof (end_args_chunk c2 e2 cb2 (valid_last_not_function c2 Hc2)) as Ha.
    unfold end_. destruct (end_args c2 e2 cb2) as [[c' e'] cb']. simpl in Ha.
    subst c'. simpl. rewrite He, orb_true_r. simpl.
    rewrite _end_sent by (simpl; assumption).
    unfold native_end, end_error. simpl. rewrite Hd1.
    destruct Hc2 as [-> | Hv]; [reflexivity|]. rewrite Hv, andb_false_r.
    reflexivity.
  - reflexivity.
Qed.

End Properties.

(** * The properties at work *)

Lemma Node_accepts_encoding_sound (req : request) (offered : list string)
    (m : string) :
  Node.accepts_encoding req offered = Some m -> In m offered.
Proof.
  unfold Node.accepts_encoding. destruct (fold_left _ _ _) as [p|]; [|discriminate].
  intros Hm. apply list_elem_of_In. eapply list_elem_of_lookup_2. exact Hm.
Qed.

(** The no-transform pattern on a few header values: the directive alone or
    in a list, with spaces around it; not as part of a longer token, and not
    in another case. *)
Example no_transform_pattern :
  cacheControlNoTransformRegExp "no-transform" = true /\
  cacheControlNoTransformRegExp "no-cache, no-transform" = true /\
  cacheControlNoTransformRegExp "public,  no-transform  ,max-age=60" = true /\
  cacheControlNoTransformRegExp "no-transformer" = false /\
  cacheControlNoTransformRegExp "x-no-transform" = false /\
  cacheControlNoTransformRegExp "No-Transform" = false /\
  cacheControlNoTransformRegExp "" = false.
Proof. repeat split; reflexivity. Qed.

(** The white space around the directive may be a no-break space, U+00A0,
    which the class of the regular expression contains. *)
Example no_transform_pattern_no_break_space :
  cacheControlNoTransformRegExp
    ("no-transform" +:+ String (ascii_of_nat 160) EmptyString) = true /\
  cacheControlNoTransformRegExp
    ("public," +:+ String (ascii_of_nat 160) "no-transform") = true /\
  cacheControlNoTransformRegExp
    ("no-transform" +:+ String (ascii_of_nat 133) EmptyString) = false.
Proof. repeat split; reflexivity. Qed.

(** The reference negotiator on the requests of the examples. *)
Example negotiation_examples :
  @negotiate Node.collaborators (GET [("gzip", 1000); ("deflate", 1000)])
    = Some "gzip" /\
  @negotiate Node.collaborators (GET [("deflate", 1000); ("gzip", 1000)])
    = Some "gzip" /\
  @negotiate Node.collaborators (GET [("deflate", 1000)]) = Some "deflate" /\
  @negotiate Node.collaborators (GET [("br", 1000); ("gzip", 1000)])
    = Some "br" /\
  @negotiate Node.collaborators
    (GET [("deflate", 1000); ("identity", 800); ("gzip", 500)])
    = Some "identity" /\
  @negotiate Node.collaborators {| method := "GET"; accept_encoding := None |}
    = Some "identity".
Proof. repeat split; vm_compute; reflexivity. Qed.

Lemma pristine_attach (r : response) :
  _header r = false -> finished r = false -> destroyed r = false ->
  pristine (attach r).
Proof. intros Hh Hf Hd. repeat split; try assumption. exists []. reflexivity. Qed.

(** C1, counterexample: a text/html response with no Content-Length, first
    written to (so that no length is estimated), on a request that accepts
    gzip.  Its size is unresolved, and it is compressed: the write installs a
    gzip stream, the chunk goes into the stream and nothing to the
    transport. *)
Lemma unresolved_size_is_compressed :
  let req := GET [("gzip", 1000)] in
  let s := attach html in
  let s' := fst (@write Node.collaborators default_mw req s
                   (VString "hello") VUndefined VUndefined) in
  getHeader "Content-Length" (res s) = None /\
  length_ s = None /\
  stream (@onResponseHeaders Node.collaborators default_mw req s) <> None /\
  (exists z, stream s' = Some z /\ z_codec z = Gzip /\
             z_input z = [(list_byte_of_string "hello", VUndefined)]) /\
  getHeader "Content-Encoding" (res s') = Some (HStr "gzip") /\
  output (res s') = [].
Proof.
  cbv zeta. split; [reflexivity|]. split; [reflexivity|].
  split; [vm_compute; discriminate|].
  split; [eexists; vm_compute; repeat split; reflexivity|].
  split; vm_compute; reflexivity.
Qed.

(** C1 at work: the same response and request, seen through the theorem. *)
Lemma unresolved_size_passes_threshold_witness :
  let req := GET [("gzip", 1000)] in
  let s := attach html in
  @above_threshold Node.collaborators default_mw s = true /\
  exists m z,
    @negotiate Node.collaborators req = Some m /\
    @onResponseHeaders Node.collaborators default_mw req s =
      @compressing Node.collaborators default_mw s m [] /\
    stream (@onResponseHeaders Node.collaborators default_mw req s) = Some z /\
    getHeader "Content-Encoding"
      (res (@onResponseHeaders Node.collaborators default_mw req s))
      = Some (HStr m).
Proof.
  cbv zeta.
  destruct (@unresolved_size_passes_threshold Node.collaborators default_mw
              (GET [("gzip", 1000)]) (attach html) [])
    as (Ha & Hc & _); [reflexivity | reflexivity | reflexivity |].
  split; [exact Ha|]. apply Hc; vm_compute; reflexivity.
Defined.

(** C2 at work: a body of 4 bytes sent as a single end with its encoding,
    with no Content-Length, under the default threshold of 1024. *)
Lemma below_threshold_pass_through_witness :
  let req := GET [("gzip", 1000)] in
  let s := attach html in
  let last := (VString "tiny", VString "utf8", VUndefined) in
  let s' := @run Node.collaborators default_mw req s (body [] last) in
  @spec_body_size Node.collaborators s [] last = Some 4 /\
  getHeader "Content-Encoding" (res s') = None /\
  stream s' = None /\
  output (res s') = [(VString "tiny", VString "utf8")].
Proof.
  cbv zeta. split; [reflexivity|].
  destruct (@below_threshold_pass_through Node.collaborators default_mw
              (GET [("gzip", 1000)]) (attach html) 4 []
              (VString "tiny", VString "utf8", VUndefined))
    as (Hce & Hs & Ho).
  - apply pristine_attach; reflexivity.
  - intros c e Hc. destruct c; try discriminate Hc; eexists; reflexivity.
  - constructor.
  - right. reflexivity.
  - reflexivity.
  - vm_compute. reflexivity.
  - split; [rewrite Hce; reflexivity|]. split; [exact Hs|].
    rewrite Ho. reflexivity.
Defined.

(** C3 at work: a large text/html response marked no-transform, sent as a
    write with a callback and an end. *)
Lemma no_transform_pass_through_witness :
  let req := GET [("gzip", 1000)] in
  let r := setHeader "Cache-Control" (HStr "no-cache, no-transform")
             (sized 5000 html) in
  let s' := @run Node.collaborators default_mw req (attach r)
              (body [(VString "bo", VFunction (user_fn 0), VUndefined)]
                 (VString "dy", VString "latin1", VUndefined)) in
  headers (res s') = headers r /\
  getHeader "Vary" (res s') = None /\
  stream s' = None /\
  output (res s') = [(VString "bo", VUndefined); (VString "dy", VString "latin1")].
Proof.
  cbv zeta.
  destruct (@no_transform_pass_through Node.collaborators default_mw
              (GET [("gzip", 1000)])
              (attach (setHeader "Cache-Control" (HStr "no-cache, no-transform")
                         (sized 5000 html)))
              "no-cache, no-transform"
              [(VString "bo", VFunction (user_fn 0), VUndefined)]
              (VString "dy", VString "latin1", VUndefined))
    as (Hh & Hv & Hs & Ho).
  - apply pristine_attach; reflexivity.
  - intros c e Hc. destruct c; try discriminate Hc; eexists; reflexivity.
  - repeat constructor.
  - right. reflexivity.
  - reflexivity.
  - vm_compute. reflexivity.
  - split; [exact Hh|]. split; [rewrite Hv; reflexivity|].
    split; [exact Hs|]. rewrite Ho. reflexivity.
Defined.

(** C4 at work: a HEAD request is declined, with Vary written. *)
Lemma vary_written_whatever_follows_witness :
  let req := HEAD [("gzip", 1000)] in
  let s := attach (sized 5000 html) in
  stream (@onResponseHeaders Node.collaborators default_mw req s) = None /\
  getHeader "Vary" (res (@onResponseHeaders Node.collaborators default_mw req s))
    = Some (HStr "Accept-Encoding").
Proof.
  cbv zeta. split; [vm_compute; reflexivity|].
  destruct (@vary_written_whatever_follows Node.collaborators default_mw
              (HEAD [("gzip", 1000)]) (attach (sized 5000 html)))
    as [_ Hv]; [vm_compute; reflexivity | vm_compute; reflexivity |].
  apply Hv; [vm_compute; reflexivity | discriminate].
Defined.

(** C5, counterexample: a request that accepts gzip and deflate, and brotli
    as well.  The response is eligible and above the threshold; the method
    negotiated is br and the stream installed is a brotli stream, not gzip. *)
Lemma brotli_selected_before_gzip :
  let req := GET [("br", 1000); ("gzip", 1000); ("deflate", 1000)] in
  let s := attach (sized 5000 html) in
  Node.accepts_encoding req ["gzip"] = Some "gzip" /\
  Node.accepts_encoding req ["deflate"] = Some "deflate" /\
  @eligible Node.collaborators default_mw req s = true /\
  @above_threshold Node.collaborators default_mw s = true /\
  @negotiate Node.collaborators req = Some "br" /\
  @negotiate Node.collaborators req <> Some "gzip" /\
  (exists z, stream (@onResponseHeaders Node.collaborators default_mw req s)
               = Some z /\ z_codec z = Brotli) /\
  getHeader "Content-Encoding"
    (res (@onResponseHeaders Node.collaborators default_mw req s))
    = Some (HStr "br").
Proof.
  cbv zeta. repeat (split; [vm_compute; reflexivity|]).
  split; [vm_compute; discriminate|].
  split; [eexists; vm_compute; split; reflexivity|].
  vm_compute. reflexivity.
Qed.

(** C5 at work: Accept-Encoding: deflate, gzip.  The first negotiation
    returns deflate, the second gzip, and the stream is a gzip stream. *)
Lemma deflate_gives_way_to_gzip_witness :
  let req := GET [("deflate", 1000); ("gzip", 1000)] in
  let s := attach (sized 5000 html) in
  Node.accepts_encoding req ["br"; "gzip"; "deflate"; "identity"]
    = Some "deflate" /\
  @negotiate Node.collaborators req = Some "gzip" /\
  exists z, stream (@onResponseHeaders Node.collaborators default_mw req s)
              = Some z /\
            z_codec z = Gzip /\
            getHeader "Content-Encoding"
              (res (@onResponseHeaders Node.collaborators default_mw req s))
              = Some (HStr "gzip").
Proof.
  cbv zeta. split; [vm_compute; reflexivity|].
  destruct (@deflate_gives_way_to_gzip Node.collaborators default_mw
              (GET [("deflate", 1000); ("gzip", 1000)])
              (attach (sized 5000 html)) [])
    as (_ & _ & Hg).
  - intros offered m. apply Node_accepts_encoding_sound.
  - vm_compute. reflexivity.
  - vm_compute. reflexivity.
  - destruct Hg as [Hn Hz].
    + right. split; vm_compute; reflexivity.
    + split; [exact Hn|]. apply Hz; vm_compute; reflexivity.
Defined.

(** C6, counterexample: a middleware configured with level 9, on a request
    that accepts brotli.  The brotli stream is created without the options. *)
Lemma brotli_created_without_options :
  let req := GET [("br", 1000)] in
  let s := attach (sized 5000 html) in
  opt_zlib (opts tuned_mw) !! "level" = Some 9 /\
  exists z, stream (@onResponseHeaders Node.collaborators tuned_mw req s)
              = Some z /\
            z_codec z = Brotli /\
            z_options z = None /\
            z_options z <> Some (opts tuned_mw).
Proof.
  cbv zeta. split; [vm_compute; reflexivity|].
  eexists. split; [vm_compute; reflexivity|].
  split; [reflexivity|]. split; [reflexivity|discriminate].
Qed.

(** C6 at work: the same middleware on a request that accepts deflate. *)
Lemma accept_installs_stream_witness :
  let req := GET [("deflate", 1000)] in
  let s := attach (sized 5000 html) in
  exists z,
    stream (@onResponseHeaders Node.collaborators tuned_mw req s) = Some z /\
    z_codec z = Deflate /\ z_options z = Some (opts tuned_mw) /\
    getHeader "Content-Encoding"
      (res (@onResponseHeaders Node.collaborators tuned_mw req s))
      = Some (HStr "deflate") /\
    getHeader "Content-Length"
      (res (@onResponseHeaders Node.collaborators tuned_mw req s)) = None.
Proof.
  cbv zeta.
  destruct (@accept_installs_stream Node.collaborators tuned_mw
              (GET [("deflate", 1000)]) (attach (sized 5000 html)) [] "deflate")
    as (z & Hz & Hk & Hce & Hcl).
  - reflexivity.
  - vm_compute. reflexivity.
  - vm_compute. reflexivity.
  - vm_compute. reflexivity.
  - simpl. auto.
  - exists z. split; [exact Hz|].
    destruct Hk as [(Hm & _) | [(Hm & _) | (_ & Hc & Ho)]];
      [discriminate Hm | discriminate Hm |].
    repeat split; assumption.
Defined.

(** C7: ending twice a response left in pass-through mode (an image/png
    response, which the default filter declines).  The first end finishes
    the response while [ended] stays false; the second end sets the finished
    flag to [ended], that is false, and delegates: the native end sees an
    open response, raises nothing and hands the second chunk to the
    transport.  The native end called twice raises write-after-end here, as
    does the proxy's own write in the same state. *)
Lemma second_end_in_pass_through_raises_nothing :
  let req := GET [("gzip", 1000)] in
  let s1 := fst (@end_ Node.collaborators default_mw req (attach png)
                   (VString "a") VUndefined VUndefined) in
  let second := @end_ Node.collaborators default_mw req s1
                  (VString "b") VUndefined VUndefined in
  stream s1 = None /\ finished (res s1) = true /\ ended s1 = false /\
  snd second = Return this_res /\
  map fst (output (res (fst second))) = [VString "a"; VString "b"] /\
  snd (@_end Node.collaborators default_mw req s1
         (VString "b") VUndefined (VFunction noop))
    = Raise ERR_STREAM_WRITE_AFTER_END /\
  snd (@write Node.collaborators default_mw req s1
         (VString "b") VUndefined VUndefined)
    = Raise ERR_STREAM_WRITE_AFTER_END.
Proof. cbv zeta. repeat split; vm_compute; reflexivity. Qed.

(** C8 at work: a number written to a session that has already ended on a
    gzip stream still gets the transport's type error, and null its
    null-value error. *)
Lemma invalid_chunk_is_forwarded_witness :
  let req := GET [("gzip", 1000)] in
  let s := fst (@end_ Node.collaborators default_mw req (attach (sized 5000 html))
                  (VString "body") VUndefined VUndefined) in
  ended s = true /\
  @write Node.collaborators default_mw req s (VNumber 7) VUndefined VUndefined
    = (s, Raise ERR_INVALID_ARG_TYPE) /\
  @write Node.collaborators default_mw req s VNull VUndefined VUndefined
    = (s, Raise ERR_STREAM_NULL_VALUES).
Proof.
  cbv zeta. split; [vm_compute; reflexivity|].
  set (s := fst (@end_ Node.collaborators default_mw (GET [("gzip", 1000)]) _ _ _ _)).
  split.
  - destruct (@invalid_chunk_is_forwarded Node.collaborators default_mw
                (GET [("gzip", 1000)]) s (VNumber 7) VUndefined VUndefined)
      as (_ & Hs & Ho); [right; reflexivity|].
    rewrite (surjective_pairing (write _ _ _ _ _ _)), Hs, Ho. reflexivity.
  - destruct (@invalid_chunk_is_forwarded Node.collaborators default_mw
                (GET [("gzip", 1000)]) s VNull VUndefined VUndefined)
      as (_ & Hs & Ho); [left; reflexivity|].
    rewrite (surjective_pairing (write _ _ _ _ _ _)), Hs, Ho. reflexivity.
Defined.

(** C9, counterexample: a drain listener registered before the first write
    of a response that is then compressed.  After the decision the buffer
    still holds the listener: it has been copied to the stream, not
    cleared. *)
Lemma accept_path_keeps_the_buffer :
  let req := GET [("gzip", 1000)] in
  let s0 := fst (on (attach (sized 5000 html)) "drain" (user_fn 1)) in
  let s' := @_implicitHeader Node.collaborators default_mw req s0 in
  listeners s0 = Some [("drain", user_fn 1)] /\
  (exists z, stream s' = Some z /\ z_codec z = Gzip) /\
  listeners s' = Some [("drain", user_fn 1)] /\
  listeners s' <> None /\ listeners s' <> Some [].
Proof.
  cbv zeta. split; [reflexivity|].
  split; [eexists; vm_compute; split; reflexivity|].
  split; [vm_compute; reflexivity|].
  split; vm_compute; discriminate.
Qed.

(** C9 at work: the same session, two writes later.  A new drain listener
    goes to the stream and the buffer is as it was. *)
Lemma decision_ends_buffering_witness :
  let req := GET [("gzip", 1000)] in
  let s0 := fst (on (attach (sized 5000 html)) "drain" (user_fn 1)) in
  let s' := @_implicitHeader Node.collaborators default_mw req s0 in
  let s2 := @run Node.collaborators default_mw req s'
              [Write (VString "a") VUndefined VUndefined;
               Write (VString "b") VUndefined VUndefined] in
  listeners (fst (on s2 "drain" (user_fn 2))) = listeners s2 /\
  exists z, stream s2 = Some z /\
    on s2 "drain" (user_fn 2) =
    (set_stream (Some (stream_on z "drain" (user_fn 2))) s2, Return this_stream).
Proof.
  cbv zeta.
  destruct (@decision_ends_buffering Node.collaborators default_mw
              (GET [("gzip", 1000)])
              (fst (on (attach (sized 5000 html)) "drain" (user_fn 1)))
              [("drain", user_fn 1)])
    as [_ Hon]; [reflexivity | reflexivity |].
  destruct (Hon [Write (VString "a") VUndefined VUndefined;
                 Write (VString "b") VUndefined VUndefined] (user_fn 2))
    as [Hl [[Hnone _] | Hz]].
  - vm_compute in Hnone. discriminate Hnone.
  - split; [exact Hl | exact Hz].
Defined.

(** C10 at work: flushing twice a session that compresses, and once a
    session that has not decided yet. *)
Lemma flush_flushes_the_stream_witness :
  let req := GET [("gzip", 1000)] in
  let s := fst (@write Node.collaborators default_mw req (attach (sized 5000 html))
                  (VString "body") VUndefined VUndefined) in
  (exists z, stream (fst (flush (fst (flush s)))) = Some z /\ z_flushes z = 2%nat) /\
  flush (attach html) = (attach html, Return VUndefined).
Proof.
  cbv zeta. split.
  - set (s := fst (write _ _ _ _ _ _)).
    destruct (stream s) as [z|] eqn:Hz; [|vm_compute in Hz; discriminate Hz].
    destruct (flush_flushes_the_stream s) as (Hfl & _).
    destruct (Hfl z Hz) as (Hf1 & _). rewrite Hf1. cbn [fst].
    destruct (flush_flushes_the_stream (set_stream (Some (stream_flush z)) s))
      as (Hfl2 & _).
    destruct (Hfl2 (stream_flush z) eq_refl) as (Hf2 & _). rewrite Hf2.
    eexists. split; [reflexivity|]. simpl.
    vm_compute in Hz. injection Hz as <-. reflexivity.
  - destruct (flush_flushes_the_stream (attach html)) as (_ & Hnoop & _).
    apply Hnoop. left. apply pristine_attach; reflexivity.
Defined.

(** * Further properties of the middleware *)

Section Coverage.
Context `{Collaborators}.
Variable mw : middleware.
Variable req : request.

(** ** The decision *)

Lemma onResponseHeaders_declined (s : session) (ls : list (string * fn)) :
  listeners s = Some ls ->
  eligible mw req s && above_threshold mw s && negotiated req = false ->
  onResponseHeaders mw req s = nocompress s \/
  onResponseHeaders mw req s =
    nocompress (set_res (vary (res s) "Accept-Encoding") s).
Proof.
  intros Hl Hno. unfold eligible, above_threshold, negotiated in Hno.
  destruct (filter mw req (res s)) eqn:Hfi;
    [|left; unfold onResponseHeaders; rewrite Hfi; reflexivity].
  destruct (shouldTransform req (res s)) eqn:Htr;
    [|left; unfold onResponseHeaders; rewrite Hfi, Htr; reflexivity].
  right. rewrite (onResponseHeaders_after_vary mw req s ls) by assumption.
  cbv zeta.
  destruct (js_lt _ _ || js_lt _ _); [reflexivity|].
  destruct (identity_encoded (res s)); [|reflexivity].
  destruct (String.eqb (method req) "HEAD"); [reflexivity|].
  cbn [negb andb] in *.
  destruct (method_truthy (negotiate req)); [|reflexivity].
  destruct (method_is (negotiate req) "identity"); [reflexivity|discriminate Hno].
Qed.

(** The header listener installs a stream exactly when the filter passes,
    no-transform is absent, the size is not below the threshold, no coding
    is set yet, the request is not a HEAD and the negotiation yields a
    method other than identity.  When it does not, it closes the buffer onto
    the raw transport and leaves Content-Encoding and Content-Length as they
    were. *)
Theorem decision_characterised (s : session) (ls : list (string * fn)) :
  listeners s = Some ls ->
  stream s = None ->
  (stream (onResponseHeaders mw req s) <> None <->
   eligible mw req s && above_threshold mw s && negotiated req = true) /\
  (eligible mw req s && above_threshold mw s && negotiated req = false ->
   listeners (onResponseHeaders mw req s) = None /\
   events (res (onResponseHeaders mw req s)) = (events (res s) ++ ls)%list /\
   getHeader "Content-Encoding" (res (onResponseHeaders mw req s))
     = getHeader "Content-Encoding" (res s) /\
   getHeader "Content-Length" (res (onResponseHeaders mw req s))
     = getHeader "Content-Length" (res s)).
Proof.
  intros Hl Hs.
  assert (Hdecl : eligible mw req s && above_threshold mw s && negotiated req = false ->
    stream (onResponseHeaders mw req s) = None /\
    listeners (onResponseHeaders mw req s) = None /\
    events (res (onResponseHeaders mw req s)) = (events (res s) ++ ls)%list /\
    getHeader "Content-Encoding" (res (onResponseHeaders mw req s))
      = getHeader "Content-Encoding" (res s) /\
    getHeader "Content-Length" (res (onResponseHeaders mw req s))
      = getHeader "Content-Length" (res s)).
  { intros Hno.
    destruct (onResponseHeaders_declined s ls Hl Hno) as [-> | ->].
    - destruct (nocompress_frame s) as (Hh & _ & _ & _ & _ & _ & _ & Hst).
      destruct (nocompress_listeners s ls Hl) as [Hn He].
      unfold getHeader. rewrite Hh. repeat split; congruence.
    - set (v := set_res (vary (res s) "Accept-Encoding") s).
      destruct (nocompress_frame v) as (Hh & _ & _ & _ & _ & _ & _ & Hst).
      destruct (nocompress_listeners v ls Hl) as [Hn He].
      destruct (vary_frame (res s) "Accept-Encoding") as (_ & _ & _ & Hev & _).
      pose proof (vary_other (res s) "Accept-Encoding" "Content-Encoding") as Hce.
      pose proof (vary_other (res s) "Accept-Encoding" "Content-Length") as Hcl.
      unfold getHeader in *. rewrite Hh. unfold v in *. cbn [res set_res stream] in *.
      split; [congruence|]. split; [assumption|]. split; [congruence|].
      split; [apply Hce | apply Hcl]; discriminate. }
  split; [|intros Hno; apply Hdecl, Hno].
  destruct (eligible mw req s && above_threshold mw s && negotiated req) eqn:Hall.
  - split; [reflexivity|]. intros _.
    apply andb_prop in Hall as [Hall Hn]. apply andb_prop in Hall as [He Ha].
    rewrite (onResponseHeaders_eligible mw req s ls Hl He Ha), Hn.
    destruct (compressing_codec mw s (default "" (negotiate req)) ls) as (z & Hz & _).
    rewrite Hz. discriminate.
  - split; [|discriminate]. intros Hne. destruct (Hdecl eq_refl) as [Hst _].
    contradiction.
Qed.

(** The header listener writes three headers at most, Vary, Content-Encoding
    and Content-Length: any other header is as it was. *)
Lemma onResponseHeaders_other (s : session) (name : string) :
  name <> "Vary" -> name <> "Content-Encoding" -> name <> "Content-Length" ->
  getHeader name (res (onResponseHeaders mw req s)) = getHeader name (res s).
Proof.
  intros Hv Hce Hcl.
  pose proof (nocompress_frame s) as (Hs & _).
  pose proof (nocompress_frame (set_res (vary (res s) "Accept-Encoding") s))
    as (Hn & _).
  cbn [res set_res] in Hn.
  pose proof (vary_other (res s) "Accept-Encoding" name Hv) as Hvo.
  unfold getHeader in *. unfold onResponseHeaders.
  repeat case_match; rewrite ?Hs, ?Hn; try assumption; try reflexivity.
  all: unfold set_stream, set_res, _on, add_event, removeHeader, setHeader;
    simpl; rewrite lookup_delete_ne by congruence;
    rewrite lookup_insert_ne by congruence; exact Hvo.
Qed.

(** ** What the calls do to the headers and to the stream *)

Lemma native_write_headers (r : response) (c e cb : value) :
  headers (fst (native_write r c e cb)) = headers r.
Proof. unfold native_write. destruct (write_error r c); reflexivity. Qed.

Lemma native_end_headers (r : response) (c e cb : value) :
  headers (fst (native_end r c e cb)) = headers r.
Proof.
  unfold native_end. destruct (end_error r c); [reflexivity|].
  destruct (truthy c); reflexivity.
Qed.

Lemma _write_fst (s : session) (c e cb : value) :
  exists s1, (s1 = s \/ (_header (res s) = false /\ s1 = _implicitHeader mw req s)) /\
    fst (_write mw req s c e cb) =
      set_res (fst (native_write (res s1) c e cb)) s1.
Proof.
  unfold _write.
  destruct (write_error (res s) c); [|destruct (_header (res s)) eqn:Hh].
  - exists s. split; [auto|]. destruct (native_write _ c e cb); reflexivity.
  - exists s. split; [auto|]. destruct (native_write _ c e cb); reflexivity.
  - exists (_implicitHeader mw req s). split; [auto|].
    destruct (native_write _ c e cb); reflexivity.
Qed.

Lemma _end_fst (s : session) (c e cb : value) :
  exists s1, (s1 = s \/ (_header (res s) = false /\ s1 = _implicitHeader mw req s)) /\
    fst (_end mw req s c e cb) =
      set_res (fst (native_end (res s1) c e cb)) s1.
Proof.
  unfold _end.
  destruct (end_error (res s) c); [|destruct (_header (res s)) eqn:Hh].
  - exists s. split; [auto|]. destruct (native_end _ c e cb); reflexivity.
  - exists s. split; [auto|]. destruct (native_end _ c e cb); reflexivity.
  - exists (_implicitHeader mw req s). split; [auto|].
    destruct (native_end _ c e cb); reflexivity.
Qed.

(** A call leaves the headers alone, unless it is the one that sends the
    header: then they are what the header listener leaves. *)
Lemma step_headers (s : session) (c : call) :
  headers (res (fst (step mw req s c))) = headers (res s) \/
  (_header (res s) = false /\
   exists d, headers (res d) = headers (res s) /\
     headers (res (fst (step mw req s c))) =
     headers (res (onResponseHeaders mw req d))).
Proof.
  assert (Hw : forall s c e cb,
    headers (res (fst (_write mw req s c e cb))) = headers (res s) \/
    (_header (res s) = false /\
     headers (res (fst (_write mw req s c e cb))) =
     headers (res (onResponseHeaders mw req s)))).
  { intros s0 c0 e cb. destruct (_write_fst s0 c0 e cb) as (s1 & [-> | [Hh ->]] & ->);
      cbn [res set_res]; rewrite native_write_headers; [left; reflexivity|].
    right. split; [assumption|]. apply _implicitHeader_frame. }
  assert (He : forall s c e cb,
    headers (res (fst (_end mw req s c e cb))) = headers (res s) \/
    (_header (res s) = false /\
     headers (res (fst (_end mw req s c e cb))) =
     headers (res (onResponseHeaders mw req s)))).
  { intros s0 c0 e cb. destruct (_end_fst s0 c0 e cb) as (s1 & [-> | [Hh ->]] & ->);
      cbn [res set_res]; rewrite native_end_headers; [left; reflexivity|].
    right. split; [assumption|]. apply _implicitHeader_frame. }
  destruct c as [c e cb|c e cb|ty l| |]; cbn [step].
  - unfold write. destruct (write_args e cb) as [e' cb'].
    destruct (is_null c).
    { destruct (Hw s c e cb) as [Hl | [Hh Hr]]; [left; exact Hl|].
      right. split; [assumption|]. exists s. split; [reflexivity|exact Hr]. }
    destruct (is_string c || isUint8Array c).
    2:{ destruct (Hw s c e cb) as [Hl | [Hh Hr]]; [left; exact Hl|].
        right. split; [assumption|]. exists s. split; [reflexivity|exact Hr]. }
    destruct (_ || _ || _); [left; reflexivity|].
    destruct (_header (res s)) eqn:Hh.
    + destruct (stream s); [left; destruct (toBuffer c e'); reflexivity|].
      destruct (Hw s c e' cb') as [Hl | [Hh' _]]; [left; exact Hl|congruence].
    + destruct (_implicitHeader_frame mw req s) as (Hh1 & _ & _ & _ & _ & Hhd & _).
      right. split; [reflexivity|]. exists s. split; [reflexivity|].
      destruct (stream (_implicitHeader mw req s));
        [destruct (toBuffer c e'); exact Hhd|].
      destruct (Hw (_implicitHeader mw req s) c e' cb') as [Hl | [Hh' _]];
        [congruence|congruence].
  - unfold end_. destruct (end_args c e cb) as [[c' e'] cb'].
    destruct (_ || _ || _).
    { set (s2 := set_res (set_finished (ended s) (res s)) s).
      destruct (He s2 c' e' cb') as [Hl | [Hh Hr]]; [left; exact Hl|].
      right. split; [exact Hh|]. exists s2. split; [reflexivity|exact Hr]. }
    destruct (_header (res s)) eqn:Hh; cbn beta iota zeta.
    + destruct (stream s).
      * left. destruct (truthy c'); [destruct (toBuffer c' e')|]; reflexivity.
      * destruct (He s c' e' cb') as [Hl | [Hh' _]]; [left; exact Hl|congruence].
    + destruct (estimate s c' e') as [d|err] eqn:Hest; [|left; reflexivity].
      destruct (estimate_frame s d c' e' Hest) as (Hres & _).
      destruct (_implicitHeader_frame mw req d) as (Hh1 & _ & _ & _ & _ & Hhd & _).
      right. split; [reflexivity|]. exists d. split; [rewrite Hres; reflexivity|].
      destruct (stream (_implicitHeader mw req d)).
      * destruct (truthy c'); [destruct (toBuffer c' e')|]; exact Hhd.
      * destruct (He (_implicitHeader mw req d) c' e' cb') as [Hl | [Hh' _]];
          [congruence|congruence].
  - left. unfold on. repeat case_match; reflexivity.
  - left. unfold flush. destruct (stream s); reflexivity.
  - destruct (_header (res s)) eqn:Hh; [left; reflexivity|].
    right. split; [reflexivity|]. exists s. split; [reflexivity|].
    apply _implicitHeader_frame.
Qed.

(** Whatever is called on the response, and in whatever state, the
    middleware changes no header other than Vary, Content-Encoding and
    Content-Length. *)
Theorem other_headers_untouched (cs : list call) (name : string) :
  name <> "Vary" -> name <> "Content-Encoding" -> name <> "Content-Length" ->
  forall s : session,
    getHeader name (res (run mw req s cs)) = getHeader name (res s).
Proof.
  intros Hv Hce Hcl. induction cs as [|c cs IH]; intros s; [reflexivity|].
  unfold run in *. cbn [fold_left]. rewrite IH.
  destruct (step_headers s c) as [Heq | (_ & d & Hd & Heq)];
    unfold getHeader in *; rewrite Heq; [reflexivity|].
  rewrite <- Hd. apply onResponseHeaders_other; assumption.
Qed.

Lemma step_header_sent (s : session) (c : call) :
  _header (res s) = true -> _header (res (fst (step mw req s c))) = true.
Proof.
  intros Hh. destruct c as [c e cb|c e cb|ty l| |]; cbn [step].
  - unfold write. destruct (write_args e cb) as [e' cb']. rewrite Hh.
    repeat case_match; rewrite ?(_write_sent mw req s) by assumption;
      cbn [fst res set_res set_stream]; try assumption;
      apply native_write_frame, Hh.
  - unfold end_. destruct (end_args c e cb) as [[c' e'] cb']. rewrite Hh.
    repeat case_match; rewrite ?_end_sent by assumption;
      cbn [fst res set_res set_stream set_ended]; try assumption;
      apply native_end_frame; assumption.
  - unfold on. repeat case_match; assumption.
  - unfold flush. destruct (stream s); assumption.
  - rewrite Hh. assumption.
Qed.

Lemma step_stream_kept (s : session) (c : call) :
  _header (res s) = true ->
  match stream s with
  | Some z => exists z', stream (fst (step mw req s c)) = Some z' /\
                z_codec z' = z_codec z /\ z_options z' = z_options z
  | None => stream (fst (step mw req s c)) = None
  end.
Proof.
  intros Hh. destruct c as [c e cb|c e cb|ty l| |]; cbn [step].
  - unfold write. destruct (write_args e cb) as [e' cb']. rewrite Hh.
    destruct (stream s) as [z|] eqn:Hs;
      repeat case_match; rewrite ?(_write_sent mw req s) by assumption;
      cbn [fst stream set_res set_stream]; rewrite ?Hs; eauto; congruence.
  - unfold end_. destruct (end_args c e cb) as [[c' e'] cb']. rewrite Hh.
    destruct (stream s) as [z|] eqn:Hs;
      repeat case_match; rewrite ?_end_sent by assumption;
      cbn [fst stream set_res set_stream set_ended]; rewrite ?Hs; eauto;
      congruence.
  - unfold on. destruct (stream s) as [z|] eqn:Hs;
      repeat case_match; cbn [fst stream set_res set_stream set_listeners];
      rewrite ?Hs; eauto; congruence.
  - unfold flush. destruct (stream s) as [z|] eqn:Hs; cbn; eauto.
  - rewrite Hh. cbn [fst]. destruct (stream s); eauto.
Qed.

(** Once the header is sent nothing is decided again: no later call changes
    a header, installs a stream where there is none, or changes the codec or
    the options of the stream that is installed. *)
Theorem decided_once (cs : list call) :
  forall s : session,
    _header (res s) = true ->
    let s' := run mw req s cs in
    _header (res s') = true /\
    headers (res s') = headers (res s) /\
    match stream s with
    | Some z => exists z', stream s' = Some z' /\
                  z_codec z' = z_codec z /\ z_options z' = z_options z
    | None => stream s' = None
    end.
Proof.
  induction cs as [|c cs IH]; intros s Hh; cbn zeta.
  - unfold run. cbn [fold_left].
    split; [assumption|]. split; [reflexivity|]. destruct (stream s); eauto.
  - unfold run in *. cbn [fold_left].
    pose proof (step_header_sent s c Hh) as Hh1.
    pose proof (step_stream_kept s c Hh) as Hs1.
    destruct (IH _ Hh1) as (Hh2 & Hhd2 & Hs2). cbn zeta in *.
    split; [assumption|]. split.
    + rewrite Hhd2. destruct (step_headers s c) as [Heq | (Hno & _)];
        [exact Heq|congruence].
    + destruct (stream s) as [z|].
      * destruct Hs1 as (z1 & Hz1 & Hc1 & Ho1). rewrite Hz1 in Hs2.
        destruct Hs2 as (z2 & Hz2 & Hc2 & Ho2). exists z2.
        repeat split; congruence.
      * rewrite Hs1 in Hs2. exact Hs2.
Qed.

(** ** The filter and the size step *)

(** Without a filter option the filter is [shouldCompress]: a response with
    no Content-Type, or with one that is not compressible, is declined
    before anything is written.  Every header is as it was, no Vary
    included, no stream is installed, and the buffered listeners go to the
    raw transport. *)
Theorem untyped_response_is_left_alone (o : option options) (s : session)
    (ls : list (string * fn)) :
  opt_filter (default no_options o) = None ->
  match getHeader "Content-Type" (res s) with
  | Some type => compressible type = false
  | None => True
  end ->
  listeners s = Some ls ->
  let s' := onResponseHeaders (compression o) req s in
  headers (res s') = headers (res s) /\
  stream s' = stream s /\
  listeners s' = None /\
  events (res s') = (events (res s) ++ ls)%list.
Proof.
  intros Hopt Hty Hl s'.
  assert (Hfi : filter (compression o) req (res s) = false).
  { unfold compression. cbn [filter]. rewrite Hopt. cbn [default].
    unfold shouldCompress. destruct (getHeader "Content-Type" (res s));
      [exact Hty|reflexivity]. }
  assert (Hno : s' = nocompress s).
  { unfold s', onResponseHeaders. rewrite Hfi. reflexivity. }
  rewrite Hno.
  destruct (nocompress_frame s) as (Hh & _ & _ & _ & _ & _ & _ & Hs).
  destruct (nocompress_listeners s ls Hl) as [Hn He].
  repeat split; assumption.
Qed.

(** The size step at its boundary: an eligible response with a numeric
    Content-Length and a successful negotiation is compressed exactly when
    the length is at least the threshold; a length equal to the threshold is
    compressed.  The threshold is 1024 when [bytes.parse] gives null for the
    option. *)
Theorem size_step_boundary (s : session) (ls : list (string * fn)) (n : Z) :
  listeners s = Some ls ->
  stream s = None ->
  eligible mw req s = true ->
  negotiated req = true ->
  getHeader "Content-Length" (res s) = Some (HNum n) ->
  length_ s = None ->
  (stream (onResponseHeaders mw req s) <> None <-> threshold mw <= n) /\
  (forall o, bytes_parse (opt_threshold (default no_options o)) = None ->
             threshold (compression o) = 1024).
Proof.
  intros Hl Hs He Hn Hcl Hlen. split.
  - assert (Ha : above_threshold mw s = negb (n <? threshold mw)).
    { unfold above_threshold. rewrite Hcl, Hlen. cbn [Number js_lt].
      rewrite orb_false_r. reflexivity. }
    destruct (n <? threshold mw) eqn:Hlt.
    + apply Z.ltb_lt in Hlt. split; [|lia]. intros Hne. exfalso. apply Hne.
      assert (Hno : eligible mw req s && above_threshold mw s && negotiated req
                    = false).
      { rewrite Ha. cbn [negb]. rewrite andb_false_r. reflexivity. }
      destruct (onResponseHeaders_declined s ls Hl Hno) as [-> | ->].
      * rewrite <- Hs. apply nocompress_frame.
      * rewrite <- Hs.
        apply (nocompress_frame (set_res (vary (res s) "Accept-Encoding") s)).
    + apply Z.ltb_ge in Hlt. split; [intros _; lia|]. intros _.
      rewrite (onResponseHeaders_eligible mw req s ls Hl He Ha), Hn.
      destruct (compressing_codec mw s (default "" (negotiate req)) ls)
        as (z & Hz & _).
      rewrite Hz. discriminate.
  - intros o Hp. unfold compression. cbn [threshold]. rewrite Hp. reflexivity.
Qed.

(** An end without a chunk (none, or the empty string) on a response that
    has no Content-Length estimates the length at 0: under a positive
    threshold the response is never compressed.  The end goes to the raw
    transport, which sends nothing and finishes. *)
Theorem end_without_body (s : session) (c e cb : value) :
  pristine s ->
  getHeader "Content-Length" (res s) = None ->
  valid_last c ->
  truthy c = false ->
  0 < threshold mw ->
  let s' := fst (end_ mw req s c e cb) in
  stream s' = None /\
  output (res s') = output (res s) /\
  finished (res s') = true /\
  _header (res s') = true /\
  getHeader "Content-Encoding" (res s') = getHeader "Content-Encoding" (res s) /\
  snd (end_ mw req s c e cb) = Return this_res.
Proof.
  intros Hp Hcl Hc Hfalsy Hpos s'.
  pose proof (end_args_chunk c e cb (valid_last_not_function c Hc)) as Hargs.
  assert (Hdec : decision_state s [] (c, e, cb) = Ok (set_length (Some 0) s)).
  { unfold decision_state. cbn [fst snd].
    destruct (end_args c e cb) as [[c' e'] cb']. cbn [fst] in Hargs. subst c'.
    unfold estimate. rewrite Hcl. unfold chunkLength. rewrite Hfalsy.
    reflexivity. }
  set (d := set_length (Some 0) s) in *.
  subst s'. rewrite (end_pristine mw req s d c e cb Hp Hdec).
  destruct (decision_state_frame s d [] (c, e, cb) Hdec)
    as (Hres & Hend & Hstr & _).
  assert (Hsize : spec_resolved_size d = Some 0).
  { unfold spec_resolved_size. rewrite Hres, Hcl. reflexivity. }
  assert (Hnone : stream s = None) by apply Hp.
  assert (Hdecl : stream (onResponseHeaders mw req d) = None /\
                  getHeader "Content-Encoding" (res (onResponseHeaders mw req d))
                  = getHeader "Content-Encoding" (res s)).
  { destruct (below_threshold_declines mw req d 0 Hsize Hpos) as [-> | ->].
    - destruct (nocompress_frame d) as (Hh & _ & _ & _ & _ & _ & _ & Hst).
      unfold getHeader. rewrite Hh, Hst, Hstr, Hres. auto.
    - destruct (nocompress_frame (set_res (vary (res d) "Accept-Encoding") d))
        as (Hh & _ & _ & _ & _ & _ & _ & Hst).
      cbn [res set_res stream] in Hh, Hst. split; [congruence|].
      unfold getHeader at 1. rewrite Hh.
      fold (getHeader "Content-Encoding" (vary (res d) "Accept-Encoding")).
      rewrite vary_other by discriminate. rewrite Hres. reflexivity. }
  destruct Hdecl as [Hsd Hce].
  destruct (_implicitHeader_frame mw req d)
    as (Hh1 & Hf1 & Hd1 & Ho1 & He1 & Hhd1 & Hs1 & _).
  destruct Hp as (Hh & Hf & Hd & He & _).
  assert (Hpt : pass_through (_implicitHeader mw req d)).
  { repeat split; congruence. }
  rewrite (end_pass_through mw req _ c e cb Hpt Hc), Hfalsy.
  cbn [fst snd res set_res stream finished _header output set_finished].
  repeat split; try congruence.
  unfold getHeader. cbn [headers set_finished]. rewrite Hhd1. exact Hce.
Qed.

(** ** Use after end *)

Lemma invalid_chunk_is_forwarded_aux (s : session) (c e cb : value) :
  is_null c = true \/ valid_chunk c = false ->
  exists err, write mw req s c e cb = (s, Raise err).
Proof.
  intros Hbad.
  assert (Herr : exists err, write_error (res s) c = Some err).
  { unfold write_error. destruct Hbad as [Hn | Hv]; [rewrite Hn; eauto|].
    rewrite Hv. destruct (is_null c); eauto. }
  destruct Herr as (err & Herr). exists err.
  rewrite <- (_write_raises mw req s c e cb err Herr).
  unfold write. destruct Hbad as [Hn | Hv]; [rewrite Hn; reflexivity|].
  unfold valid_chunk in Hv. rewrite Hv. destruct (is_null c); reflexivity.
Qed.

Lemma write_on_fake_response (s : session) (c e cb : value) :
  valid_chunk c = true ->
  destroyed (res s) || finished (res s) || ended s = true ->
  write mw req s c e cb =
  (s, Raise (if destroyed (res s) then ERR_STREAM_DESTROYED
             else ERR_STREAM_WRITE_AFTER_END)).
Proof.
  intros Hc Hflags. destruct (valid_chunk_not_null c Hc) as [Hn _].
  unfold write. rewrite Hn. unfold valid_chunk in Hc. rewrite Hc.
  destruct (write_args e cb) as [e' cb']. rewrite Hflags.
  unfold native_write, write_error, valid_chunk. rewrite Hn, Hc.
  destruct (destroyed (res s)); reflexivity.
Qed.

(** A write of a string or binary chunk to a response that is destroyed,
    finished or ended leaves the session as it is (nothing reaches the
    stream or the transport and no header is sent) and raises the error of
    the fake response: destroyed when the response is destroyed,
    write-after-end otherwise.  Compared with the original write on the
    response itself: it is the same error when the response is either
    finished or destroyed but not both; for a response that is both, the
    original write raises write-after-end where the proxy raises destroyed;
    and for a response that is only ended, the proxy raises what the
    original write raises on a finished response. *)
Theorem write_after_end_error (s : session) (c e cb : value) :
  valid_chunk c = true ->
  destroyed (res s) || finished (res s) || ended s = true ->
  write mw req s c e cb =
    (s, Raise (if destroyed (res s) then ERR_STREAM_DESTROYED
               else ERR_STREAM_WRITE_AFTER_END)) /\
  (xorb (destroyed (res s)) (finished (res s)) = true ->
   snd (write mw req s c e cb) = snd (_write mw req s c e cb)) /\
  (destroyed (res s) = true -> finished (res s) = true ->
   snd (write mw req s c e cb) = Raise ERR_STREAM_DESTROYED /\
   snd (_write mw req s c e cb) = Raise ERR_STREAM_WRITE_AFTER_END) /\
  (destroyed (res s) = false -> finished (res s) = false ->
   snd (write mw req s c e cb) =
   snd (_write mw req (set_res (set_finished true (res s)) s) c e cb)).
Proof.
  intros Hc Hflags. destruct (valid_chunk_not_null c Hc) as [Hn _].
  rewrite (write_on_fake_response s c e cb Hc Hflags).
  assert (Herr : forall r, write_error r c =
            if finished r then Some ERR_STREAM_WRITE_AFTER_END
            else if destroyed r then Some ERR_STREAM_DESTROYED else None).
  { intros r. unfold write_error. rewrite Hn, Hc. reflexivity. }
  split; [reflexivity|]. split; [|split].
  - intros Hx.
    destruct (destroyed (res s)) eqn:Hd, (finished (res s)) eqn:Hf;
      try discriminate Hx.
    + rewrite (_write_raises mw req s c e cb ERR_STREAM_DESTROYED);
        [reflexivity|]. rewrite Herr, Hf, Hd. reflexivity.
    + rewrite (_write_raises mw req s c e cb ERR_STREAM_WRITE_AFTER_END);
        [reflexivity|]. rewrite Herr, Hf. reflexivity.
  - intros Hd Hf. rewrite Hd. split; [reflexivity|].
    rewrite (_write_raises mw req s c e cb ERR_STREAM_WRITE_AFTER_END);
      [reflexivity|]. rewrite Herr, Hf. reflexivity.
  - intros Hd Hf. rewrite Hd.
    rewrite (_write_raises mw req _ c e cb ERR_STREAM_WRITE_AFTER_END);
      [reflexivity|]. rewrite Herr. reflexivity.
Qed.

Lemma step_ended_with_stream (s : session) (c : call) :
  ended_with_stream s -> ended_with_stream (fst (step mw req s c)).
Proof.
  intros Hinv. destruct c as [c e cb|c e cb|ty l| |]; cbn [step].
  - assert (Hw : forall s0 c0 e0 cb0, ended_with_stream s0 ->
                   ended_with_stream (fst (_write mw req s0 c0 e0 cb0))).
    { intros s0 c0 e0 cb0 H0.
      destruct (_write_fst s0 c0 e0 cb0) as (s1 & [-> | [Hh ->]] & ->).
      - intros He. cbn [ended set_res] in He. destruct (H0 He) as (Hh & z & Hz).
        split; [apply native_write_frame, Hh|]. exists z. auto.
      - intros He. cbn [ended set_res] in He.
        destruct (_implicitHeader_frame mw req s0) as (_ & _ & _ & _ & He' & _).
        rewrite He' in He. destruct (H0 He) as (Hh' & _). congruence. }
    unfold write. destruct (write_args e cb) as [e' cb'].
    destruct (is_null c); [apply Hw, Hinv|].
    destruct (is_string c || isUint8Array c); [|apply Hw, Hinv].
    destruct (_ || _ || _) eqn:Hflags; [exact Hinv|].
    apply orb_false_iff in Hflags as [_ He].
    destruct (_header (res s)) eqn:Hh.
    + destruct (stream s); [|apply Hw, Hinv].
      destruct (toBuffer c e'); intros He'; cbn in He'; congruence.
    + destruct (_implicitHeader_frame mw req s) as (_ & _ & _ & _ & He' & _).
      assert (Hinv' : ended_with_stream (_implicitHeader mw req s)).
      { intros Hx. congruence. }
      destruct (stream (_implicitHeader mw req s)); [|apply Hw, Hinv'].
      destruct (toBuffer c e'); intros Hx; cbn in Hx; congruence.
  - assert (Hw : forall s0 c0 e0 cb0, ended_with_stream s0 ->
                   ended_with_stream (fst (_end mw req s0 c0 e0 cb0))).
    { intros s0 c0 e0 cb0 H0.
      destruct (_end_fst s0 c0 e0 cb0) as (s1 & [-> | [Hh ->]] & ->).
      - intros He. cbn [ended set_res] in He. destruct (H0 He) as (Hh & z & Hz).
        split; [apply native_end_frame, Hh|]. exists z. auto.
      - intros He. cbn [ended set_res] in He.
        destruct (_implicitHeader_frame mw req s0) as (_ & _ & _ & _ & He' & _).
        rewrite He' in He. destruct (H0 He) as (Hh' & _). congruence. }
    unfold end_. destruct (end_args c e cb) as [[c' e'] cb'].
    destruct (_ || _ || _) eqn:Hflags.
    { apply Hw. intros He. cbn [ended set_res] in He.
      destruct (Hinv He) as (Hh & z & Hz). split; [exact Hh|]. exists z. auto. }
    apply orb_false_iff in Hflags as [_ He].
    destruct (_header (res s)) eqn:Hh; cbn beta iota zeta.
    + destruct (stream s) as [z|] eqn:Hz; [|apply Hw, Hinv].
      destruct (truthy c'); [destruct (toBuffer c' e')|]; intros _;
        (split; [exact Hh|]); eexists; cbn [fst stream set_stream set_ended];
        try reflexivity; exact Hz.
    + destruct (estimate s c' e') as [d|err] eqn:Hest; [|exact Hinv].
      destruct (estimate_frame s d c' e' Hest) as (_ & Hed & _).
      destruct (_implicitHeader_frame mw req d) as (Hh1 & _ & _ & _ & He' & _).
      destruct (stream (_implicitHeader mw req d)) as [z|] eqn:Hz.
      * destruct (truthy c'); [destruct (toBuffer c' e')|]; intros _;
          (split; [exact Hh1|]); eexists;
          cbn [fst stream set_stream set_ended]; try reflexivity; exact Hz.
      * apply Hw. intros Hx. congruence.
  - unfold on. intros He.
    assert (He0 : ended s = true) by (repeat case_match; exact He).
    destruct (Hinv He0) as (Hh & z & Hz). rewrite Hz.
    repeat case_match; cbn; (split; [exact Hh|]); eauto.
  - unfold flush. intros He.
    assert (He0 : ended s = true) by (destruct (stream s); exact He).
    destruct (Hinv He0) as (Hh & z & Hz). rewrite Hz. cbn.
    split; [exact Hh|]. eexists. reflexivity.
  - destruct (_header (res s)) eqn:Hh; [exact Hinv|].
    intros He. cbn [fst] in He.
    destruct (_implicitHeader_frame mw req s) as (_ & _ & _ & _ & He' & _).
    rewrite He' in He. destruct (Hinv He) as (Hh' & _). congruence.
Qed.

Lemma run_ended_with_stream (cs : list call) :
  forall s, ended_with_stream s -> ended_with_stream (run mw req s cs).
Proof.
  induction cs as [|c cs IH]; intros s Hinv; [exact Hinv|].
  unfold run in *. cbn [fold_left]. apply IH, step_ended_with_stream, Hinv.
Qed.

(** Whatever has been called on a response, once the session is ended the
    header is sent and a stream is installed, every further write and end
    raises, and none of them puts anything more into the stream or onto the
    transport. *)
Theorem ended_session_is_closed (r : response) (cs : list call) :
  let s := run mw req (attach r) cs in
  ended s = true ->
  _header (res s) = true /\
  (exists z, stream s = Some z) /\
  closed mw req s /\
  (forall c e cb,
     stream (fst (write mw req s c e cb)) = stream s /\
     output (res (fst (write mw req s c e cb))) = output (res s) /\
     stream (fst (end_ mw req s c e cb)) = stream s /\
     output (res (fst (end_ mw req s c e cb))) = output (res s)).
Proof.
  intros s He.
  assert (Hinv : ended_with_stream s).
  { apply run_ended_with_stream. intros Hx. discriminate Hx. }
  destruct (Hinv He) as (Hh & z & Hz).
  split; [exact Hh|]. split; [eauto|].
  assert (Hw : forall c e cb, exists err,
             write mw req s c e cb = (s, Raise err)).
  { intros c e cb. destruct (valid_chunk c) eqn:Hc.
    - eexists. apply write_on_fake_response; [exact Hc|].
      rewrite He. apply orb_true_r.
    - destruct (invalid_chunk_is_forwarded_aux s c e cb) as (err & Hr);
        [right; exact Hc|]. eauto. }
  assert (Hen : forall c e cb, exists err,
             end_ mw req s c e cb =
             (set_res (set_finished true (res s)) s, Raise err)).
  { intros c e cb. unfold end_. destruct (end_args c e cb) as [[c' e'] cb'].
    rewrite He, !orb_true_r. eexists. apply _end_raises.
    unfold end_error. cbn [res set_res finished set_finished]. reflexivity. }
  split.
  - intros c e cb. destruct (Hw c e cb) as (e1 & ->).
    destruct (Hen c e cb) as (e2 & ->). split; eexists; reflexivity.
  - intros c e cb. destruct (Hw c e cb) as (e1 & ->).
    destruct (Hen c e cb) as (e2 & ->). repeat split; reflexivity.
Qed.

(** ** Compressing mode *)

Lemma toBuffer_coerces (c e : value) (buf : list Byte.byte) :
  coerces c e buf -> toBuffer c e = Ok buf.
Proof.
  unfold coerces, toBuffer. destruct c; intros Hc; try exact Hc.
  rewrite Hc. reflexivity.
Qed.

(** In compressing mode a write of a string or binary chunk gives the
    stream the coerced chunk, or throws what the coercion throws and does
    nothing. *)
Lemma write_compressing (s : session) (z : zstream) (c e cb : value) :
  compressing_mode s z -> valid_chunk c = true ->
  write mw req s c e cb =
  match toBuffer c (encoding_given e cb) with
  | Ok buf =>
      (set_stream (Some (stream_write z buf (encoding_given e cb))) s,
       Return (VBool true))
  | Throw err => (s, Raise err)
  end.
Proof.
  intros (Hh & Hs & Hf & Hd & He) Hc.
  destruct (valid_chunk_not_null c Hc) as [Hn _].
  pose proof (write_args_encoding e cb) as Henc.
  unfold write. rewrite Hn. unfold valid_chunk in Hc. rewrite Hc.
  destruct (write_args e cb) as [e' cb']. cbn [fst] in Henc. subst e'.
  rewrite Hd, Hf, He, Hh, Hs. reflexivity.
Qed.

(** And an end marks the session ended, then ends the stream, with the
    coerced chunk if there is one; when the coercion throws, the session is
    ended and the stream is not. *)
Lemma end_compressing (s : session) (z : zstream) (c e cb : value) :
  compressing_mode s z -> is_function c = false ->
  end_ mw req s c e cb =
  if truthy c then
    match toBuffer c (encoding_given e cb) with
    | Ok buf =>
        (set_stream (Some (stream_end z (Some (buf, encoding_given e cb))))
           (set_ended true s),
         Return this_stream)
    | Throw err => (set_ended true s, Raise err)
    end
  else (set_stream (Some (stream_end z None)) (set_ended true s),
        Return this_stream).
Proof.
  intros (Hh & Hs & Hf & Hd & He) Hc.
  pose proof (end_args_chunk c e cb Hc) as Hchunk.
  pose proof (end_args_encoding c e cb Hc) as Henc.
  unfold end_. destruct (end_args c e cb) as [[c' e'] cb'].
  cbn [fst snd] in Hchunk, Henc. subst c' e'.
  rewrite Hd, Hf, He, Hh. cbn beta iota zeta. rewrite Hs.
  destruct (truthy c); [destruct (toBuffer c _)|]; reflexivity.
Qed.

Lemma run_writes_compressing (writes : list (value * value * value))
    (bufs : list (list Byte.byte * value)) :
  Forall2 call_coerces writes bufs ->
  forall (s : session) (z : zstream),
    compressing_mode s z ->
    Forall (fun w => valid_chunk (fst (fst w)) = true) writes ->
    exists z',
      compressing_mode (run mw req s (writes_of writes)) z' /\
      res (run mw req s (writes_of writes)) = res s /\
      listeners (run mw req s (writes_of writes)) = listeners s /\
      z_codec z' = z_codec z /\ z_options z' = z_options z /\
      z_events z' = z_events z /\ z_ended z' = z_ended z /\
      z_flushes z' = z_flushes z /\
      z_input z' = (z_input z ++ bufs)%list.
Proof.
  induction 1 as [|[[c e] cb] [buf enc] ws bs Hco Hrest IH]; intros s z Hm Hall.
  - exists z. unfold run. cbn. rewrite app_nil_r. repeat split; try apply Hm.
  - inversion Hall as [|w ws' Hc Hws]; subst. cbn [fst snd] in Hc.
    destruct Hco as [Henc Hbuf]. cbn [fst snd] in Henc, Hbuf. subst enc.
    unfold run in *.
    change (writes_of ((c, e, cb) :: ws)) with (Write c e cb :: writes_of ws).
    cbn [fold_left step].
    rewrite (write_compressing s z c e cb Hm Hc).
    rewrite (toBuffer_coerces _ _ _ Hbuf). cbn [fst].
    set (z1 := stream_write z _ _).
    assert (Hm1 : compressing_mode (set_stream (Some z1) s) z1).
    { destruct Hm as (Hh & Hs & Hf & Hd & He). repeat split; assumption. }
    destruct (IH _ z1 Hm1 Hws)
      as (z' & Hm' & Hr & Hl & Hc' & Ho' & Hev & Hen & Hfl & Hin).
    exists z'. split; [exact Hm'|].
    split; [rewrite Hr; reflexivity|]. split; [rewrite Hl; reflexivity|].
    repeat split; try (rewrite ?Hc', ?Ho', ?Hev, ?Hen, ?Hfl; reflexivity).
    rewrite Hin. unfold z1. cbn [z_input stream_write].
    rewrite <- app_assoc. reflexivity.
Qed.

(** A body sent on a pristine session whose header listener installs a
    stream goes into that stream.  The stream is given, in the order
    written, one buffer for each chunk, with the encoding of the call: a
    Buffer as it is, any other chunk as [Buffer.from] converts it; then it
    is ended, with the chunk of the end, converted in the same way, when
    there is one.  The proxy hands nothing of the body to the transport,
    which stays open, and the session is ended.  This is for a body whose
    chunks are strings or binary and whose conversions succeed. *)
Theorem body_into_the_stream (s d : session) (z0 : zstream)
    (writes : list (value * value * value)) (last : value * value * value)
    (bufs : list (list Byte.byte * value)) (lastb : list Byte.byte * value) :
  pristine s ->
  Forall (fun w => valid_chunk (fst (fst w)) = true) writes ->
  valid_last (fst (fst last)) ->
  Forall2 call_coerces writes bufs ->
  (truthy (fst (fst last)) = true -> call_coerces last lastb) ->
  decision_state s writes last = Ok d ->
  stream (onResponseHeaders mw req d) = Some z0 ->
  let s' := run mw req s (body writes last) in
  exists z,
    stream s' = Some z /\
    z_input z =
      (z_input z0 ++ bufs
       ++ (if truthy (fst (fst last)) then [lastb] else []))%list /\
    z_ended z = true /\
    z_codec z = z_codec z0 /\ z_options z = z_options z0 /\
    ended s' = true /\
    output (res s') = output (res s) /\
    finished (res s') = false /\
    _header (res s') = true.
Proof.
  intros Hp Hall Hlast Hbufs Hlastb Hdec Hz0 s'. subst s'.
  rewrite (body_first_call mw req s d writes last Hp Hall Hdec).
  destruct (decision_state_frame s d writes last Hdec) as (Hres & Hend & _).
  destruct Hp as (Hh & Hf & Hd & He & _).
  destruct (_implicitHeader_frame mw req d)
    as (Hh1 & Hf1 & Hd1 & Ho1 & He1 & _ & Hs1 & _).
  assert (Hm : compressing_mode (_implicitHeader mw req d) z0).
  { repeat split; congruence. }
  unfold body. rewrite run_app.
  destruct (run_writes_compressing writes bufs Hbufs _ z0 Hm Hall)
    as (z1 & Hm1 & Hr1 & _ & Hc1 & Hop1 & _ & _ & _ & Hin1).
  destruct last as [[c e] cb]. cbn [fst snd] in *.
  set (s1 := run mw req (_implicitHeader mw req d) (writes_of writes)) in *.
  change (run mw req s1 [End c e cb]) with (fst (end_ mw req s1 c e cb)).
  rewrite (end_compressing s1 z1 c e cb Hm1 (valid_last_not_function c Hlast)).
  destruct (truthy c).
  - destruct lastb as [buf enc].
    destruct (Hlastb eq_refl) as [Henc Hbuf]. cbn [fst snd] in Henc, Hbuf.
    subst enc. rewrite (toBuffer_coerces _ _ _ Hbuf).
    cbn [fst stream set_stream ended set_ended res].
    eexists. split; [reflexivity|].
    cbn [z_input z_ended z_codec z_options stream_end].
    rewrite Hin1, Hr1, Ho1, Hf1, Hh1, Hres, Hc1, Hop1, <- app_assoc.
    repeat split; try assumption; reflexivity.
  - cbn [fst stream set_stream ended set_ended res].
    eexists. split; [reflexivity|].
    cbn [z_input z_ended z_codec z_options stream_end].
    rewrite Hin1, Hr1, Ho1, Hf1, Hh1, Hres, Hc1, Hop1, <- app_assoc.
    repeat split; try assumption; reflexivity.
Qed.

(** ** The pipeline from the stream to the transport *)

Lemma deliver_data (s : session) (c : value) :
  _header (res s) = true -> finished (res s) = false ->
  destroyed (res s) = false -> valid_chunk c = true ->
  deliver mw req s (StreamData c) = set_res (send c VUndefined (res s)) s /\
  snd (onStreamData_body mw req s c) = false.
Proof.
  intros Hh Hf Hd Hc. destruct (valid_chunk_not_null c Hc) as [Hn _].
  unfold deliver, onStreamData_body.
  rewrite (_write_sent mw req s c VUndefined VUndefined Hh).
  unfold native_write, write_error. rewrite Hn, Hc, Hf, Hd. cbn.
  rewrite set__header_sent by assumption. split; reflexivity.
Qed.

Lemma deliver_end (s : session) :
  _header (res s) = true -> finished (res s) = false ->
  destroyed (res s) = false ->
  deliver mw req s StreamEnd = set_res (set_finished true (res s)) s.
Proof.
  intros Hh Hf Hd. unfold deliver, onStreamEnd_body.
  rewrite (_end_sent mw req s VUndefined VUndefined VUndefined Hh).
  unfold native_end, end_error. rewrite Hf, Hd. cbn [truthy andb fst].
  rewrite set__header_sent by assumption. reflexivity.
Qed.

(** With a stream installed and the transport open, an event that ends
    nothing leaves both as they are; the transport gets the chunk the
    stream emits, if the event is an emission, and nothing otherwise. *)
Lemma occur_piping (s : session) (ev : event) :
  piping s -> ends_nothing ev ->
  let s' := occur mw req s ev in
  piping s' /\ ended s' = ended s /\
  output (res s') =
    (output (res s) ++ map (fun c => (c, VUndefined)) (emitted [ev]))%list.
Proof.
  intros (Hh & Hf & Hd & z & Hz) Hev.
  destruct ev as [[c e cb|c e cb|ty l| |]|[c|]]; cbn [ends_nothing] in Hev;
    try contradiction; cbn [occur step emitted flat_map map app];
    rewrite ?app_nil_r.
  - assert (Hsame : forall err, write mw req s c e cb = (s, Raise err) ->
                piping (fst (write mw req s c e cb)) /\
                ended (fst (write mw req s c e cb)) = ended s /\
                output (res (fst (write mw req s c e cb))) = output (res s)).
    { intros err ->. cbn [fst]. repeat split; eauto. }
    destruct (valid_chunk c) eqn:Hc.
    + destruct (ended s) eqn:He.
      * eapply Hsame. apply write_on_fake_response; [exact Hc|].
        rewrite He. apply orb_true_r.
      * assert (Hm : compressing_mode s z) by (repeat split; assumption).
        rewrite (write_compressing s z c e cb Hm Hc).
        destruct (toBuffer c _); cbn [fst res set_stream ended stream];
          repeat split; eauto.
    + destruct (invalid_chunk_is_forwarded_aux s c e cb) as (err & Hr);
        [right; exact Hc|]. eapply Hsame, Hr.
  - unfold on. rewrite Hz.
    destruct (listeners s); [destruct (negb _)|];
      cbn [fst res set_res set_stream ended stream _on add_event
           _header finished destroyed output]; repeat split; eauto.
  - unfold flush. rewrite Hz.
    cbn [fst res set_stream ended stream]. repeat split; eauto.
  - rewrite Hh. cbn [fst]. repeat split; eauto.
  - destruct (deliver_data s c Hh Hf Hd Hev) as [-> _].
    cbn [res set_res send ended stream _header finished destroyed output].
    repeat split; eauto.
Qed.

Lemma play_piping (evs : list event) :
  forall s : session,
    piping s -> Forall ends_nothing evs ->
    let s' := play mw req s evs in
    piping s' /\ ended s' = ended s /\
    output (res s') =
      (output (res s) ++ map (fun c => (c, VUndefined)) (emitted evs))%list.
Proof.
  induction evs as [|ev evs IH]; intros s Hp Hall; cbn zeta.
  - unfold play. cbn. rewrite app_nil_r. split; [exact Hp|].
    split; reflexivity.
  - inversion Hall as [|ev0 evs0 Hev Hevs]; subst.
    destruct (occur_piping s ev Hp Hev) as (Hp1 & He1 & Ho1).
    destruct (IH _ Hp1 Hevs) as (Hp2 & He2 & Ho2).
    unfold play in *. cbn [fold_left].
    split; [exact Hp2|]. split; [congruence|].
    rewrite Ho2, Ho1. unfold emitted. cbn [flat_map].
    rewrite app_nil_r, map_app, <- app_assoc. reflexivity.
Qed.

(** The end of the application, with a stream installed and the transport
    open, marks the session ended and leaves the transport as it is,
    whatever its chunk. *)
Lemma end_piping (s : session) (c e cb : value) :
  piping s -> ended s = false ->
  let s' := fst (end_ mw req s c e cb) in
  piping s' /\ ended s' = true /\ output (res s') = output (res s).
Proof.
  intros (Hh & Hf & Hd & z & Hz) He. unfold end_.
  destruct (end_args c e cb) as [[c' e'] cb'].
  rewrite Hd, Hf, He, Hh. cbn beta iota zeta. rewrite Hz.
  destruct (truthy c'); [destruct (toBuffer c' e')|];
    cbn [fst res set_stream set_ended ended stream]; repeat split; eauto.
Qed.

(** When a response is compressed and the application ends it once, the
    transport gets what the stream emits and nothing else.  Take a session
    in compressing mode and any schedule in which the application's calls
    (write, on, flush, writeHead, with any arguments) and the chunks the
    stream emits are interleaved, the application calls end once, with any
    arguments, the stream goes on emitting while the application makes
    further calls other than end, and the stream ends.  Each emitted chunk is
    written to the transport, in the order emitted; nothing the application
    passes reaches the transport; the transport stays open until the stream
    ends and is finished by the end of the stream, not by the end the
    application called. *)
Theorem transport_gets_what_the_stream_emits (s : session) (z : zstream)
    (before after : list event) (c e cb : value) :
  compressing_mode s z ->
  Forall ends_nothing before ->
  Forall ends_nothing after ->
  let s1 := play mw req s before in
  let s2 := occur mw req s1 (Call (End c e cb)) in
  let s3 := play mw req s2 after in
  let s4 := occur mw req s3 (Emit StreamEnd) in
  output (res s1) =
    (output (res s) ++ map (fun c => (c, VUndefined)) (emitted before))%list /\
  finished (res s1) = false /\
  output (res s2) = output (res s1) /\
  finished (res s2) = false /\
  ended s2 = true /\
  output (res s3) =
    (output (res s)
     ++ map (fun c => (c, VUndefined)) (emitted (before ++ after)))%list /\
  finished (res s3) = false /\
  output (res s4) = output (res s3) /\
  finished (res s4) = true.
Proof.
  intros (Hh & Hs & Hf & Hd & He) Hb Ha s1 s2 s3 s4.
  assert (Hp : piping s) by (repeat split; eauto).
  destruct (play_piping before s Hp Hb) as (Hp1 & He1 & Ho1).
  fold s1 in Hp1, He1, Ho1.
  destruct (end_piping s1 c e cb Hp1 (eq_trans He1 He)) as (Hp2 & He2 & Ho2).
  change (fst (end_ mw req s1 c e cb)) with s2 in Hp2, He2, Ho2.
  destruct (play_piping after s2 Hp2 Ha) as (Hp3 & He3 & Ho3).
  fold s3 in Hp3, He3, Ho3.
  split; [exact Ho1|]. split; [apply Hp1|]. split; [exact Ho2|].
  split; [apply Hp2|]. split; [exact He2|].
  split.
  { rewrite Ho3, Ho2, Ho1. unfold emitted.
    rewrite flat_map_app, map_app, <- app_assoc. reflexivity. }
  split; [apply Hp3|].
  destruct Hp3 as (Hh3 & Hf3 & Hd3 & _).
  unfold s4. cbn [occur]. rewrite (deliver_end s3 Hh3 Hf3 Hd3).
  split; reflexivity.
Qed.

(** A second end on a compressed response, before the stream has ended,
    sets the finished flag of the transport from [ended], which is true, and
    raises.  From then on the transport refuses what the stream emits: the
    chunk of an emission is not written, and the output stays as it was. *)
Theorem second_end_cuts_the_stream_off (s : session) (z : zstream)
    (c1 e1 cb1 c2 e2 cb2 chunk : value) :
  compressing_mode s z ->
  valid_chunk chunk = true ->
  let s1 := fst (end_ mw req s c1 e1 cb1) in
  let s2 := fst (end_ mw req s1 c2 e2 cb2) in
  finished (res s1) = false /\
  (exists err, snd (end_ mw req s1 c2 e2 cb2) = Raise err) /\
  finished (res s2) = true /\
  output (res s2) = output (res s) /\
  deliver mw req s2 (StreamData chunk) = s2.
Proof.
  intros (Hh & Hs & Hf & Hd & He) Hc s1 s2.
  assert (Hp : piping s) by (repeat split; eauto).
  destruct (end_piping s c1 e1 cb1 Hp He) as (Hp1 & He1 & Ho1).
  fold s1 in Hp1, He1, Ho1.
  destruct Hp1 as (Hh1 & Hf1 & Hd1 & z1 & Hz1).
  assert (Hend : end_ mw req s1 c2 e2 cb2 =
                 let '(c', e', cb') := end_args c2 e2 cb2 in
                 (set_res (set_finished true (res s1)) s1,
                  Raise (if truthy c' then ERR_STREAM_WRITE_AFTER_END
                         else ERR_STREAM_ALREADY_FINISHED))).
  { unfold end_. destruct (end_args c2 e2 cb2) as [[c' e'] cb'].
    rewrite He1, !orb_true_r. apply _end_raises. reflexivity. }
  assert (Hs2 : s2 = set_res (set_finished true (res s1)) s1).
  { unfold s2. rewrite Hend. destruct (end_args c2 e2 cb2) as [[c' e'] cb'].
    reflexivity. }
  assert (Hw : _write mw req s2 chunk VUndefined VUndefined =
               (s2, Raise ERR_STREAM_WRITE_AFTER_END)).
  { apply _write_raises. rewrite Hs2. unfold write_error.
    destruct (valid_chunk_not_null chunk Hc) as [-> _]. rewrite Hc.
    reflexivity. }
  split; [exact Hf1|]. split.
  { rewrite Hend. destruct (end_args c2 e2 cb2) as [[c' e'] cb']. eauto. }
  split; [rewrite Hs2; reflexivity|].
  split; [rewrite Hs2; exact Ho1|].
  unfold deliver, onStreamData_body. rewrite Hw. reflexivity.
Qed.

(** An end whose chunk cannot be made a buffer, on a compressing session:
    the session is marked ended before the conversion throws, and the stream
    is never ended.  The end raises what [Buffer.from] throws; whatever the
    application calls afterwards, the stream stays open, with the input it
    had, and nothing reaches the transport. *)
Theorem failed_end_leaves_the_stream_open (s : session) (z : zstream)
    (c e cb : value) (err : error) (cs : list call) :
  compressing_mode s z ->
  is_function c = false -> truthy c = true -> isBuffer c = false ->
  Buffer_from c (encoding_given e cb) = Throw err ->
  end_ mw req s c e cb = (set_ended true s, Raise err) /\
  let s' := run mw req (set_ended true s) cs in
  ended s' = true /\
  output (res s') = output (res s) /\
  exists z', stream s' = Some z' /\ z_ended z' = z_ended z /\
             z_input z' = z_input z.
Proof.
  intros Hm Hfn Ht Hnb Hthrow.
  assert (Htb : toBuffer c (encoding_given e cb) = Throw err).
  { unfold toBuffer. destruct c; try exact Hthrow. discriminate Hnb. }
  split.
  { rewrite (end_compressing s z c e cb Hm Hfn), Ht, Htb. reflexivity. }
  destruct Hm as (Hh & Hs & Hf & Hd & He).
  assert (Hgen : forall s0 : session,
            ended s0 = true -> _header (res s0) = true ->
            (exists z0, stream s0 = Some z0 /\ z_ended z0 = z_ended z /\
                        z_input z0 = z_input z) ->
            ended (run mw req s0 cs) = true /\
            output (res (run mw req s0 cs)) = output (res s0) /\
            exists z', stream (run mw req s0 cs) = Some z' /\
                       z_ended z' = z_ended z /\ z_input z' = z_input z).
  { induction cs as [|call cs IH]; intros s0 He0 Hh0 Hz0.
    - unfold run. cbn. auto.
    - unfold run in *. cbn [fold_left].
      assert (Hstep : ended (fst (step mw req s0 call)) = true /\
                _header (res (fst (step mw req s0 call))) = true /\
                output (res (fst (step mw req s0 call))) = output (res s0) /\
                exists z0, stream (fst (step mw req s0 call)) = Some z0 /\
                           z_ended z0 = z_ended z /\ z_input z0 = z_input z).
      { destruct Hz0 as (z0 & Hz0 & Hze & Hzi).
        destruct call as [c0 e0 cb0|c0 e0 cb0|ty l| |]; cbn [step].
        - assert (Hw : exists err0, write mw req s0 c0 e0 cb0 = (s0, Raise err0)).
          { destruct (valid_chunk c0) eqn:Hc0.
            - eexists. apply write_on_fake_response; [exact Hc0|].
              rewrite He0. apply orb_true_r.
            - apply invalid_chunk_is_forwarded_aux. right. exact Hc0. }
          destruct Hw as (err0 & ->). cbn [fst]. eauto 10.
        - assert (Hen : exists err0, end_ mw req s0 c0 e0 cb0 =
                     (set_res (set_finished true (res s0)) s0, Raise err0)).
          { unfold end_. destruct (end_args c0 e0 cb0) as [[c' e'] cb'].
            rewrite He0, !orb_true_r. eexists. apply _end_raises. reflexivity. }
          destruct Hen as (err0 & ->).
          cbn [fst res set_res ended stream _header set_finished output].
          eauto 10.
        - unfold on. rewrite Hz0.
          destruct (listeners s0); [destruct (negb _)|];
            cbn [fst res set_res set_stream ended stream _on add_event
                 _header output z_ended z_input stream_on]; eauto 10.
        - unfold flush. rewrite Hz0.
          cbn [fst res set_stream ended stream]. eauto 10.
        - rewrite Hh0. cbn [fst]. eauto 10. }
      destruct Hstep as (He1 & Hh1 & Ho1 & Hz1).
      destruct (IH _ He1 Hh1 Hz1) as (He2 & Ho2 & Hz2).
      split; [exact He2|]. split; [congruence|exact Hz2]. }
  apply (Hgen (set_ended true s)); [reflexivity|exact Hh|].
  exists z. cbn [stream set_ended]. auto.
Qed.

(** ** The state before the header is sent *)

(** Whatever has been called on a response since the middleware attached to
    it, as long as the header is unsent there is no stream, [listeners] is
    an array and the session is not ended: the header listener always runs
    on such a session. *)
Theorem undecided_session_is_buffering (r : response) (cs : list call) :
  let s := run mw req (attach r) cs in
  _header (res s) = false ->
  stream s = None /\ (exists ls, listeners s = Some ls) /\ ended s = false.
Proof.
  intros s Hh.
  destruct (run_buffering mw req cs r Hh) as [Hs Hl].
  split; [exact Hs|]. split; [exact Hl|].
  destruct (ended s) eqn:He; [|reflexivity].
  assert (Hinv : ended_with_stream s).
  { apply run_ended_with_stream. intros Hx. discriminate Hx. }
  destruct (Hinv He) as (Hh' & _). congruence.
Qed.

(** A Content-Length that is set is trusted: an end on a pristine session
    does not estimate the length then, whatever its chunk, and an eligible
    response declaring at least the threshold gets a stream: the session is
    ended and nothing goes to the transport.  The stream is ended as well
    when the end has no chunk, or one that is converted to a buffer. *)
Theorem declared_length_is_trusted (s : session) (n : Z) (c e cb : value) :
  pristine s ->
  getHeader "Content-Length" (res s) = Some (HNum n) ->
  n <> 0 ->
  threshold mw <= n ->
  eligible mw req s = true ->
  negotiated req = true ->
  let s' := fst (end_ mw req s c e cb) in
  decision_state s [] (c, e, cb) = Ok s /\
  length_ s' = None /\
  ended s' = true /\
  output (res s') = output (res s) /\
  exists z, stream s' = Some z /\
    (valid_last c ->
     truthy c = false \/ (exists buf, coerces c (encoding_given e cb) buf) ->
     z_ended z = true).
Proof.
  intros Hp Hcl Hn0 Hthr Hel Hneg s'.
  assert (Hd : decision_state s [] (c, e, cb) = Ok s).
  { unfold decision_state. cbn [fst snd].
    destruct (end_args c e cb) as [[c' e'] cb']. unfold estimate.
    rewrite Hcl. cbn [hval_truthy]. apply Z.eqb_neq in Hn0. rewrite Hn0.
    reflexivity. }
  split; [exact Hd|].
  subst s'. rewrite (end_pristine mw req s s c e cb Hp Hd).
  destruct Hp as (Hh & Hf & Hdz & He & Hs & Hlen & ls & Hl).
  assert (Ha : above_threshold mw s = true).
  { unfold above_threshold. rewrite Hcl, Hlen. cbn [Number js_lt].
    rewrite orb_false_r. apply negb_true_iff, Z.ltb_ge. exact Hthr. }
  pose proof (onResponseHeaders_eligible mw req s ls Hl Hel Ha) as Hacc.
  rewrite Hneg in Hacc.
  destruct (compressing_codec mw s (default "" (negotiate req)) ls)
    as (z0 & Hz0 & _ & _ & _ & _ & _).
  rewrite <- Hacc in Hz0.
  destruct (_implicitHeader_frame mw req s)
    as (Hh1 & Hf1 & Hd1 & Ho1 & He1 & _ & Hs1 & _).
  destruct (onResponseHeaders_frame mw req s) as (_ & _ & _ & _ & _ & Hlen1).
  set (s1 := _implicitHeader mw req s) in *.
  assert (Hlen2 : length_ s1 = None).
  { unfold s1, _implicitHeader. cbn [length_ set_res]. congruence. }
  assert (Hz1 : stream s1 = Some z0) by congruence.
  assert (Hm : compressing_mode s1 z0).
  { repeat split; congruence. }
  assert (Hp1 : piping s1).
  { split; [exact Hh1|]. split; [congruence|]. split; [congruence|eauto]. }
  assert (Hgen : length_ (fst (end_ mw req s1 c e cb)) = None /\
                 ended (fst (end_ mw req s1 c e cb)) = true /\
                 output (res (fst (end_ mw req s1 c e cb))) = output (res s1) /\
                 exists z, stream (fst (end_ mw req s1 c e cb)) = Some z).
  { unfold end_. destruct (end_args c e cb) as [[c' e'] cb'].
    destruct Hm as (_ & _ & Hf2 & Hd2 & He2).
    rewrite Hd2, Hf2, He2, Hh1. cbn beta iota zeta. rewrite Hz1.
    destruct (truthy c'); [destruct (toBuffer c' e')|];
      cbn [fst res set_stream set_ended ended stream length_];
      repeat split; eauto. }
  destruct Hgen as (Hl2 & He2 & Ho2 & z & Hz).
  split; [exact Hl2|]. split; [exact He2|]. split; [congruence|].
  exists z. split; [exact Hz|]. intros Hlast Hco.
  rewrite (end_compressing s1 z0 c e cb Hm
             (valid_last_not_function c Hlast)) in Hz.
  destruct (truthy c) eqn:Ht.
  - destruct Hco as [Hfalse | (buf & Hbuf)]; [discriminate Hfalse|].
    rewrite (toBuffer_coerces _ _ _ Hbuf) in Hz.
    cbn [fst stream set_stream] in Hz. injection Hz as <-. reflexivity.
  - cbn [fst stream set_stream] in Hz. injection Hz as <-. reflexivity.
Qed.

(** ** Event registrations *)

Lemma run_registrations (regs : list (string * fn)) :
  forall (s : session) (ls0 : list (string * fn)),
    listeners s = Some ls0 -> stream s = None ->
    listeners (run mw req s (registrations regs)) =
      Some (ls0 ++ List.filter is_drain regs)%list /\
    events (res (run mw req s (registrations regs))) =
      (events (res s) ++ List.filter (fun r => negb (is_drain r)) regs)%list /\
    stream (run mw req s (registrations regs)) = None.
Proof.
  induction regs as [|[ty l] regs IH]; intros s ls0 Hl Hs.
  - unfold run. cbn. rewrite !app_nil_r. repeat split; assumption.
  - change (run mw req s (registrations ((ty, l) :: regs)))
      with (run mw req (fst (on s ty l)) (registrations regs)).
    assert (Hon : fst (on s ty l) =
                  if String.eqb ty "drain"
                  then set_listeners (Some (ls0 ++ [(ty, l)])%list) s
                  else set_res (_on (res s) ty l) s).
    { unfold on. rewrite Hl, Hs. destruct (String.eqb ty "drain"); reflexivity. }
    rewrite Hon. unfold is_drain. cbn [List.filter fst].
    fold is_drain. destruct (String.eqb ty "drain"); cbn [negb].
    + destruct (IH (set_listeners (Some (ls0 ++ [(ty, l)])%list) s)
                  (ls0 ++ [(ty, l)])%list eq_refl Hs)
        as (Hl' & He' & Hs').
      rewrite Hl', He', <- app_assoc. repeat split; assumption.
    + destruct (IH (set_res (_on (res s) ty l) s) ls0 Hl Hs)
        as (Hl' & He' & Hs').
      rewrite Hl', He'. cbn [res set_res _on add_event events].
      rewrite <- app_assoc. repeat split; assumption.
Qed.

(** Listeners registered before the first body call: those for other events
    are on the raw transport at once, in order; those for drain wait in the
    buffer, and when the header is sent each of them is registered once, in
    the order it was given, on the raw transport if the response is not
    compressed and on the stream, ahead of the pipeline's own listeners, if
    it is. *)
Theorem drain_listeners_are_replayed_once (s : session)
    (regs : list (string * fn)) :
  listeners s = Some [] ->
  stream s = None ->
  let s0 := run mw req s (registrations regs) in
  let s1 := _implicitHeader mw req s0 in
  events (res s0) =
    (events (res s) ++ List.filter (fun r => negb (is_drain r)) regs)%list /\
  listeners s0 = Some (List.filter is_drain regs) /\
  ((stream s1 = None /\
    events (res s1) =
      (events (res s0) ++ List.filter is_drain regs)%list) \/
   (exists z, stream s1 = Some z /\
      z_events z =
        (List.filter is_drain regs ++
         [("data", onStreamData); ("end", onStreamEnd)])%list /\
      events (res s1) =
        (events (res s0) ++ [("drain", onResponseDrain)])%list)).
Proof.
  intros Hl Hs s0 s1.
  destruct (run_registrations regs s [] Hl Hs) as (Hl0 & He0 & Hs0).
  fold s0 in Hl0, He0, Hs0. cbn [app] in Hl0.
  split; [exact He0|]. split; [exact Hl0|].
  unfold s1, _implicitHeader. cbn [res set_res stream events set__header].
  destruct (onResponseHeaders_cases mw req s0 _ Hl0)
    as [-> | [-> | (m & _ & _ & _ & ->)]].
  - left. destruct (nocompress_listeners s0 _ Hl0) as [_ He].
    destruct (nocompress_frame s0) as (_ & _ & _ & _ & _ & _ & _ & Hst).
    split; congruence.
  - left.
    destruct (nocompress_listeners (set_res (vary (res s0) "Accept-Encoding") s0)
                _ Hl0) as [_ He].
    destruct (nocompress_frame (set_res (vary (res s0) "Accept-Encoding") s0))
      as (_ & _ & _ & _ & _ & _ & _ & Hst).
    destruct (vary_frame (res s0) "Accept-Encoding") as (_ & _ & _ & Hev & _).
    cbn [res set_res stream] in *. split; congruence.
  - right. destruct (compressing_codec mw s0 m (List.filter is_drain regs))
      as (z & Hz & _ & _ & Hze & _).
    exists z. split; [exact Hz|]. split; [exact Hze|]. reflexivity.
Qed.

(** ** Optional arguments *)


End Coverage.

(** ** The no-transform pattern *)

Section Pattern.

Let literal : list ascii := list_ascii_of_string "no-transform".

Let spaces (l : list ascii) : Prop := Forall (fun c => is_space c = true) l.

Lemma is_space_whitespace (c : ascii) : is_space c = true <-> whitespace c.
Proof.
  unfold is_space, whitespace. cbn [In].
  rewrite !orb_true_iff, andb_true_iff, !Nat.leb_le, !Nat.eqb_eq. lia.
Qed.

Lemma spaces_whitespace (l : list ascii) : spaces l <-> Forall whitespace l.
Proof.
  unfold spaces. split; intros Hl; eapply Forall_impl; try exact Hl;
    intros c Hc; apply is_space_whitespace, Hc.
Qed.

Lemma skip_spaces_app (a l : list ascii) :
  Forall (fun c => is_space c = true) a ->
  skip_spaces (a ++ l) = skip_spaces l.
Proof.
  induction 1 as [|c a Hc Ha IH]; [reflexivity|]. cbn. rewrite Hc. exact IH.
Qed.

Lemma skip_spaces_split (l : list ascii) :
  exists a, Forall (fun c => is_space c = true) a /\
    l = (a ++ skip_spaces l)%list /\
    (skip_spaces l = [] \/
     exists c t, skip_spaces l = c :: t /\ is_space c = false).
Proof.
  induction l as [|c l (a & Ha & Hl & Hrest)].
  - exists []. repeat split; auto.
  - cbn [skip_spaces]. destruct (is_space c) eqn:Hc.
    + exists (c :: a). split; [constructor; assumption|].
      split; [cbn; congruence|exact Hrest].
    + exists []. split; [constructor|]. split; [reflexivity|]. right. eauto.
Qed.

Lemma strip_prefix_app (p r : list ascii) : strip_prefix p (p ++ r) = Some r.
Proof.
  induction p as [|a p IH]; [destruct r; reflexivity|].
  cbn. rewrite Ascii.eqb_refl. exact IH.
Qed.

Lemma strip_prefix_Some (p l r : list ascii) :
  strip_prefix p l = Some r -> l = (p ++ r)%list.
Proof.
  revert l. induction p as [|a p IH]; intros l Hs.
  - destruct l; cbn in Hs; injection Hs as <-; reflexivity.
  - destruct l as [|b l]; cbn in Hs; [discriminate|].
    destruct (Ascii.eqb a b) eqn:Hab; [|discriminate].
    apply Ascii.eqb_eq in Hab. subst b. cbn. f_equal. apply IH, Hs.
Qed.

Lemma no_transform_here_iff (l : list ascii) :
  no_transform_here l = true <->
  exists a b post,
    l = (a ++ literal ++ b ++ post)%list /\ spaces a /\ spaces b /\
    (post = [] \/ exists post', post = ","%char :: post').
Proof.
  unfold no_transform_here. fold literal. split.
  - destruct (strip_prefix literal (skip_spaces l)) as [rest|] eqn:Hp;
      [|discriminate].
    apply strip_prefix_Some in Hp.
    destruct (skip_spaces_split l) as (a & Ha & Hl & _).
    destruct (skip_spaces_split rest) as (b & Hb & Hr & Hpost).
    intros Hend. exists a, b, (skip_spaces rest).
    split; [rewrite Hl at 1; rewrite Hp, <- Hr; reflexivity|].
    split; [exact Ha|]. split; [exact Hb|].
    destruct Hpost as [-> | (c & t & Ht & _)]; [left; reflexivity|].
    rewrite Ht in *. apply Ascii.eqb_eq in Hend. subst c. right. eauto.
  - intros (a & b & post & -> & Ha & Hb & Hpost).
    rewrite (skip_spaces_app a) by exact Ha.
    change (skip_spaces (literal ++ b ++ post)) with (literal ++ b ++ post)%list.
    rewrite strip_prefix_app, (skip_spaces_app b) by exact Hb.
    destruct Hpost as [-> | (post' & ->)]; reflexivity.
Qed.

Lemma no_transform_scan_iff (l : list ascii) :
  forall anchor : bool,
    no_transform_scan anchor l = true <->
    (anchor = true /\ no_transform_here l = true) \/
    exists pre rest,
      l = (pre ++ ","%char :: rest)%list /\ no_transform_here rest = true.
Proof.
  induction l as [|c l IH]; intros anchor.
  - cbn [no_transform_scan]. rewrite orb_false_r, andb_true_iff. split.
    + intros Ha. left. exact Ha.
    + intros [Ha | (pre & rest & Hl & _)]; [exact Ha|].
      destruct pre; discriminate Hl.
  - cbn [no_transform_scan]. rewrite orb_true_iff, andb_true_iff, IH. split.
    + intros [Ha | [[Hc Hh] | (pre & rest & Hl & Hh)]].
      * left. exact Ha.
      * apply Ascii.eqb_eq in Hc. subst c. right. exists [], l. auto.
      * right. exists (c :: pre), rest. cbn. split; [congruence|exact Hh].
    + intros [Ha | (pre & rest & Hl & Hh)]; [left; exact Ha|]. right.
      destruct pre as [|c' pre]; cbn in Hl; injection Hl as -> ->.
      * left. split; [apply Ascii.eqb_refl|exact Hh].
      * right. eauto.
Qed.

(** The pattern finds no-transform exactly where the regular expression
    says: at the start of the value or after a comma, with white space
    allowed on both sides (the tab, the line feed, the vertical tab, the
    form feed, the carriage return, the space and the no-break space), and
    followed by a comma or the end of the value. *)
Theorem no_transform_pattern_meaning (s : string) :
  cacheControlNoTransformRegExp s = true <->
  no_transform_listed (list_ascii_of_string s).
Proof.
  unfold cacheControlNoTransformRegExp, no_transform_listed.
  rewrite no_transform_scan_iff. fold literal. split.
  - intros [[_ Hh] | (pre & rest & Hl & Hh)];
      apply no_transform_here_iff in Hh as (a & b & post & Hr & Ha & Hb & Hpost);
      apply spaces_whitespace in Ha, Hb.
    + exists [], a, b, post. cbn [app]. auto.
    + exists (pre ++ [","%char])%list, a, b, post.
      split; [rewrite Hl, Hr, <- app_assoc; reflexivity|].
      split; [right; eauto|]. auto.
  - intros (pre & a & b & post & Hl & [-> | (pre' & ->)] & Ha & Hb & Hpost);
      apply spaces_whitespace in Ha, Hb.
    + left. split; [reflexivity|]. apply no_transform_here_iff.
      exists a, b, post. auto.
    + right. exists pre', (a ++ literal ++ b ++ post)%list.
      split; [rewrite Hl, <- app_assoc; reflexivity|].
      apply no_transform_here_iff. exists a, b, post. auto.
Qed.

End Pattern.

(** * The further properties at work *)

(** The decision on a 5000-byte and on a 100-byte text/html response, for a
    request that accepts gzip. *)
Lemma decision_characterised_witness :
  let req := GET [("gzip", 1000)] in
  stream (@onResponseHeaders Node.collaborators default_mw req
            (attach (sized 5000 html))) <> None /\
  listeners (@onResponseHeaders Node.collaborators default_mw req
               (attach (sized 100 html))) = None.
Proof.
  cbv zeta. split.
  - destruct (@decision_characterised Node.collaborators default_mw
                (GET [("gzip", 1000)]) (attach (sized 5000 html)) [])
      as [Hiff _]; [reflexivity | reflexivity |].
    apply Hiff. vm_compute. reflexivity.
  - destruct (@decision_characterised Node.collaborators default_mw
                (GET [("gzip", 1000)]) (attach (sized 100 html)) [])
      as [_ Hdecl]; [reflexivity | reflexivity |].
    apply Hdecl. vm_compute. reflexivity.
Defined.

(** Content-Type is as the application set it after a compressed body. *)
Lemma other_headers_untouched_witness :
  let req := GET [("gzip", 1000)] in
  getHeader "Content-Type"
    (res (@run Node.collaborators default_mw req (attach (sized 5000 html))
            [Write (VString "a") VUndefined VUndefined;
             End VUndefined VUndefined VUndefined]))
  = Some (HStr "text/html").
Proof.
  cbv zeta.
  rewrite (@other_headers_untouched Node.collaborators default_mw
             (GET [("gzip", 1000)])
             [Write (VString "a") VUndefined VUndefined;
              End VUndefined VUndefined VUndefined] "Content-Type")
    by discriminate.
  reflexivity.
Defined.

(** A write, a flush, a second writeHead and an end after the decision: the
    headers and the codec stay. *)
Lemma decided_once_witness :
  let req := GET [("gzip", 1000)] in
  let s := @_implicitHeader Node.collaborators default_mw req
             (attach (sized 5000 html)) in
  let s' := @run Node.collaborators default_mw req s
              [Write (VString "a") VUndefined VUndefined; Flush; WriteHead;
               End VUndefined VUndefined VUndefined] in
  headers (res s') = headers (res s) /\
  exists z, stream s' = Some z /\ z_codec z = Gzip.
Proof.
  cbv zeta.
  set (s := @_implicitHeader Node.collaborators default_mw
              (GET [("gzip", 1000)]) (attach (sized 5000 html))).
  destruct (@decided_once Node.collaborators default_mw (GET [("gzip", 1000)])
              [Write (VString "a") VUndefined VUndefined; Flush; WriteHead;
               End VUndefined VUndefined VUndefined] s)
    as (_ & Hh & Hs); [vm_compute; reflexivity|].
  split; [exact Hh|].
  destruct (stream s) as [z|] eqn:Hz; [|vm_compute in Hz; discriminate Hz].
  destruct Hs as (z' & Hz' & Hc & _). exists z'. split; [exact Hz'|].
  rewrite Hc. vm_compute in Hz. injection Hz as <-. reflexivity.
Defined.

(** A response without Content-Type under the default filter. *)
Lemma untyped_response_is_left_alone_witness :
  let req := GET [("gzip", 1000)] in
  let s' := @onResponseHeaders Node.collaborators
              (@compression Node.collaborators None) req
              (attach (sized 5000 ServerResponse)) in
  headers (res s') = headers (sized 5000 ServerResponse) /\ stream s' = None.
Proof.
  cbv zeta.
  destruct (@untyped_response_is_left_alone Node.collaborators
              (GET [("gzip", 1000)]) None (attach (sized 5000 ServerResponse)) [])
    as (Hh & Hs & _); [reflexivity | vm_compute; exact I | reflexivity |].
  split; [exact Hh | exact Hs].
Defined.

(** A Content-Length of exactly 1024 under the default threshold. *)
Lemma size_step_boundary_witness :
  let req := GET [("gzip", 1000)] in
  stream (@onResponseHeaders Node.collaborators default_mw req
            (attach (sized 1024 html))) <> None /\
  @threshold default_mw = 1024.
Proof.
  cbv zeta.
  destruct (@size_step_boundary Node.collaborators default_mw
              (GET [("gzip", 1000)]) (attach (sized 1024 html)) [] 1024)
    as [Hiff Hdef]; try (vm_compute; reflexivity).
  split; [apply Hiff; vm_compute; discriminate|].
  apply (Hdef None). reflexivity.
Defined.

(** A bare end on a response without Content-Length. *)
Lemma end_without_body_witness :
  let req := GET [("gzip", 1000)] in
  let s' := fst (@end_ Node.collaborators default_mw req (attach html)
                   VUndefined VUndefined VUndefined) in
  stream s' = None /\ output (res s') = [] /\ finished (res s') = true.
Proof.
  cbv zeta.
  destruct (@end_without_body Node.collaborators default_mw
              (GET [("gzip", 1000)]) (attach html)
              VUndefined VUndefined VUndefined)
    as (Hs & Ho & Hf & _).
  - apply pristine_attach; reflexivity.
  - reflexivity.
  - left. reflexivity.
  - reflexivity.
  - vm_compute. reflexivity.
  - split; [exact Hs|]. split; [rewrite Ho; reflexivity | exact Hf].
Defined.

(** A write after the end of a compressing session, and a write to a
    response that is both finished and destroyed. *)
Lemma write_after_end_error_witness :
  let req := GET [("gzip", 1000)] in
  let s := fst (@end_ Node.collaborators default_mw req (attach (sized 5000 html))
                  (VString "body") VUndefined VUndefined) in
  let sd := set_res (set_destroyed true (set_finished true (res s))) s in
  finished (res s) = false /\
  @write Node.collaborators default_mw req s (VString "more") VUndefined VUndefined
    = (s, Raise ERR_STREAM_WRITE_AFTER_END) /\
  snd (@write Node.collaborators default_mw req sd
         (VString "more") VUndefined VUndefined) = Raise ERR_STREAM_DESTROYED /\
  snd (@_write Node.collaborators default_mw req sd
         (VString "more") VUndefined VUndefined)
    = Raise ERR_STREAM_WRITE_AFTER_END.
Proof.
  cbv zeta. split; [vm_compute; reflexivity|].
  set (s := fst (@end_ Node.collaborators default_mw (GET [("gzip", 1000)]) _ _ _ _)).
  split.
  - destruct (@write_after_end_error Node.collaborators
                default_mw (GET [("gzip", 1000)]) s
                (VString "more") VUndefined VUndefined)
      as [Hw _]; [reflexivity | vm_compute; reflexivity |].
    rewrite Hw.
    replace (destroyed (res s)) with false by (vm_compute; reflexivity).
    reflexivity.
  - destruct (@write_after_end_error Node.collaborators
                default_mw (GET [("gzip", 1000)])
                (set_res (set_destroyed true (set_finished true (res s))) s)
                (VString "more") VUndefined VUndefined)
      as (_ & _ & Hboth & _); [reflexivity | reflexivity |].
    apply Hboth; reflexivity.
Defined.

(** A compressed response after an end whose chunk, a number, cannot be
    made a buffer: the session is ended and closed, and the stream is not
    ended. *)
Lemma ended_session_is_closed_witness :
  let req := GET [("gzip", 1000)] in
  let s := @run Node.collaborators default_mw req (attach (sized 5000 html))
             [Write (VString "a") VUndefined VUndefined;
              End (VNumber 7) VUndefined VUndefined] in
  ended s = true /\
  (exists z, stream s = Some z /\ z_ended z = false) /\
  @closed Node.collaborators default_mw req s.
Proof.
  cbv zeta.
  destruct (@ended_session_is_closed Node.collaborators default_mw
              (GET [("gzip", 1000)]) (sized 5000 html)
              [Write (VString "a") VUndefined VUndefined;
               End (VNumber 7) VUndefined VUndefined])
    as (_ & _ & Hc & _); [vm_compute; reflexivity|].
  split; [vm_compute; reflexivity|].
  split; [eexists; vm_compute; split; reflexivity | exact Hc].
Defined.

(** A write and an end on a response that is compressed. *)
Lemma body_into_the_stream_witness :
  let req := GET [("gzip", 1000)] in
  let s' := @run Node.collaborators default_mw req (attach (sized 5000 html))
              (body [(VString "he", VString "utf8", VUndefined)]
                    (VString "llo", VFunction (user_fn 0), VUndefined)) in
  exists z, stream s' = Some z /\
    z_input z = [(list_byte_of_string "he", VString "utf8");
                 (list_byte_of_string "llo", VUndefined)] /\
    z_ended z = true /\ output (res s') = [].
Proof.
  cbv zeta.
  destruct (stream (@onResponseHeaders Node.collaborators default_mw
                      (GET [("gzip", 1000)]) (attach (sized 5000 html))))
    as [z0|] eqn:Hz0; [|vm_compute in Hz0; discriminate Hz0].
  destruct (@body_into_the_stream Node.collaborators default_mw
              (GET [("gzip", 1000)]) (attach (sized 5000 html))
              (attach (sized 5000 html)) z0
              [(VString "he", VString "utf8", VUndefined)]
              (VString "llo", VFunction (user_fn 0), VUndefined)
              [(list_byte_of_string "he", VString "utf8")]
              (list_byte_of_string "llo", VUndefined))
    as (z & Hz & Hin & Hen & _ & _ & _ & Ho & _).
  - apply pristine_attach; reflexivity.
  - repeat constructor.
  - right. reflexivity.
  - repeat constructor.
  - intros _. split; reflexivity.
  - reflexivity.
  - exact Hz0.
  - exists z. split; [exact Hz|].
    split; [rewrite Hin; vm_compute in Hz0; injection Hz0 as <-; reflexivity|].
    split; [exact Hen|]. rewrite Ho. reflexivity.
Defined.

(** A compressed response: a write, a chunk from the stream and a flush,
    then the end, a second chunk from the stream and a late write, then the
    end of the stream. *)
Lemma transport_gets_what_the_stream_emits_witness :
  let req := GET [("gzip", 1000)] in
  let s := @_implicitHeader Node.collaborators default_mw req
             (attach (sized 5000 html)) in
  let before := [Call (Write (VString "he") VUndefined VUndefined);
                 Emit (StreamData (VBuffer [Byte.x1f; Byte.x8b]));
                 Call Flush] in
  let after := [Emit (StreamData (VBuffer [Byte.x08]));
                Call (Write (VString "late") VUndefined VUndefined)] in
  let s3 := @play Node.collaborators default_mw req
              (@occur Node.collaborators default_mw req
                 (@play Node.collaborators default_mw req s before)
                 (Call (End (VString "llo") VUndefined VUndefined)))
              after in
  let s4 := @occur Node.collaborators default_mw req s3 (Emit StreamEnd) in
  output (res s3) = [(VBuffer [Byte.x1f; Byte.x8b], VUndefined);
                     (VBuffer [Byte.x08], VUndefined)] /\
  finished (res s3) = false /\
  output (res s4) = output (res s3) /\
  finished (res s4) = true.
Proof.
  cbv zeta.
  set (s := @_implicitHeader Node.collaborators default_mw
              (GET [("gzip", 1000)]) (attach (sized 5000 html))).
  destruct (stream s) as [z|] eqn:Hz; [|vm_compute in Hz; discriminate Hz].
  destruct (@transport_gets_what_the_stream_emits Node.collaborators default_mw
              (GET [("gzip", 1000)]) s z
              [Call (Write (VString "he") VUndefined VUndefined);
               Emit (StreamData (VBuffer [Byte.x1f; Byte.x8b]));
               Call Flush]
              [Emit (StreamData (VBuffer [Byte.x08]));
               Call (Write (VString "late") VUndefined VUndefined)]
              (VString "llo") VUndefined VUndefined)
    as (_ & _ & _ & _ & _ & Ho3 & Hf3 & Ho4 & Hf4).
  - split; [reflexivity|]. split; [exact Hz|]. repeat split; reflexivity.
  - repeat constructor.
  - repeat constructor.
  - split; [rewrite Ho3; reflexivity|]. split; [exact Hf3|].
    split; [exact Ho4 | exact Hf4].
Defined.

(** The end called twice on a compressed response, and a chunk the stream
    emits afterwards. *)
Lemma second_end_cuts_the_stream_off_witness :
  let req := GET [("gzip", 1000)] in
  let s := @_implicitHeader Node.collaborators default_mw req
             (attach (sized 5000 html)) in
  let s1 := fst (@end_ Node.collaborators default_mw req s
                   (VString "body") VUndefined VUndefined) in
  let s2 := fst (@end_ Node.collaborators default_mw req s1
                   VUndefined VUndefined VUndefined) in
  finished (res s2) = true /\
  output (res s2) = [] /\
  @deliver Node.collaborators default_mw req s2
    (StreamData (VBuffer [Byte.x1f; Byte.x8b])) = s2.
Proof.
  cbv zeta.
  set (s := @_implicitHeader Node.collaborators default_mw
              (GET [("gzip", 1000)]) (attach (sized 5000 html))).
  destruct (stream s) as [z|] eqn:Hz; [|vm_compute in Hz; discriminate Hz].
  destruct (@second_end_cuts_the_stream_off Node.collaborators default_mw
              (GET [("gzip", 1000)]) s z
              (VString "body") VUndefined VUndefined
              VUndefined VUndefined VUndefined
              (VBuffer [Byte.x1f; Byte.x8b]))
    as (_ & _ & Hf & Ho & Hd).
  - split; [reflexivity|]. split; [exact Hz|]. repeat split; reflexivity.
  - reflexivity.
  - split; [exact Hf|]. split; [rewrite Ho; reflexivity | exact Hd].
Defined.

(** An end with a number for a chunk on a compressed response, followed by
    a second end and a flush. *)
Lemma failed_end_leaves_the_stream_open_witness :
  let req := GET [("gzip", 1000)] in
  let s := @_implicitHeader Node.collaborators default_mw req
             (attach (sized 5000 html)) in
  let s' := @run Node.collaborators default_mw req (set_ended true s)
              [End VUndefined VUndefined VUndefined; Flush] in
  @end_ Node.collaborators default_mw req s (VNumber 7) VUndefined VUndefined
    = (set_ended true s, Raise ERR_INVALID_ARG_TYPE) /\
  ended s' = true /\
  exists z', stream s' = Some z' /\ z_ended z' = false /\ z_input z' = [].
Proof.
  cbv zeta.
  set (s := @_implicitHeader Node.collaborators default_mw
              (GET [("gzip", 1000)]) (attach (sized 5000 html))).
  destruct (stream s) as [z|] eqn:Hz; [|vm_compute in Hz; discriminate Hz].
  destruct (@failed_end_leaves_the_stream_open Node.collaborators default_mw
              (GET [("gzip", 1000)]) s z (VNumber 7) VUndefined VUndefined
              ERR_INVALID_ARG_TYPE
              [End VUndefined VUndefined VUndefined; Flush])
    as (Hend & He & _ & z' & Hz' & Hze & Hzi).
  - split; [reflexivity|]. split; [exact Hz|]. repeat split; reflexivity.
  - reflexivity.
  - reflexivity.
  - reflexivity.
  - reflexivity.
  - split; [exact Hend|]. split; [exact He|].
    exists z'. split; [exact Hz'|].
    vm_compute in Hz. injection Hz as <-. split; [exact Hze | exact Hzi].
Defined.

(** A registration, a flush and a write of null leave the header unsent. *)
Lemma undecided_session_is_buffering_witness :
  let req := GET [("gzip", 1000)] in
  let s := @run Node.collaborators default_mw req (attach html)
             [On "drain" (user_fn 1); Flush; Write VNull VUndefined VUndefined] in
  stream s = None /\ (exists ls, listeners s = Some ls) /\ ended s = false.
Proof.
  cbv zeta.
  apply (@undecided_session_is_buffering Node.collaborators default_mw
           (GET [("gzip", 1000)]) html
           [On "drain" (user_fn 1); Flush; Write VNull VUndefined VUndefined]).
  vm_compute. reflexivity.
Defined.

(** Four bytes ended on a response that declares 5000. *)
Lemma declared_length_is_trusted_witness :
  let req := GET [("gzip", 1000)] in
  let s' := fst (@end_ Node.collaborators default_mw req (attach (sized 5000 html))
                   (VString "tiny") VUndefined VUndefined) in
  length_ s' = None /\ ended s' = true /\
  (exists z, stream s' = Some z /\ z_ended z = true).
Proof.
  cbv zeta.
  destruct (@declared_length_is_trusted Node.collaborators default_mw
              (GET [("gzip", 1000)]) (attach (sized 5000 html)) 5000
              (VString "tiny") VUndefined VUndefined)
    as (_ & Hl & He & _ & z & Hz & Hze).
  - apply pristine_attach; reflexivity.
  - reflexivity.
  - discriminate.
  - vm_compute. discriminate.
  - vm_compute. reflexivity.
  - vm_compute. reflexivity.
  - split; [exact Hl|]. split; [exact He|]. exists z. split; [exact Hz|].
    apply Hze; [right; reflexivity|]. right. eexists. reflexivity.
Defined.

(** Two drain listeners and a close listener registered before a compressed response. *)
Lemma drain_listeners_are_replayed_once_witness :
  let req := GET [("gzip", 1000)] in
  let regs := [("drain", user_fn 1); ("close", user_fn 2); ("drain", user_fn 3)] in
  let s0 := @run Node.collaborators default_mw req (attach (sized 5000 html))
              (registrations regs) in
  let s1 := @_implicitHeader Node.collaborators default_mw req s0 in
  events (res s0) = [("close", user_fn 2)] /\
  listeners s0 = Some [("drain", user_fn 1); ("drain", user_fn 3)] /\
  exists z, stream s1 = Some z /\
    z_events z = [("drain", user_fn 1); ("drain", user_fn 3);
                  ("data", onStreamData); ("end", onStreamEnd)].
Proof.
  cbv zeta.
  destruct (@drain_listeners_are_replayed_once Node.collaborators default_mw
              (GET [("gzip", 1000)]) (attach (sized 5000 html))
              [("drain", user_fn 1); ("close", user_fn 2); ("drain", user_fn 3)])
    as (He & Hl & Hpaths); [reflexivity | reflexivity |].
  split; [exact He|]. split; [exact Hl|].
  destruct Hpaths as [[Hnone _] | (z & Hz & Hze & _)].
  - vm_compute in Hnone. discriminate Hnone.
  - exists z. split; [exact Hz | exact Hze].
Defined.


(** The directive in second place of a Cache-Control value, followed by a
    no-break space. *)
Lemma no_transform_pattern_meaning_witness :
  no_transform_listed
    (list_ascii_of_string "no-cache, no-transform" ++ [ascii_of_nat 160])%list.
Proof.
  apply (no_transform_pattern_meaning
           ("no-cache, no-transform" +:+ String (ascii_of_nat 160) EmptyString)).
  reflexivity.
Defined.
